(** * HRBot: command authorization, moderation ledger and per-user tasks

    A shallow embedding of [index.js], the Highrise room bot.

    - The module-level registries of the script ([permissions],
      [bannedUsers], [mutedUsers], [badWords], [frozenUsers]) are the
      fields of the record [State]; a handler is a function from the state
      to a result, the new state and the trace of what it asked of its
      collaborators: every call on the SDK ([bot.message.send],
      [bot.player.teleport], ...) and every [saveJson], in program order.
      Console logging ([logEvent]) is not part of the trace.
    - [config.json] is input data of the script: the record [Config].
      What the room answers and what the clock shows while an event is
      handled is the record [World].
    - Instants are integer milliseconds, as the time values of [Date]
      are.  Their difference and the elapsed minutes are binary64 numbers:
      [Js.toDouble] and [Js.divide] give the rounded difference and the
      rounded quotient as exact rationals.  Room coordinates are binary64
      floats, as in JavaScript.
    - Strings are sequences of 8-bit characters.  The case mapping and the
      character classes are those of ASCII: they are those of the script
      on texts of ASCII characters, and the properties that rest on the
      case mapping are stated for such texts.  What [toLowerCase] does to
      other code units is shown in [Wide], as far as it matters here.
    - The chat and movement handlers are run to completion on the
      registries, one event after the other.  The emote loops, whose
      correctness depends on what happens between two [await]s, are
      modelled apart ([EmoteLoops]) with their timers and suspended
      functions explicit. *)

From Stdlib Require Import ZArith QArith Qround Qpower Bool List String Ascii Lia Lqa Floats Uint63.
From stdpp Require Import gmap strings list.

#[local] Set Warnings "-inexact-float".

Local Open Scope string_scope.
Local Open Scope list_scope.

(** ** JavaScript primitives used by the script

    Strings are sequences of 8-bit characters; case mapping and the
    character classes are those of the ASCII range.  Numbers are binary64
    numbers, given by their exact value. *)
Module Js.

Definition lowerChar (c : ascii) : ascii :=
  let n := nat_of_ascii c in
  if (65 <=? n)%nat && (n <=? 90)%nat then ascii_of_nat (n + 32) else c.

(** [String.prototype.toLowerCase] *)
Fixpoint toLowerCase (s : string) : string :=
  match s with
  | EmptyString => EmptyString
  | String c r => String (lowerChar c) (toLowerCase r)
  end.

(** [s.startsWith(p)] *)
Definition startsWith (s p : string) : bool := String.prefix p s.

(** [t.includes(w)]: [w] occurs in [t] as a contiguous substring *)
Fixpoint includes (t w : string) : bool :=
  String.prefix w t ||
  match t with
  | EmptyString => false
  | String _ r => includes r w
  end.

(** [s.slice(n)] and [s.substring(n)] for [0 <= n] *)
Fixpoint slice (n : nat) (s : string) : string :=
  match n, s with
  | O, _ => s
  | S _, EmptyString => EmptyString
  | S k, String _ r => slice k r
  end.

(** white space in the sense of [trim] and of the regular expression
    class [\s] *)
Definition isSpace (c : ascii) : bool :=
  let n := nat_of_ascii c in
  ((9 <=? n)%nat && (n <=? 13)%nat) || (n =? 32)%nat.

(** the regular expression class [\w] *)
Definition isWordChar (c : ascii) : bool :=
  let n := nat_of_ascii c in
  ((48 <=? n)%nat && (n <=? 57)%nat) || ((65 <=? n)%nat && (n <=? 90)%nat)
  || ((97 <=? n)%nat && (n <=? 122)%nat) || (n =? 95)%nat.

Fixpoint trimStart (s : string) : string :=
  match s with
  | String c r => if isSpace c then trimStart r else s
  | EmptyString => EmptyString
  end.

Fixpoint trimEnd (s : string) : string :=
  match s with
  | EmptyString => EmptyString
  | String c r =>
      match trimEnd r with
      | EmptyString => if isSpace c then EmptyString else String c EmptyString
      | r' => String c r'
      end
  end.

(** [s.trim()] *)
Definition trim (s : string) : string := trimEnd (trimStart s).

(** [s.split(/ +/)]: the pieces between maximal runs of the space
    character; a leading or trailing run leaves an empty piece, and the
    empty string splits into one empty piece. *)
Fixpoint split (s : string) : list string :=
  match s with
  | EmptyString => [EmptyString]
  | String c r =>
      let toks := split r in
      if Ascii.eqb c " "%char then
        if startsWith r " " then toks else EmptyString :: toks
      else
        match toks with
        | t :: ts => String c t :: ts
        | [] => [String c EmptyString]
        end
  end.

(** longest prefix of word characters, and the rest *)
Fixpoint spanWord (s : string) : string * string :=
  match s with
  | String c r =>
      if isWordChar c then let (w, rest) := spanWord r in (String c w, rest)
      else (EmptyString, s)
  | EmptyString => (EmptyString, EmptyString)
  end.

(** [s.match(/^(\w+)\s+@(\w+)$/)]: the two captured groups.  The classes
    [\w] and [\s] are disjoint and exclude [@], so the greedy match is the
    only one. *)
Definition matchEmoteRegex (s : string) : option (string * string) :=
  let (w1, r1) := spanWord s in
  if String.eqb w1 "" then None else
  let r2 := trimStart r1 in
  if String.eqb r2 r1 then None else
  match r2 with
  | String "@" r3 =>
      let (w2, r4) := spanWord r3 in
      if String.eqb w2 "" then None
      else if String.eqb r4 "" then Some (w1, w2) else None
  | _ => None
  end.

(** [arr.includes(x)] on an array of strings *)
Definition arrIncludes (x : string) (arr : list string) : bool :=
  existsb (String.eqb x) arr.

Definition digitOf (c : ascii) : option Z :=
  let n := nat_of_ascii c in
  if (48 <=? n)%nat && (n <=? 57)%nat then Some (Z.of_nat (n - 48)) else None.

Definition hexDigitOf (c : ascii) : option Z :=
  let n := nat_of_ascii c in
  if (48 <=? n)%nat && (n <=? 57)%nat then Some (Z.of_nat (n - 48))
  else if (65 <=? n)%nat && (n <=? 70)%nat then Some (Z.of_nat (n - 55))
  else if (97 <=? n)%nat && (n <=? 102)%nat then Some (Z.of_nat (n - 87))
  else None.

(** the value of the longest prefix of digits, [None] when it is empty *)
Fixpoint digitsValue (digit : ascii -> option Z) (radix : Z) (acc : option Z) (s : string)
    : option Z :=
  match s with
  | String c r =>
      match digit c with
      | Some d => digitsValue digit radix (Some (default 0%Z acc * radix + d)%Z) r
      | None => acc
      end
  | EmptyString => acc
  end.

(** the integer nearest to [z] among the binary64 numbers, ties going to
    the even significand: the conversion of the integer read by
    [parseInt] to a number, and the result of adding or subtracting two
    integers that are binary64 numbers.  Integers of magnitude [2^1024]
    and more, which become [Infinity], are not modelled: no amount of
    that size is distinguished here. *)
Definition toDouble (z : Z) : Z :=
  let a := Z.abs z in
  if (a <? 2 ^ 53)%Z then z
  else
    let e := (Z.log2 a - 52)%Z in
    let q := Z.shiftr a e in
    let r := (a - Z.shiftl q e)%Z in
    let half := Z.shiftl 1 (e - 1) in
    let q' := if (half <? r)%Z || ((half =? r)%Z && Z.odd q) then (q + 1)%Z else q in
    (Z.sgn z * Z.shiftl q' e)%Z.

(** [parseInt(s)] without a radix argument; [None] is [NaN] *)
Definition parseInt (s : string) : option Z :=
  let s1 := trimStart s in
  let '(negative, s2) :=
    match s1 with
    | String "-" r => (true, r)
    | String "+" r => (false, r)
    | _ => (false, s1)
    end in
  let v :=
    match s2 with
    | String "0" (String "x" r) => digitsValue hexDigitOf 16 None r
    | String "0" (String "X" r) => digitsValue hexDigitOf 16 None r
    | _ => digitsValue digitOf 10 None s2
    end in
  match v with
  | Some n => Some (toDouble (if negative then (- n)%Z else n))
  | None => None
  end.

(** the integer nearest to [x], the even one of two that are equally near *)
Definition nearestEven (x : Q) : Z :=
  let f := Qfloor x in
  match (x - inject_Z f ?= 1 # 2)%Q with
  | Lt => f
  | Gt => (f + 1)%Z
  | Eq => if Z.even f then f else (f + 1)%Z
  end.

(** [floor (log2 (p / b))] for positive integers [p] and [b] *)
Definition exponentOf (p b : Z) : Z :=
  let e := (Z.log2 p - Z.log2 b)%Z in
  if Qle_bool (2 ^ e * inject_Z b) (inject_Z p) then e else (e - 1)%Z.

(** [a / b] for integers [a] and [b > 0] that are binary64 numbers: the
    binary64 number nearest to the quotient, ties going to the even
    significand, as an exact rational.  The quotient has the exponent
    [e], is rounded to a multiple of [2^(e-52)] and so keeps 53
    significant bits.  Quotients below the normal range or beyond the
    largest binary64 number do not arise from a difference of instants
    divided by 60000. *)
Definition divide (a : Z) (b : positive) : Q :=
  if (a =? 0)%Z then 0%Q
  else
    let e := exponentOf (Z.abs a) (Z.pos b) in
    let ulp := (2 ^ (e - 52))%Q in
    let m := nearestEven (inject_Z (Z.abs a) / inject_Z (Z.pos b) / ulp) in
    (inject_Z (Z.sgn a * m) * ulp)%Q.

(** [arr.join(sep)] *)
Definition join (sep : string) (arr : list string) : string := String.concat sep arr.

End Js.

(** ** Data model *)

Definition UserId := string.

(** [{ id, username }] as delivered by the SDK with every event *)
Record User := mkUser { user_id : UserId; user_name : string }.

(** a room position [{ x, y, z, facing }]; coordinates are JavaScript
    numbers, that is binary64 floats *)
Record Position := mkPosition { pos_x : float; pos_y : float; pos_z : float; pos_facing : string }.

Inductive Role := RBasic | RMod | ROwner.

(** [permissions = { owners: [...], mods: [...] }] *)
Record Permissions := mkPermissions { owners : list UserId; mods : list UserId }.

(** A record of [bannedUsers.users] or [mutedUsers.users]:
    [timestamp] is the instant in milliseconds since the epoch ([None] for
    JSON [null]), [duration_minutes] a JSON number or [null].  The flags
    [blocked_commands] and [muted_chat] are written as [true] and never
    read. *)
Record BanInfo := mkBanInfo { timestamp : option Z; duration_minutes : option Q }.

Record EmoteDef := mkEmoteDef {
  emote_id : string;              (* the empty string stands for a missing id *)
  emote_duration : option Z       (* milliseconds *)
}.

Record ChatScope := mkChatScope {
  public_chat_only : list string;
  dm_public_chat : list string;
  dm_only : list string
}.

Record CommandPermissions := mkCommandPermissions {
  perm_mod : list string;         (* config.commandPermissions.mod *)
  perm_owner : list string        (* config.commandPermissions.owner *)
}.

Record MovementCorrection := mkMovementCorrection {
  mc_enabled : bool;
  y_threshold : float;
  max_distance_teleport : float
}.

Record Features := mkFeatures {
  aiReplyInWhispers : bool;
  enableLongMessageSend : bool;
  enableFileContentSend : bool;
  playerMovementTeleportCorrection : MovementCorrection
}.

(** [config.messageLimits]: a missing limit is [None] *)
Record MessageLimits := mkMessageLimits { limit_whisper : option Z; limit_dm : option Z }.

(** the parts of [config.json] read by the modelled code *)
Record Config := mkConfig {
  botPrefix : string;
  messageLimits : MessageLimits;
  chatScope : ChatScope;
  commandPermissions : CommandPermissions;
  emoteDefinitions : list (string * EmoteDef);
  features : Features
}.

(** the module-level registries that are persisted as JSON documents *)
Record State := mkState {
  permissions : Permissions;
  bannedUsers : gmap UserId BanInfo;     (* bannedUsers.users *)
  mutedUsers : gmap UserId BanInfo;      (* mutedUsers.users *)
  badWords : list string;                (* badWords.words *)
  frozenUsers : gmap UserId Position     (* frozenUsers.locked *)
}.

Inductive ChatType := Public | Dm | Whisper.

(** a call of one of the command handling functions, with its arguments *)
Inductive HandlerCall :=
| HelpCommand (u : User) (t : ChatType) (conv : option string)
| ModCommand (u : User) (t : ChatType) (conv : option string)
| StopEmoteCommand (u : User)
| FCommand (u : User) (command : string)
| GotoCommand (u : User) (targetUsername : string)
| WalkCommand (u : User)
| SetBotCommand (u : User)
| T1Command (u : User) (targetUsername : string)
| AllEmoteCommand (u : User) (emoteName : string)
| SummonCommand (u : User) (targetUsername : string)
| IdBanCommand (u target : User)
| IdUnbanCommand (u target : User)
| IdMuteCommand (u target : User)
| IdUnmuteCommand (u target : User)
| RoleCommand (u target : User)
| UnroleCommand (u target : User)
| FreezeCommand (u : User) (targetUserId : UserId)
| UnfreezeCommand (u : User) (targetUserId : UserId)
| KickCommand (u : User) (targetUserId : UserId)
| BanCommand (u : User) (targetUserId : UserId)
| MuteCommand (u : User) (targetUserId : UserId)
| VipCommand (u : User)
| InviteAllCommand (u : User)
| BoostCommand (u : User) (amount : Z)
| VoiceCommand (u : User) (amount : Z)
| EquipCommand (u : User) (item : string)
| RemoveCommand (u : User) (category : string)
| ColorCommand (u : User) (category : string) (index : Z)
| CopyOutfitCommand (u : User) (targetUserId : UserId)
| LongSayCommand (u : User) (text : string) (t : ChatType)
| SendFileContentCommand (u : User) (fileName : string) (t : ChatType)
| EmoteListCommand (u : User) (conv : string)
| AddOwnerCommand (u target : User) (conv : string)
| RemoveOwnerCommand (u target : User) (conv : string)
| ListRolesCommand (u : User) (conv : string)
| SingleEmoteCommand (targetUserId : UserId) (emoteName : string)
| EmoteLoopCommand (u : User) (emoteName : string).

(** What the script asks of its collaborators, in program order. *)
Inductive Effect :=
| MessageSend (text : string)                     (* bot.message.send *)
| DirectSend (conv : string) (text : string)      (* bot.direct.send *)
| WhisperSend (to : UserId) (text : string)       (* bot.whisper.send *)
| Teleport (u : UserId) (p : Position)            (* bot.player.teleport *)
| PlayerEmote (u : UserId) (emoteId : string)     (* bot.player.emote *)
| PlayerKick (u : UserId)                         (* bot.player.kick *)
| PlayerBan (u : UserId) (seconds : Z)            (* bot.player.ban *)
| PlayerMute (u : UserId) (seconds : Z)           (* bot.player.mute *)
| SaveRoles (p : Permissions)                     (* saveJson(roles, permissions) *)
| SaveBannedCommands (users : gmap UserId BanInfo)
| SaveMutedMessages (users : gmap UserId BanInfo)
| SaveBadWords (words : list string)
| SaveFrozenUsers (locked : gmap UserId Position)
| Call (h : HandlerCall).                         (* control passes to a handler *)

(** what the room answers when asked *)
Inductive Lookup (A : Type) :=
| Found (a : A)
| Missing                  (* the promise resolves to nothing *)
| Threw (message : string). (* the promise rejects *)
Arguments Found {A} a.
Arguments Missing {A}.
Arguments Threw {A} message.

(** The room and the clock as the script observes them while it handles
    one event.  The lookup of a name, [bot.room.players.username(id)], is
    only awaited outside of any [try] block: when it rejects
    ([usernameError]), the function that awaits it ends there.  In
    [messageCreate], where the name of the sender only decides how the
    sender is addressed, and for [cachePosition], the lookup is taken to
    resolve; calls that send a chat message are taken to succeed. *)
Record World := mkWorld {
  botId : UserId;                                   (* bot.info.user.id *)
  now : Z;                                          (* new Date().getTime() *)
  playersGet : option (list (User * Position));     (* bot.room.players.get(), None when rejected *)
  playersId : string -> Lookup UserId;              (* bot.room.players.id(username) *)
  playersUsername : UserId -> option string;        (* bot.room.players.username(id) *)
  playersPosition : UserId -> Lookup Position;      (* bot.room.players.position(id) *)
  cachePosition : UserId -> option Position;        (* bot.room.cache.position(id) *)
  getAiResponse : string -> string;                 (* the completion service, fallback text included *)
  actionError : Effect -> option string;            (* the error message when this call on the SDK rejects *)
  usernameError : UserId -> option string           (* the error message when bot.room.players.username(id) rejects *)
}.

(** ** Handlers as state transformers that log their effects *)

Definition M (A : Type) : Type := State -> A * State * list Effect.

#[global] Instance M_ret : MRet M := fun A a s => (a, s, []).
#[global] Instance M_bind : MBind M := fun A B k m s =>
  let '(a, s1, e1) := m s in
  let '(b, s2, e2) := k a s1 in
  (b, s2, e1 ++ e2).

Definition getState : M State := fun s => (s, s, []).
Definition putState (s' : State) : M unit := fun _ => (tt, s', []).
Definition emit (e : Effect) : M unit := fun s => (tt, s, [e]).

Definition resultOf {A} (r : A * State * list Effect) : A := r.1.1.
Definition stateOf {A} (r : A * State * list Effect) : State := r.1.2.
Definition effectsOf {A} (r : A * State * list Effect) : list Effect := r.2.

Arguments resultOf : simpl never.
Arguments stateOf : simpl never.
Arguments effectsOf : simpl never.

(** ** Permissions and moderation helpers *)

Definition arrIncludes := Js.arrIncludes.

Definition getRole (s : State) (userId : UserId) : Role :=
  if arrIncludes userId (owners (permissions s)) then ROwner
  else if arrIncludes userId (mods (permissions s)) then RMod
  else RBasic.

Definition isOwnerRole (r : Role) : bool := match r with ROwner => true | _ => false end.
Definition isModRole (r : Role) : bool := match r with RMod => true | _ => false end.

Definition hasPermission (s : State) (userId : UserId) (requiredRole : Role) : bool :=
  let userRole := getRole s userId in
  match requiredRole with
  | RBasic => true
  | RMod => isModRole userRole || isOwnerRole userRole
  | ROwner => isOwnerRole userRole
  end.

(** [new Date(ts).getTime()], where [new Date(null)] is the epoch *)
Definition getTime (ts : option Z) : Z := default 0%Z ts.

(** [(now.getTime() - t.getTime()) / (1000 * 60)]: the difference and the
    quotient are rounded to binary64 *)
Definition elapsedMinutes (now t : Z) : Q := Js.divide (Js.toDouble (now - t)) 60000.

(** truthiness of a JSON number or [null] *)
Definition truthy (d : option Q) : bool :=
  match d with
  | Some q => negb (Qeq_bool q 0)
  | None => false
  end.

(** the right operand of [>] after conversion to a number ([null] is 0) *)
Definition toNumber (d : option Q) : Q := default 0%Q d.

Definition gt (a b : Q) : bool := negb (Qle_bool a b).

Definition setBanned (m : gmap UserId BanInfo) (s : State) : State :=
  mkState (permissions s) m (mutedUsers s) (badWords s) (frozenUsers s).
Definition setMuted (m : gmap UserId BanInfo) (s : State) : State :=
  mkState (permissions s) (bannedUsers s) m (badWords s) (frozenUsers s).
Definition setBadWords (w : list string) (s : State) : State :=
  mkState (permissions s) (bannedUsers s) (mutedUsers s) w (frozenUsers s).
Definition setPermissions (p : Permissions) (s : State) : State :=
  mkState p (bannedUsers s) (mutedUsers s) (badWords s) (frozenUsers s).
Definition setFrozen (m : gmap UserId Position) (s : State) : State :=
  mkState (permissions s) (bannedUsers s) (mutedUsers s) (badWords s) m.

Definition isBanned (now : Z) (userId : UserId) : M bool :=
  s ← getState;
  match bannedUsers s !! userId with
  | None => mret false
  | Some banInfo =>
      if truthy (duration_minutes banInfo)
         && gt (elapsedMinutes now (getTime (timestamp banInfo)))
               (toNumber (duration_minutes banInfo))
      then
        let users' := delete userId (bannedUsers s) in
        putState (setBanned users' s);;
        emit (SaveBannedCommands users');;
        mret false
      else mret true
  end.

Definition isMuted (now : Z) (userId : UserId) : M bool :=
  s ← getState;
  match mutedUsers s !! userId with
  | None => mret false
  | Some muteInfo =>
      if gt (elapsedMinutes now (getTime (timestamp muteInfo)))
            (toNumber (duration_minutes muteInfo))
      then
        let users' := delete userId (mutedUsers s) in
        putState (setMuted users' s);;
        emit (SaveMutedMessages users');;
        mret false
      else mret true
  end.

Definition addBadWord (word : string) : M bool :=
  s ← getState;
  let lowerCaseWord := Js.toLowerCase word in
  if negb (arrIncludes lowerCaseWord (badWords s)) then
    let words' := badWords s ++ [lowerCaseWord] in
    putState (setBadWords words' s);;
    emit (SaveBadWords words');;
    mret true
  else mret false.

Definition removeBadWord (word : string) : M bool :=
  s ← getState;
  let initialLength := length (badWords s) in
  let lowerCaseWord := Js.toLowerCase word in
  let words' := List.filter (fun w => negb (String.eqb w lowerCaseWord)) (badWords s) in
  putState (setBadWords words' s);;
  if (length words' <? initialLength)%nat then
    emit (SaveBadWords words');;
    mret true
  else mret false.

Definition containsBadWord (s : State) (message : string) : bool :=
  let lowerCaseMessage := Js.toLowerCase message in
  existsb (fun word => Js.includes lowerCaseMessage word) (badWords s).

(** ** Command handling functions

    Calls that send a chat message are taken to succeed; the other calls
    on the SDK reject when [actionError] says so, and the handler's
    [catch] branch runs. *)

Section Handlers.

Variable cfg : Config.
Variable w : World.

(** the generic reply function for public chat, direct messages and
    whispers *)
Definition reply (user : User) (message : string) (type : ChatType)
    (conversationId : option string) : M unit :=
  let maxLength :=
    match type with
    | Whisper => default (-1)%Z (limit_whisper (messageLimits cfg))
    | Dm => default (-1)%Z (limit_dm (messageLimits cfg))
    | Public => (-1)%Z
    end in
  let finalMessage :=
    if negb (maxLength =? -1)%Z && (maxLength <? Z.of_nat (String.length message))%Z
    then String.substring 0 (Z.to_nat (maxLength - 3)) message +:+ "..."
    else message in
  match type with
  | Public => emit (MessageSend finalMessage)
  | Dm =>
      match conversationId with
      | Some c => if String.eqb c "" then mret tt else emit (DirectSend c finalMessage)
      | None => mret tt
      end
  | Whisper => emit (WhisperSend (user_id user) finalMessage)
  end.

(** [getRole(id) === 'owner' || getRole(id) === 'mod'] *)
Definition isProtected (s : State) (userId : UserId) : bool :=
  isOwnerRole (getRole s userId) || isModRole (getRole s userId).

(** the name printed for a user the room does not know *)
Definition usernameOf (userId : UserId) : string :=
  default "undefined" (playersUsername w userId).

(** [const targetUser = {id, username: await bot.room.players.username(id)}]
    at the head of a handler, outside of [try]: when the lookup rejects,
    the handler ends without having done anything *)
Definition withUsername (userId : UserId) (body : string -> M unit) : M unit :=
  match usernameError w userId with
  | Some _ => mret tt
  | None => body (usernameOf userId)
  end.

(** run a call on the SDK inside [try]: the continuation on success, the
    [catch] branch with the error message otherwise *)
Definition attempt (e : Effect) (ok : M unit) (failed : string -> M unit) : M unit :=
  emit e;;
  match actionError w e with
  | None => ok
  | Some msg => failed msg
  end.

Definition handleIdBanCommand (commandSender targetUser : User)
    (conversationId : option string) (chatType : ChatType) : M unit :=
  s ← getState;
  if negb (hasPermission s (user_id commandSender) RMod) then
    reply commandSender "You do not have permission to use this command." chatType conversationId
  else if isProtected s (user_id targetUser) then
    reply commandSender "Cannot ban owner/mod." chatType conversationId
  else
    banned ← isBanned (now w) (user_id targetUser);
    if (banned : bool) then
      reply commandSender ("@" +:+ user_name targetUser +:+ " is already banned.") chatType conversationId
    else
      s' ← getState;
      let users' := <[user_id targetUser := mkBanInfo None None]> (bannedUsers s') in
      putState (setBanned users' s');;
      emit (SaveBannedCommands users');;
      reply commandSender ("@" +:+ user_name targetUser +:+ " has been banned from using commands.")
        chatType conversationId.

Definition handleIdUnbanCommand (commandSender targetUser : User)
    (conversationId : option string) (chatType : ChatType) : M unit :=
  s ← getState;
  if negb (hasPermission s (user_id commandSender) RMod) then
    reply commandSender "You do not have permission to use this command." chatType conversationId
  else
    banned ← isBanned (now w) (user_id targetUser);
    if negb (banned : bool) then
      reply commandSender ("@" +:+ user_name targetUser +:+ " is not banned.") chatType conversationId
    else
      s' ← getState;
      let users' := delete (user_id targetUser) (bannedUsers s') in
      putState (setBanned users' s');;
      emit (SaveBannedCommands users');;
      reply commandSender ("@" +:+ user_name targetUser +:+ " has been unbanned from using commands.")
        chatType conversationId.

Definition handleIdMuteCommand (commandSender targetUser : User)
    (conversationId : option string) (chatType : ChatType) : M unit :=
  s ← getState;
  if negb (hasPermission s (user_id commandSender) RMod) then
    reply commandSender "You do not have permission to use this command." chatType conversationId
  else if isProtected s (user_id targetUser) then
    reply commandSender "Cannot mute owner/mod." chatType conversationId
  else
    muted ← isMuted (now w) (user_id targetUser);
    if (muted : bool) then
      reply commandSender ("@" +:+ user_name targetUser +:+ " is already muted.") chatType conversationId
    else
      s' ← getState;
      let users' := <[user_id targetUser := mkBanInfo (Some (now w)) (Some 15%Q)]> (mutedUsers s') in
      putState (setMuted users' s');;
      emit (SaveMutedMessages users');;
      reply commandSender ("@" +:+ user_name targetUser +:+ " has been muted for 15 minutes.")
        chatType conversationId.

Definition handleIdUnmuteCommand (commandSender targetUser : User)
    (conversationId : option string) (chatType : ChatType) : M unit :=
  s ← getState;
  if negb (hasPermission s (user_id commandSender) RMod) then
    reply commandSender "You do not have permission to use this command." chatType conversationId
  else
    muted ← isMuted (now w) (user_id targetUser);
    if negb (muted : bool) then
      reply commandSender ("@" +:+ user_name targetUser +:+ " is not muted.") chatType conversationId
    else
      s' ← getState;
      let users' := delete (user_id targetUser) (mutedUsers s') in
      putState (setMuted users' s');;
      emit (SaveMutedMessages users');;
      reply commandSender ("@" +:+ user_name targetUser +:+ " has been unmuted.") chatType conversationId.

(** [arr.splice(arr.indexOf(x), 1)] when [x] occurs: the first occurrence
    goes *)
Fixpoint removeFirst (x : UserId) (arr : list UserId) : list UserId :=
  match arr with
  | [] => []
  | y :: r => if String.eqb y x then r else y :: removeFirst x r
  end.

Definition handleRoleCommand (commandSender targetUser : User)
    (conversationId : option string) (chatType : ChatType) : M unit :=
  s ← getState;
  if negb (hasPermission s (user_id commandSender) ROwner) then
    reply commandSender "You do not have permission to use this command." chatType conversationId
  else if isOwnerRole (getRole s (user_id targetUser)) then
    reply commandSender "Cannot change owner's role." chatType conversationId
  else if arrIncludes (user_id targetUser) (mods (permissions s)) then
    reply commandSender ("@" +:+ user_name targetUser +:+ " is already a mod.") chatType conversationId
  else
    let p' := mkPermissions (owners (permissions s)) (mods (permissions s) ++ [user_id targetUser]) in
    putState (setPermissions p' s);;
    emit (SaveRoles p');;
    reply commandSender ("@" +:+ user_name targetUser +:+ " has been assigned the 'mod' role.")
      chatType conversationId.

Definition handleUnroleCommand (commandSender targetUser : User)
    (conversationId : option string) (chatType : ChatType) : M unit :=
  s ← getState;
  if negb (hasPermission s (user_id commandSender) ROwner) then
    reply commandSender "You do not have permission to use this command." chatType conversationId
  else if isOwnerRole (getRole s (user_id targetUser)) then
    reply commandSender "Cannot change owner's role." chatType conversationId
  else if arrIncludes (user_id targetUser) (mods (permissions s)) then
    let p' := mkPermissions (owners (permissions s)) (removeFirst (user_id targetUser) (mods (permissions s))) in
    putState (setPermissions p' s);;
    emit (SaveRoles p');;
    reply commandSender ("@" +:+ user_name targetUser +:+ " has been removed from the 'mod' role.")
      chatType conversationId
  else
    reply commandSender ("@" +:+ user_name targetUser +:+ " is not a mod.") chatType conversationId.

Definition handleAddOwnerCommand (commandSender targetUser : User)
    (conversationId : option string) : M unit :=
  s ← getState;
  if negb (hasPermission s (user_id commandSender) ROwner) then
    reply commandSender "You must be an owner to use this command." Dm conversationId
  else if arrIncludes (user_id targetUser) (owners (permissions s)) then
    reply commandSender ("@" +:+ user_name targetUser +:+ " is already an owner.") Dm conversationId
  else
    let owners' := owners (permissions s) ++ [user_id targetUser] in
    let mods' :=
      if arrIncludes (user_id targetUser) (mods (permissions s))
      then removeFirst (user_id targetUser) (mods (permissions s))
      else mods (permissions s) in
    let p' := mkPermissions owners' mods' in
    putState (setPermissions p' s);;
    emit (SaveRoles p');;
    reply commandSender ("@" +:+ user_name targetUser +:+ " has been assigned the 'owner' role.")
      Dm conversationId.

Definition handleRemoveOwnerCommand (commandSender targetUser : User)
    (conversationId : option string) : M unit :=
  s ← getState;
  if negb (hasPermission s (user_id commandSender) ROwner)
     || String.eqb (user_id commandSender) (user_id targetUser) then
    reply commandSender "You must be an owner to use this command, and cannot remove yourself."
      Dm conversationId
  else if arrIncludes (user_id targetUser) (owners (permissions s)) then
    let p' := mkPermissions (removeFirst (user_id targetUser) (owners (permissions s))) (mods (permissions s)) in
    putState (setPermissions p' s);;
    emit (SaveRoles p');;
    reply commandSender ("@" +:+ user_name targetUser +:+ " has been removed from the 'owner' role.")
      Dm conversationId
  else
    reply commandSender ("@" +:+ user_name targetUser +:+ " is not an owner.") Dm conversationId.

Definition handleSummonCommand (commandSender : User) (targetUsername : string) : M unit :=
  match playersId w targetUsername with
  | Threw _ => mret tt                     (* the rejection leaves the handler *)
  | Missing =>
      emit (MessageSend ("@" +:+ user_name commandSender +:+ " User '" +:+ targetUsername +:+ "' not found."))
  | Found targetUserId =>
      s ← getState;
      if isProtected s targetUserId then
        emit (MessageSend ("@" +:+ user_name commandSender +:+ " Cannot summon owner/mod."))
      else
        match playersPosition w (user_id commandSender) with
        | Found senderPosition =>
            attempt (Teleport targetUserId senderPosition)
              (emit (MessageSend ("@" +:+ user_name commandSender +:+ " Summoned " +:+ targetUsername
                                  +:+ " to your location.")))
              (fun msg => emit (MessageSend ("@" +:+ user_name commandSender +:+ " Failed to summon "
                                             +:+ targetUsername +:+ ": " +:+ msg)))
        | Missing =>
            emit (MessageSend ("@" +:+ user_name commandSender +:+ " Could not find your current position."))
        | Threw msg =>
            emit (MessageSend ("@" +:+ user_name commandSender +:+ " Failed to summon "
                               +:+ targetUsername +:+ ": " +:+ msg))
        end
  end.

Definition handleFreezeCommand (commandSender : User) (targetUserId : UserId) : M unit :=
  withUsername targetUserId (fun targetName =>
  s ← getState;
  if isProtected s targetUserId || String.eqb targetUserId (botId w) then
    emit (MessageSend ("@" +:+ user_name commandSender +:+ " Cannot freeze owner/mod/bot."))
  else
    match playersPosition w targetUserId with
    | Found initialPosition =>
        let locked' := <[targetUserId := initialPosition]> (frozenUsers s) in
        putState (setFrozen locked' s);;
        emit (SaveFrozenUsers locked');;
        emit (MessageSend ("@" +:+ user_name commandSender +:+ " " +:+ targetName
                           +:+ " has been frozen at their current location."))
    | Missing =>
        emit (MessageSend ("@" +:+ user_name commandSender +:+ " Could not find " +:+ targetName
                           +:+ "'s current position to freeze."))
    | Threw msg =>
        emit (MessageSend ("@" +:+ user_name commandSender +:+ " Failed to freeze " +:+ targetName
                           +:+ ": " +:+ msg))
    end).

Definition handleUnfreezeCommand (commandSender : User) (targetUserId : UserId) : M unit :=
  s ← getState;
  match frozenUsers s !! targetUserId with
  | None => emit (MessageSend ("@" +:+ user_name commandSender +:+ " User is not frozen."))
  | Some _ =>
      withUsername targetUserId (fun targetName =>
      let locked' := delete targetUserId (frozenUsers s) in
      putState (setFrozen locked' s);;
      emit (SaveFrozenUsers locked');;
      emit (MessageSend ("@" +:+ user_name commandSender +:+ " " +:+ targetName
                         +:+ " has been unfrozen.")))
  end.

Definition handleKickCommand (commandSender : User) (targetUserId : UserId) : M unit :=
  withUsername targetUserId (fun targetName =>
  s ← getState;
  if isProtected s targetUserId || String.eqb targetUserId (botId w) then
    emit (MessageSend ("@" +:+ user_name commandSender +:+ " Cannot kick owner/mod/bot."))
  else
    attempt (PlayerKick targetUserId)
      (emit (MessageSend ("@" +:+ user_name commandSender +:+ " Kicked " +:+ targetName +:+ " from the room.")))
      (fun msg => emit (MessageSend ("@" +:+ user_name commandSender +:+ " Failed to kick "
                                     +:+ targetName +:+ ": " +:+ msg)))).

Definition handleBanCommand (commandSender : User) (targetUserId : UserId) : M unit :=
  withUsername targetUserId (fun targetName =>
  s ← getState;
  if isProtected s targetUserId || String.eqb targetUserId (botId w) then
    emit (MessageSend ("@" +:+ user_name commandSender +:+ " Cannot ban owner/mod/bot."))
  else
    attempt (PlayerBan targetUserId 3600)
      (emit (MessageSend ("@" +:+ user_name commandSender +:+ " Banned " +:+ targetName +:+ " for 1 hour.")))
      (fun msg => emit (MessageSend ("@" +:+ user_name commandSender +:+ " Failed to ban "
                                     +:+ targetName +:+ ": " +:+ msg)))).

Definition handleMuteCommand (commandSender : User) (targetUserId : UserId) : M unit :=
  withUsername targetUserId (fun targetName =>
  s ← getState;
  if isProtected s targetUserId || String.eqb targetUserId (botId w) then
    emit (MessageSend ("@" +:+ user_name commandSender +:+ " Cannot mute owner/mod/bot."))
  else
    attempt (PlayerMute targetUserId 3600)
      (emit (MessageSend ("@" +:+ user_name commandSender +:+ " Muted " +:+ targetName +:+ " for 1 hour.")))
      (fun msg => emit (MessageSend ("@" +:+ user_name commandSender +:+ " Failed to mute "
                                     +:+ targetName +:+ ": " +:+ msg)))).

End Handlers.
(** ** The command router: [chatCreate] and [messageCreate]

    A handler runs to completion on the registries before the next event
    is looked at; the call of a command handling function is recorded as
    [Call h], the functions themselves are given above for the handlers
    that touch the registries. *)

Section Router.

Variable cfg : Config.
Variable w : World.

(** the properties every object inherits from [Object.prototype] *)
Definition inheritedKeys : list string :=
  [ "constructor"; "hasOwnProperty"; "isPrototypeOf"; "propertyIsEnumerable";
    "toLocaleString"; "toString"; "valueOf"; "__proto__";
    "__defineGetter__"; "__defineSetter__"; "__lookupGetter__"; "__lookupSetter__" ].

(** [config.emoteDefinitions[name]]: the definition under that key, or,
    for a key the object only inherits, a function or object, which is
    truthy and has neither an [id] nor a [duration] *)
Definition lookupEmote (name : string) : option EmoteDef :=
  match List.find (fun kv => String.eqb (fst kv) name) (emoteDefinitions cfg) with
  | Some kv => Some (snd kv)
  | None => if Js.arrIncludes name inheritedKeys then Some (mkEmoteDef "" None) else None
  end.

(** [message.slice(prefix.length).trim().split(/ +/)], then
    [args.shift().toLowerCase()] *)
Definition parseCommand (message : string) : string * list string :=
  match Js.split (Js.trim (Js.slice (String.length (botPrefix cfg)) message)) with
  | c :: args => (Js.toLowerCase c, args)
  | [] => ("", [])
  end.

(** [args[0] && args[0].startsWith('@') ? args[0].substring(1) : null] *)
Definition targetUsernameArg (args : list string) : option string :=
  match args with
  | a :: _ =>
      if negb (String.eqb a "") && Js.startsWith a "@" then Some (Js.slice 1 a) else None
  | [] => None
  end.

Inductive Resolution :=
| NoTarget                                  (* targetUserId stays null *)
| Target (name : string) (id : UserId)
| TargetMissing (name : string)
| TargetError (name : string).

(** the lookup of the [@username] argument in the room *)
Definition resolveTarget (args : list string) : Resolution :=
  match targetUsernameArg args with
  | None => NoTarget
  | Some name =>
      if String.eqb name "" then NoTarget
      else match playersId w name with
           | Found i => if String.eqb i "" then TargetMissing name else Target name i
           | Missing => TargetMissing name
           | Threw _ => TargetError name
           end
  end.

Definition inScope (command : string) (scope : list string) : bool :=
  arrIncludes ("!" +:+ command) scope.

Definition allowedInPublic (command : string) : bool :=
  inScope command (public_chat_only (chatScope cfg))
  || inScope command (dm_public_chat (chatScope cfg)).

Definition allowedInDm (command : string) : bool :=
  inScope command (dm_only (chatScope cfg))
  || inScope command (dm_public_chat (chatScope cfg)).

Definition requiredRole (command : string) : Role :=
  if inScope command (perm_owner (commandPermissions cfg)) then ROwner
  else if inScope command (perm_mod (commandPermissions cfg)) then RMod
  else RBasic.

Definition say (user : User) (text : string) : M unit :=
  emit (MessageSend ("@" +:+ user_name user +:+ " " +:+ text)).

(** a handler that needs the resolved target, or the usage line *)
Definition withTarget (user : User) (command : string) (res : Resolution)
    (k : string -> UserId -> HandlerCall) : M unit :=
  match res with
  | Target name i => emit (Call (k name i))
  | _ => say user ("Usage: !" +:+ command +:+ " @username")
  end.

Definition positive (n : option Z) : option Z :=
  match n with
  | Some v => if (0 <? v)%Z then Some v else None
  | None => None
  end.

Definition argInt (a : option string) : option Z :=
  match a with
  | Some t => Js.parseInt t
  | None => None
  end.

(** the [switch (command)] of the public chat handler *)
Definition dispatchPublic (user : User) (command : string) (args : list string)
    (res : Resolution) : M unit :=
  let named c := String.eqb command c in
  if named "help" then emit (Call (HelpCommand user Public None))
  else if named "mod" then emit (Call (ModCommand user Public None))
  else if named "stop" then emit (Call (StopEmoteCommand user))
  else if named "f1" || named "f2" || named "f3" then emit (Call (FCommand user command))
  else if named "myid" then say user ("Your User ID is: " +:+ user_id user)
  else if named "goto" then withTarget user command res (fun n _ => GotoCommand user n)
  else if named "walk" then emit (Call (WalkCommand user))
  else if named "setbot" then emit (Call (SetBotCommand user))
  else if named "t1" then withTarget user command res (fun n _ => T1Command user n)
  else if named "all" then
    match args with
    | e :: _ =>
        if negb (String.eqb e "") && bool_decide (is_Some (lookupEmote (Js.toLowerCase e)))
        then emit (Call (AllEmoteCommand user (Js.toLowerCase e)))
        else say user "Usage: !all <emotename>"
    | [] => say user "Usage: !all <emotename>"
    end
  else if named "summon" then withTarget user command res (fun n _ => SummonCommand user n)
  else if named "idban" then withTarget user command res (fun n i => IdBanCommand user (mkUser i n))
  else if named "idunban" then withTarget user command res (fun n i => IdUnbanCommand user (mkUser i n))
  else if named "idmute" then withTarget user command res (fun n i => IdMuteCommand user (mkUser i n))
  else if named "idunmute" then withTarget user command res (fun n i => IdUnmuteCommand user (mkUser i n))
  else if named "role" then withTarget user command res (fun n i => RoleCommand user (mkUser i n))
  else if named "unrole" then withTarget user command res (fun n i => UnroleCommand user (mkUser i n))
  else if named "freeze" then withTarget user command res (fun _ i => FreezeCommand user i)
  else if named "unfreeze" then withTarget user command res (fun _ i => UnfreezeCommand user i)
  else if named "k" then withTarget user command res (fun _ i => KickCommand user i)
  else if named "b" then withTarget user command res (fun _ i => BanCommand user i)
  else if named "m" then withTarget user command res (fun _ i => MuteCommand user i)
  else if named "vip" then emit (Call (VipCommand user))
  else if named "invite" then emit (Call (InviteAllCommand user))
  else if named "boost" then
    match positive (argInt (head args)) with
    | Some n => emit (Call (BoostCommand user n))
    | None => say user "Usage: !boost <amount>"
    end
  else if named "voice" then
    match positive (argInt (head args)) with
    | Some n => emit (Call (VoiceCommand user n))
    | None => say user "Usage: !voice <amount>"
    end
  else if named "equip" then
    let itemToEquip := Js.join " " args in
    if String.eqb itemToEquip "" then say user "Usage: !equip <item_id>"
    else emit (Call (EquipCommand user itemToEquip))
  else if named "remove" then
    let categoryToRemove := Js.join " " args in
    if String.eqb categoryToRemove "" then say user "Usage: !remove <category>"
    else emit (Call (RemoveCommand user categoryToRemove))
  else if named "color" then
    match args with
    | colorCategory :: rest =>
        match argInt (head rest) with
        | Some colorIndex =>
            if String.eqb colorCategory "" then say user "Usage: !color <category> <index>"
            else emit (Call (ColorCommand user colorCategory colorIndex))
        | None => say user "Usage: !color <category> <index>"
        end
    | [] => say user "Usage: !color <category> <index>"
    end
  else if named "copy" then withTarget user command res (fun _ i => CopyOutfitCommand user i)
  else if named "longsay" then
    let longText := Js.join " " args in
    if String.eqb longText "" then
      say user "Usage: !longsay <text>. Please provide the text to send."
    else if enableLongMessageSend (features cfg) then emit (Call (LongSayCommand user longText Public))
    else say user "The !longsay feature is currently disabled."
  else if named "sendfilecontent" then
    match head args with
    | Some fileName =>
        if String.eqb fileName "" then
          say user "Usage: !sendfilecontent <filename>. Please provide the filename."
        else if enableFileContentSend (features cfg)
        then emit (Call (SendFileContentCommand user fileName Public))
        else say user "The !sendfilecontent feature is currently disabled."
    | None => say user "Usage: !sendfilecontent <filename>. Please provide the filename."
    end
  else mret tt.   (* default: commandHandled = false, a warning is logged *)

(** the player of the room whose lower-cased name is [targetUsername] *)
Definition findPlayer (players : list (User * Position)) (targetUsername : string) : option User :=
  match List.find (fun p => String.eqb (Js.toLowerCase (user_name (fst p))) targetUsername) players with
  | Some p => Some (fst p)
  | None => None
  end.

(** the un-prefixed [emotename @username] form: [Some] effects when the
    message is consumed by it, [None] when the handler goes on *)
Definition bareEmoteAt (s : State) (user : User) (lowerCaseMessage : string) : option (M unit) :=
  match Js.matchEmoteRegex lowerCaseMessage with
  | Some (emoteCommand, targetUsername) =>
      match lookupEmote emoteCommand with
      | Some _ =>
          match playersGet w with
          | Some players =>
              match findPlayer players targetUsername with
              | Some targetUserObj =>
                  if hasPermission s (user_id user) RBasic
                  then Some (emit (Call (SingleEmoteCommand (user_id targetUserObj) emoteCommand)))
                  else Some (say user "You do not have permission to emote others.")
              | None => None
              end
          | None => None
          end
      | None => None
      end
  | None => None
  end.

(** the first emote name that the message spells, ignoring case *)
Definition bareEmoteLoop (lowerCaseMessage : string) : option string :=
  match List.find (fun kv => String.eqb lowerCaseMessage (Js.toLowerCase (fst kv)))
          (emoteDefinitions cfg) with
  | Some kv => Some (fst kv)
  | None => None
  end.

(** the part of the public chat handler behind the prefix check *)
Definition publicCommand (user : User) (message : string) : M unit :=
  let '(command, args) := parseCommand message in
  match resolveTarget args with
  | TargetMissing name =>
      say user ("User '" +:+ name +:+ "' not found in the room.")
  | TargetError name =>
      say user ("Error finding target user '" +:+ name +:+ "'.")
  | res =>
      if negb (allowedInPublic command) then
        emit (MessageSend ("Sorry, the command '" +:+ botPrefix cfg +:+ command
                           +:+ "' can only be used in DM."))
      else
        s ← getState;
        if negb (hasPermission s (user_id user) (requiredRole command)) then
          say user "You do not have permission to use this command."
        else dispatchPublic user command args res
  end.

(** the public chat handler behind the checks on the sender: bad words,
    the un-prefixed emote forms, the prefix check *)
Definition publicMessage (user : User) (message : string) : M unit :=
  s ← getState;
  if containsBadWord s message then
    say user "Warning: You used a forbidden word. Please refrain from using such language."
  else
    let lowerCaseMessage := Js.toLowerCase message in
    match bareEmoteAt s user lowerCaseMessage with
    | Some m => m
    | None =>
        match bareEmoteLoop lowerCaseMessage with
        | Some emoteName => emit (Call (EmoteLoopCommand user emoteName))
        | None =>
            if negb (Js.startsWith lowerCaseMessage (botPrefix cfg)) then mret tt
            else publicCommand user message
        end
    end.

(** [bot.on('chatCreate', ...)] *)
Definition chatCreate (user : User) (message : string) : M unit :=
  if String.eqb (user_id user) (botId w) then mret tt else
  muted ← isMuted (now w) (user_id user);
  if (muted : bool) then mret tt else
  banned ← isBanned (now w) (user_id user);
  if (banned : bool) then mret tt else
  publicMessage user message.

(** the [switch (command)] of the direct message handler *)
Definition dispatchDm (user : User) (conv : string) (command : string) (args : list string)
    (res : Resolution) : M unit :=
  let named c := String.eqb command c in
  let send text := emit (DirectSend conv text) in
  if named "help" then emit (Call (HelpCommand user Dm (Some conv)))
  else if named "mod" then emit (Call (ModCommand user Dm (Some conv)))
  else if named "emotelist" then emit (Call (EmoteListCommand user conv))
  else if named "addowner" then
    match res with
    | Target name i => emit (Call (AddOwnerCommand user (mkUser i name) conv))
    | _ => send "Usage: !addowner @username"
    end
  else if named "removeowner" then
    match res with
    | Target name i => emit (Call (RemoveOwnerCommand user (mkUser i name) conv))
    | _ => send "Usage: !removeowner @username"
    end
  else if named "list" then emit (Call (ListRolesCommand user conv))
  else if named "bad" then
    match head args with
    | Some badWord =>
        if String.eqb badWord "" then send "Usage: !bad <word>"
        else
          added ← addBadWord badWord;
          if (added : bool) then send ("'" +:+ badWord +:+ "' added to forbidden words.")
          else send ("'" +:+ badWord +:+ "' is already in the list.")
    | None => send "Usage: !bad <word>"
    end
  else if named "rbad" then
    match head args with
    | Some rBadWord =>
        if String.eqb rBadWord "" then send "Usage: !rbad <word>"
        else
          removed ← removeBadWord rBadWord;
          if (removed : bool) then send ("'" +:+ rBadWord +:+ "' removed from forbidden words.")
          else send ("'" +:+ rBadWord +:+ "' not found in the list.")
    | None => send "Usage: !rbad <word>"
    end
  else if named "listbadword" then
    s ← getState;
    send ("Forbidden Words: " +:+
          match badWords s with
          | [] => "None"
          | ws => Js.join ", " ws
          end)
  else
    send ("Unknown command: '" +:+ botPrefix cfg +:+ command +:+ "'. Use !help for commands.").

(** the part of the direct message handler behind the prefix check *)
Definition dmCommand (user : User) (conv : string) (message : string) : M unit :=
  let '(command, args) := parseCommand message in
  match resolveTarget args with
  | TargetMissing name =>
      emit (DirectSend conv ("User '" +:+ name +:+ "' not found in the room."))
  | TargetError name =>
      emit (DirectSend conv ("Error finding target user '" +:+ name +:+ "'."))
  | res =>
      if negb (allowedInDm command) then
        emit (DirectSend conv ("Sorry, the command '" +:+ botPrefix cfg +:+ command
                               +:+ "' works only in public chat."))
      else
        s ← getState;
        if negb (hasPermission s (user_id user) (requiredRole command)) then
          emit (DirectSend conv "You do not have permission to use this command.")
        else dispatchDm user conv command args res
  end.

(** the name under which the sender of a direct message is addressed *)
Definition dmUser (userId : UserId) : User :=
  mkUser userId
    match playersUsername w userId with
    | Some n => if String.eqb n "" then "User_" +:+ String.substring 0 5 userId else n
    | None => "User_" +:+ String.substring 0 5 userId
    end.

(** the direct message handler behind the checks on the sender *)
Definition directMessage (userId : UserId) (conv : string) (message : string) : M unit :=
  let user := dmUser userId in
  if negb (Js.startsWith message (botPrefix cfg)) && aiReplyInWhispers (features cfg) then
    emit (DirectSend conv (getAiResponse w message))
  else if negb (Js.startsWith message (botPrefix cfg)) then mret tt
  else dmCommand user conv message.

(** [bot.on('messageCreate', ...)] *)
Definition messageCreate (userId : UserId) (conv : string) (messageContent : string) : M unit :=
  if String.eqb userId (botId w) then mret tt else
  muted ← isMuted (now w) userId;
  if (muted : bool) then mret tt else
  banned ← isBanned (now w) userId;
  if (banned : bool) then mret tt else
  directMessage userId conv messageContent.

End Router.
(** ** Position guard: [playerMove] *)

Section PositionGuard.

Variable cfg : Config.
Variable w : World.

(** [Math.abs(a - b) > tolerance] with [tolerance = 0.01], in binary64 *)
Definition beyondTolerance (a b : float) : bool :=
  PrimFloat.ltb 0.01%float (PrimFloat.abs (PrimFloat.sub a b)).

Definition movedFromLocked (newPosition lockedPos : Position) : bool :=
  beyondTolerance (pos_x newPosition) (pos_x lockedPos)
  || beyondTolerance (pos_y newPosition) (pos_y lockedPos)
  || beyondTolerance (pos_z newPosition) (pos_z lockedPos).

(** [Math.pow(a - b, 2)], taken as the rounded product *)
Definition squaredDiff (a b : float) : float :=
  PrimFloat.mul (PrimFloat.sub a b) (PrimFloat.sub a b).

Definition significantMove (newPosition lastKnownPos : Position) : bool :=
  let deltaY := PrimFloat.abs (PrimFloat.sub (pos_y newPosition) (pos_y lastKnownPos)) in
  let distance :=
    PrimFloat.sqrt
      (PrimFloat.add
         (PrimFloat.add (squaredDiff (pos_x newPosition) (pos_x lastKnownPos))
                        (squaredDiff (pos_y newPosition) (pos_y lastKnownPos)))
         (squaredDiff (pos_z newPosition) (pos_z lastKnownPos))) in
  let mc := playerMovementTeleportCorrection (features cfg) in
  PrimFloat.ltb (y_threshold mc) deltaY || PrimFloat.ltb (max_distance_teleport mc) distance.

(** [bot.on('playerMove', ...)]; a teleport that rejects is logged and
    nothing else happens *)
Definition playerMove (user : User) (newPosition : Position) : M unit :=
  s ← getState;
  if mc_enabled (playerMovementTeleportCorrection (features cfg))
     && negb (String.eqb (user_id user) (botId w))
  then
    match frozenUsers s !! user_id user with
    | Some lockedPos =>
        if movedFromLocked newPosition lockedPos
        then emit (Teleport (user_id user) lockedPos)
        else mret tt
    | None =>
        match cachePosition w (user_id user) with
        | Some lastKnownPos =>
            if significantMove newPosition lastKnownPos
            then emit (Teleport (user_id user) newPosition)
            else mret tt
        | None => mret tt
        end
    end
  else mret tt.

End PositionGuard.
(** ** Emote loops: the timer-driven task registry

    [handleEmoteLoopCommand] and the closure [performEmote] are
    asynchronous: each runs until its next [await], where it is suspended
    until the awaited promise settles, and other events are handled in
    between.  The scheduler state holds the registry [emoteLoops], the
    armed timers with the closure each will call, and the suspended
    functions; [step] runs one piece of code between two suspension
    points. *)
Module EmoteLoops.

(** a value of the [emoteLoops] map *)
Record LoopEntry := mkLoopEntry {
  timeoutId : nat;
  loop_emoteId : string;
  loop_duration : option Z
}.

(** the variables captured by one [performEmote] closure *)
Record Closure := mkClosure { cl_user : User; cl_emoteName : string; cl_emoteDef : EmoteDef }.

(** a function suspended at an [await], with what it will run next *)
Inductive Cont :=
| AfterStoppedNotice (user : User) (emoteName : string)
    (* handleEmoteLoopCommand, at the send of "Stopped previous emote loop." *)
| AfterRoster (c : Closure)      (* performEmote, at bot.room.players.get() *)
| AfterEmote (c : Closure).      (* performEmote, at bot.player.emote(...) *)

Record Sched := mkSched {
  emoteLoops : gmap UserId LoopEntry;
  timers : gmap nat Closure;       (* armed by setTimeout, not yet fired or cleared *)
  suspended : list Cont;
  nextTimer : nat;
  trace : list Effect
}.

Definition initial : Sched := mkSched ∅ ∅ [] 0 [].

(** how an awaited promise settles *)
Inductive Settled :=
| Resolved (players : list User)   (* the roster, for bot.room.players.get() *)
| Rejected.

Inductive Event :=
| EvStart (user : User) (emoteName : string)   (* handleEmoteLoopCommand is called *)
| EvStop (user : User)                         (* handleStopEmoteCommand is called *)
| EvLeave (user : User)                        (* the playerLeave handler *)
| EvTimer (t : nat)                            (* the timer with this id fires *)
| EvSettle (k : nat) (r : Settled).            (* the k-th suspended function resumes *)

Section Step.

Variable cfg : Config.

Definition send (text : string) (st : Sched) : Sched :=
  mkSched (emoteLoops st) (timers st) (suspended st) (nextTimer st)
          (trace st ++ [MessageSend text]).

Definition suspend (k : Cont) (st : Sched) : Sched :=
  mkSched (emoteLoops st) (timers st) (suspended st ++ [k]) (nextTimer st) (trace st).

(** [if (emoteLoops.has(id)) { clearTimeout(emoteLoops.get(id).timeoutId);
    emoteLoops.delete(id); }] *)
Definition cancelLoop (userId : UserId) (st : Sched) : Sched :=
  match emoteLoops st !! userId with
  | Some entry =>
      mkSched (delete userId (emoteLoops st)) (delete (timeoutId entry) (timers st))
              (suspended st) (nextTimer st) (trace st)
  | None => st
  end.

Definition hasLoop (userId : UserId) (st : Sched) : bool :=
  bool_decide (is_Some (emoteLoops st !! userId)).

(** [performEmote] up to its first [await] *)
Definition performEmote (c : Closure) (st : Sched) : Sched := suspend (AfterRoster c) st.

(** [handleEmoteLoopCommand] behind the cancellation of an earlier loop *)
Definition startLoop (user : User) (emoteName : string) (st : Sched) : Sched :=
  match lookupEmote cfg emoteName with
  | Some emoteDef =>
      if String.eqb (emote_id emoteDef) "" then
        send ("@" +:+ user_name user +:+ " Sorry, I don't know the emote '" +:+ emoteName +:+ "'.") st
      else
        send ("@" +:+ user_name user +:+ " Performing '" +:+ emoteName
              +:+ "' in a loop. Type '!stop' to halt.")
             (performEmote (mkClosure user emoteName emoteDef) st)
  | None =>
      send ("@" +:+ user_name user +:+ " Sorry, I don't know the emote '" +:+ emoteName +:+ "'.") st
  end.

Definition handleEmoteLoopCommand (user : User) (emoteName : string) (st : Sched) : Sched :=
  if hasLoop (user_id user) st then
    suspend (AfterStoppedNotice user emoteName)
      (send ("@" +:+ user_name user +:+ " Stopped previous emote loop.")
         (cancelLoop (user_id user) st))
  else startLoop user emoteName st.

Definition handleStopEmoteCommand (user : User) (st : Sched) : Sched :=
  if hasLoop (user_id user) st then
    send ("@" +:+ user_name user +:+ " Your emote loop has been stopped.")
      (cancelLoop (user_id user) st)
  else send ("@" +:+ user_name user +:+ " You don't have an active emote loop.") st.

(** [timeoutId = setTimeout(performEmote, ...); emoteLoops.set(...)] *)
Definition rearm (c : Closure) (st : Sched) : Sched :=
  let t := nextTimer st in
  mkSched (<[user_id (cl_user c) :=
              mkLoopEntry t (emote_id (cl_emoteDef c)) (emote_duration (cl_emoteDef c))]>
             (emoteLoops st))
          (<[t := c]> (timers st)) (suspended st) (S t) (trace st).

(** the code that runs when a suspended function resumes *)
Definition resume (k : Cont) (r : Settled) (st : Sched) : Sched :=
  match k, r with
  | AfterStoppedNotice user emoteName, Resolved _ => startLoop user emoteName st
  | AfterStoppedNotice _ _, Rejected => st
  | AfterRoster c, Resolved players =>
      if existsb (fun p => String.eqb (user_id p) (user_id (cl_user c))) players then
        suspend (AfterEmote c)
          (mkSched (emoteLoops st) (timers st) (suspended st) (nextTimer st)
             (trace st ++ [PlayerEmote (user_id (cl_user c)) (emote_id (cl_emoteDef c))]))
      else cancelLoop (user_id (cl_user c)) st
  | AfterRoster _, Rejected => st
  | AfterEmote c, Resolved _ => rearm c st
  | AfterEmote c, Rejected =>
      if hasLoop (user_id (cl_user c)) st then
        send ("@" +:+ user_name (cl_user c) +:+ " Stopped emote loop due to an error or user-leave.")
          (cancelLoop (user_id (cl_user c)) st)
      else st
  end.

Definition step (st : Sched) (ev : Event) : Sched :=
  match ev with
  | EvStart user emoteName => handleEmoteLoopCommand user emoteName st
  | EvStop user => handleStopEmoteCommand user st
  | EvLeave user => cancelLoop (user_id user) st
  | EvTimer t =>
      match timers st !! t with
      | Some c =>
          performEmote c
            (mkSched (emoteLoops st) (delete t (timers st)) (suspended st) (nextTimer st) (trace st))
      | None => st
      end
  | EvSettle k r =>
      match suspended st !! k with
      | Some c =>
          resume c r
            (mkSched (emoteLoops st) (timers st) (List.firstn k (suspended st) ++ List.skipn (S k) (suspended st))
               (nextTimer st) (trace st))
      | None => st
      end
  end.

Definition run (st : Sched) (evs : list Event) : Sched := fold_left step evs st.

End Step.

(** does this suspended function belong to a tick of the user's loop? *)
Definition tickOf (userId : UserId) (k : Cont) : bool :=
  match k with
  | AfterRoster c | AfterEmote c => String.eqb (user_id (cl_user c)) userId
  | AfterStoppedNotice _ _ => false
  end.

(** the armed timers whose closure emotes for the user *)
Definition timersOf (userId : UserId) (st : Sched) : list nat :=
  (List.filter (fun tc => String.eqb (user_id (cl_user (snd tc))) userId)
     (map_to_list (timers st))).*1.

(** the number of emote-loop tasks alive for the user: armed timers plus
    ticks in flight *)
Definition activeTasks (userId : UserId) (st : Sched) : nat :=
  length (timersOf userId st) + length (List.filter (tickOf userId) (suspended st)).

End EmoteLoops.
(** ** Interpretation of running handler calls *)

(** the body behind [Call h], for the handlers modelled above, with the
    arguments the routers pass ([conversationId = null] and
    [chatType = 'public'] by default) *)
Definition runHandler (cfg : Config) (w : World) (h : HandlerCall) : option (M unit) :=
  match h with
  | IdBanCommand u t => Some (handleIdBanCommand cfg w u t None Public)
  | IdUnbanCommand u t => Some (handleIdUnbanCommand cfg w u t None Public)
  | IdMuteCommand u t => Some (handleIdMuteCommand cfg w u t None Public)
  | IdUnmuteCommand u t => Some (handleIdUnmuteCommand cfg w u t None Public)
  | RoleCommand u t => Some (handleRoleCommand cfg u t None Public)
  | UnroleCommand u t => Some (handleUnroleCommand cfg u t None Public)
  | AddOwnerCommand u t conv => Some (handleAddOwnerCommand cfg u t (Some conv))
  | RemoveOwnerCommand u t conv => Some (handleRemoveOwnerCommand cfg u t (Some conv))
  | SummonCommand u name => Some (handleSummonCommand w u name)
  | FreezeCommand u i => Some (handleFreezeCommand w u i)
  | UnfreezeCommand u i => Some (handleUnfreezeCommand w u i)
  | KickCommand u i => Some (handleKickCommand w u i)
  | BanCommand u i => Some (handleBanCommand w u i)
  | MuteCommand u i => Some (handleMuteCommand w u i)
  | _ => None
  end.

(** ** Vocabulary of the properties *)

(** the record's deadline, [timestamp + duration_minutes] minutes, lies
    strictly before [now] *)
Definition deadlinePassed (r : BanInfo) (d : Q) (now : Z) : Prop :=
  (inject_Z (getTime (timestamp r)) + d * 60000 < inject_Z now)%Q.

(** [now] is at or before the record's deadline *)
Definition deadlineNotPassed (r : BanInfo) (d : Q) (now : Z) : Prop :=
  (inject_Z now <= inject_Z (getTime (timestamp r)) + d * 60000)%Q.

(** [now] has reached the record's deadline *)
Definition deadlineReached (r : BanInfo) (d : Q) (now : Z) : Prop :=
  (inject_Z (getTime (timestamp r)) + d * 60000 <= inject_Z now)%Q.

(** every character of the text is an ASCII character *)
Fixpoint isAscii (t : string) : bool :=
  match t with
  | EmptyString => true
  | String c r => (nat_of_ascii c <? 128)%nat && isAscii r
  end.

(** the duration is a whole number of minutes, from 1 to [10^9] (some
    1900 years) *)
Definition wholeMinutes (d : Q) : Prop :=
  exists k : Z, (d == inject_Z k)%Q /\ (0 < k <= 1000000000)%Z.

(** an integer below [2^53] in magnitude as a float of the machine *)
Definition ofInteger (n : Z) : float :=
  if (0 <=? n)%Z then PrimFloat.of_uint63 (Uint63.of_Z n)
  else PrimFloat.opp (PrimFloat.of_uint63 (Uint63.of_Z (- n))).

(** the exact value of a finite float of the machine *)
Definition valueOf (f : float) : Q :=
  match Prim2SF f with
  | S754_finite s m e => (inject_Z (if s then Z.neg m else Z.pos m) * 2 ^ e)%Q
  | _ => 0%Q
  end.

(** [Js.divide n 60000] is the quotient the machine computes in binary64 *)
Definition sameQuotient (n : Z) : bool :=
  Qeq_bool (Js.divide n 60000) (valueOf (PrimFloat.div (ofInteger n) 60000)).

(** [Js.toDouble (a - b)] is the difference the machine computes in binary64 *)
Definition sameDifference (ab : Z * Z) : bool :=
  Qeq_bool (inject_Z (Js.toDouble (fst ab - snd ab)))
           (valueOf (PrimFloat.sub (ofInteger (fst ab)) (ofInteger (snd ab)))).

(** [count] integers from [lo] on, [step] apart *)
Fixpoint upFrom (count : nat) (lo step : Z) : list Z :=
  match count with
  | O => []
  | S k => lo :: upFrom k (lo + step)%Z step
  end.



(** the checks on the sender that open both chat handlers: is the message
    dropped because its sender is muted or banned? *)
Definition senderIgnored (w : World) (userId : UserId) : M bool :=
  muted ← isMuted (now w) userId;
  if (muted : bool) then mret true else isBanned (now w) userId.

(** the [@username] argument is absent or names a player of the room *)
Definition resolves (r : Resolution) : bool :=
  match r with
  | NoTarget | Target _ _ => true
  | TargetMissing _ | TargetError _ => false
  end.


(** the [case] labels of the two [switch] statements *)
Definition publicCommandNames : list string :=
  [ "help"; "mod"; "stop"; "f1"; "f2"; "f3"; "myid"; "goto"; "walk"; "setbot"; "t1"; "all";
    "summon"; "idban"; "idunban"; "idmute"; "idunmute"; "role"; "unrole"; "freeze";
    "unfreeze"; "k"; "b"; "m"; "vip"; "invite"; "boost"; "voice"; "equip"; "remove";
    "color"; "copy"; "longsay"; "sendfilecontent" ].





Definition isCall (e : Effect) : bool :=
  match e with
  | Call _ => true
  | _ => false
  end.

(** [t] contains [w] as a substring, ignoring case *)
Definition containsIgnoringCase (t w : string) : Prop :=
  exists pre mid suf, t = pre +:+ mid +:+ suf /\ Js.toLowerCase mid = Js.toLowerCase w.

(** some word of the set equals [w], ignoring case *)
Definition presentIgnoringCase (w : string) (words : list string) : Prop :=
  exists w', In w' words /\ Js.toLowerCase w' = Js.toLowerCase w.

(** the invariant of the bad-word set: it holds lower-case strings *)
Definition allLowerCase (words : list string) : Prop :=
  Forall (fun x => Js.toLowerCase x = x) words.

(** the two role arrays hold no id twice *)
Definition wfPermissions (p : Permissions) : Prop :=
  List.NoDup (owners p) /\ List.NoDup (mods p).

(** no user is both an owner and a mod *)
Definition disjointRoles (p : Permissions) : Prop :=
  forall x, In x (owners p) -> ~ In x (mods p).

(** the run wrote the roles document: the grant went through *)
Definition rolesSaved (r : unit * State * list Effect) : Prop :=
  exists p, In (SaveRoles p) (effectsOf r).

(** the punitive handler calls, with the invoking user and the id of the
    user they act on *)
Definition punitiveCall (w : World) (h : HandlerCall) : option (User * UserId) :=
  match h with
  | IdBanCommand u t | IdMuteCommand u t => Some (u, user_id t)
  | KickCommand u i | BanCommand u i | MuteCommand u i | FreezeCommand u i => Some (u, i)
  | SummonCommand u name =>
      match playersId w name with
      | Found i => Some (u, i)
      | _ => None
      end
  | _ => None
  end.


(** the effects that only talk *)
Definition isSend (e : Effect) : bool :=
  match e with
  | MessageSend _ | DirectSend _ _ | WhisperSend _ _ => true
  | _ => false
  end.

(** ** Sample data *)

Definition emptyState : State := mkState (mkPermissions [] []) ∅ ∅ [] ∅.

Definition alice : User := mkUser "u1" "alice".
Definition bob : User := mkUser "u2" "bob".
Definition carol : User := mkUser "u3" "carol".

(** issued on 2023-11-14 at 22:13:20 UTC for fifteen minutes, as [!idmute]
    writes it *)
Definition issuedAt : Z := 1700000000000.
Definition fifteenMinutes : BanInfo := mkBanInfo (Some issuedAt) (Some 15%Q).

(** the instant at which the fifteen minutes are over *)
Definition deadline : Z := issuedAt + 15 * 60000.

(** issued by [!idban]: no instant, no duration *)
Definition permanent : BanInfo := mkBanInfo None None.

(** alice is banned and muted for fifteen minutes *)
Definition ledgerFifteen : State :=
  setMuted {["u1" := fifteenMinutes]} (setBanned {["u1" := fifteenMinutes]} emptyState).

(** a ban of 0.3333333333333333 minutes, a third of a minute less [2^-54] *)
Definition twentySeconds : BanInfo :=
  mkBanInfo (Some issuedAt) (Some (6004799503160661 # 18014398509481984)).
Definition ledgerTwentySeconds : State := setBanned {["u1" := twentySeconds]} emptyState.

Definition ledgerPermanent : State := setBanned {["u2" := permanent]} emptyState.

Definition origin : Position := mkPosition 0 0 0 "FrontRight".

(** alice, bob and carol are in the room; the bot has id ["bot"] *)
Definition roster : list (User * Position) := [(alice, origin); (bob, origin); (carol, origin)].

Definition room : World :=
  mkWorld "bot" 0 (Some roster)
    (fun name =>
       match List.find (fun p => String.eqb (user_name (fst p)) name) roster with
       | Some p => Found (user_id (fst p))
       | None => Missing
       end)
    (fun i =>
       match List.find (fun p => String.eqb (user_id (fst p)) i) roster with
       | Some p => Some (user_name (fst p))
       | None => None
       end)
    (fun i =>
       match List.find (fun p => String.eqb (user_id (fst p)) i) roster with
       | Some p => Found (snd p)
       | None => Missing
       end)
    (fun _ => None)
    (fun _ => "...")
    (fun _ => None)
    (fun _ => None).

(** the sample room at a moment when it rejects every lookup of a name *)
Definition roomWithoutNames : World :=
  mkWorld (botId room) (now room) (playersGet room) (playersId room) (playersUsername room)
    (playersPosition room) (cachePosition room) (getAiResponse room) (actionError room)
    (fun _ => Some "request timed out").

(** bob is a mod, carol an owner, alice has no role *)
Definition staffed : State := setPermissions (mkPermissions ["u3"] ["u2"]) emptyState.

Definition wave : EmoteDef := mkEmoteDef "emote-wave" None.

(** a configuration with prefix [!]: [!k] and [!emotelist] are listed for
    public chat only, [!help] for both channels, [!addowner] and [!stop]
    for direct messages only *)
Definition sampleConfig (correction : bool) : Config :=
  mkConfig "!" (mkMessageLimits None None)
    (mkChatScope ["!k"; "!emotelist"] ["!help"] ["!addowner"; "!stop"])
    (mkCommandPermissions ["!k"] ["!addowner"])
    [("wave", wave)]
    (mkFeatures false false false (mkMovementCorrection correction 1 5)).

(** alice is frozen at the origin *)
Definition frozenAlice : State := setFrozen {["u1" := origin]} emptyState.

(** alice types [wave] twice; the second message is handled while the
    first loop's opening tick is still waiting for the room; then both
    ticks get the roster, emote, and arm their timers *)
Definition restartDuringFirstTick : list EmoteLoops.Event :=
  [ EmoteLoops.EvStart alice "wave";
    EmoteLoops.EvStart alice "wave";
    EmoteLoops.EvSettle 0 (EmoteLoops.Resolved [alice]);
    EmoteLoops.EvSettle 0 (EmoteLoops.Resolved [alice]);
    EmoteLoops.EvSettle 0 (EmoteLoops.Resolved []);
    EmoteLoops.EvSettle 0 (EmoteLoops.Resolved []) ].

(** alice's loop is running; its timer fires, and while that tick waits
    for the room she types [wave] again *)
Definition restartDuringLaterTick : list EmoteLoops.Event :=
  [ EmoteLoops.EvStart alice "wave";
    EmoteLoops.EvSettle 0 (EmoteLoops.Resolved [alice]);
    EmoteLoops.EvSettle 0 (EmoteLoops.Resolved []);
    EmoteLoops.EvTimer 0;
    EmoteLoops.EvStart alice "wave";
    EmoteLoops.EvSettle 1 (EmoteLoops.Resolved []);
    EmoteLoops.EvSettle 0 (EmoteLoops.Resolved [alice]);
    EmoteLoops.EvSettle 0 (EmoteLoops.Resolved [alice]);
    EmoteLoops.EvSettle 0 (EmoteLoops.Resolved []);
    EmoteLoops.EvSettle 0 (EmoteLoops.Resolved []) ].

(** alice's loop is running and idle between two ticks when she types
    [wave] again *)
Definition restartWhileIdle : list EmoteLoops.Event :=
  [ EmoteLoops.EvStart alice "wave";
    EmoteLoops.EvSettle 0 (EmoteLoops.Resolved [alice]);
    EmoteLoops.EvSettle 0 (EmoteLoops.Resolved []);
    EmoteLoops.EvStart alice "wave";
    EmoteLoops.EvSettle 0 (EmoteLoops.Resolved []);
    EmoteLoops.EvSettle 0 (EmoteLoops.Resolved [alice]);
    EmoteLoops.EvSettle 0 (EmoteLoops.Resolved []) ].
(** ** Further handlers of the script *)

From Stdlib Require Import DecimalString.

Module JsText.

(** [text.split(' ')]: the pieces between single spaces; two spaces in a
    row leave an empty piece, and the empty string splits into one empty
    piece *)
Fixpoint splitOnSpace (s : string) : list string :=
  match s with
  | EmptyString => [EmptyString]
  | String c r =>
      if Ascii.eqb c " "%char then EmptyString :: splitOnSpace r
      else
        match splitOnSpace r with
        | t :: ts => String c t :: ts
        | [] => [String c EmptyString]
        end
  end.

(** a string is truthy when it is not empty *)
Definition truthy (s : string) : bool := negb (String.eqb s "").

(** a count as it prints inside a template literal *)
Definition numberToString (n : nat) : string := NilZero.string_of_uint (Nat.to_uint n).

(** the double quote character *)
Definition dquote : string := String (ascii_of_nat 34) EmptyString.

End JsText.

Section MoreHandlers.

Variable cfg : Config.
Variable w : World.

(** [bot.on('whisperCreate', ...)] *)
Definition whisperCreate (user : User) (message : string) : M unit :=
  if String.eqb (user_id user) (botId w) then mret tt else
  muted ← isMuted (now w) (user_id user);
  if (muted : bool) then mret tt else
  banned ← isBanned (now w) (user_id user);
  if (banned : bool) then mret tt else
  if Js.startsWith message (botPrefix cfg) then
    reply cfg user
      (JsText.dquote +:+ botPrefix cfg +:+ JsText.dquote
       +:+ " works only in DM/public chat. For AI interaction, just type naturally.")
      Whisper None
  else if aiReplyInWhispers (features cfg) then
    reply cfg user (getAiResponse w message) Whisper None
  else mret tt.

(** [handleSingleEmoteCommand]: a call that rejects is logged *)
Definition handleSingleEmoteCommand (targetUserId : UserId) (emoteName : string) : M unit :=
  match lookupEmote cfg emoteName with
  | Some emoteDef =>
      if String.eqb (emote_id emoteDef) "" then mret tt
      else emit (PlayerEmote targetUserId (emote_id emoteDef))
  | None => mret tt
  end.

(** the loop of [handleAllEmoteCommand] over the players of the room,
    with the running count of the calls that went through *)
Fixpoint emoteEach (emoteId : string) (players : list (User * Position)) (count : nat)
    : M nat :=
  match players with
  | [] => mret count
  | (user, _) :: rest =>
      if String.eqb (user_id user) (botId w) then emoteEach emoteId rest count
      else
        emit (PlayerEmote (user_id user) emoteId);;
        match actionError w (PlayerEmote (user_id user) emoteId) with
        | None => emoteEach emoteId rest (S count)
        | Some _ => emoteEach emoteId rest count
        end
  end.

(** [handleAllEmoteCommand]; [rosterError] is the message of the error
    when the room does not deliver its players *)
Definition handleAllEmoteCommand (rosterError : string) (commandSender : User)
    (emoteName : string) : M unit :=
  let unknown :=
    emit (MessageSend ("@" +:+ user_name commandSender +:+ " Unknown emote '" +:+ emoteName
                       +:+ "'.")) in
  match lookupEmote cfg emoteName with
  | Some emoteDef =>
      if String.eqb (emote_id emoteDef) "" then unknown
      else
        match playersGet w with
        | Some players =>
            count ← emoteEach (emote_id emoteDef) players 0;
            emit (MessageSend ("@" +:+ user_name commandSender +:+ " Made "
                               +:+ JsText.numberToString count +:+ " users perform '"
                               +:+ emoteName +:+ "'."))
        | None =>
            emit (MessageSend ("@" +:+ user_name commandSender
                               +:+ " Failed to make all users emote: " +:+ rosterError))
        end
  | None => unknown
  end.

(** [MAX_MESSAGE_LENGTH] of [handleLongSayCommand] *)
Definition MAX_MESSAGE_LENGTH : nat := 120.

(** one round of the loop over the words: the lines pushed so far and
    the current chunk *)
Definition addWord (acc : list string * string) (word : string) : list string * string :=
  let '(lines, currentChunk) := acc in
  if ((if JsText.truthy currentChunk then String.length currentChunk + 1 else 0)
      + String.length word <=? MAX_MESSAGE_LENGTH)%nat
  then (lines, currentChunk +:+ (if JsText.truthy currentChunk then " " else "") +:+ word)
  else (lines ++ [currentChunk], word).

(** the lines into which [handleLongSayCommand] cuts a text, the
    fallback for a text that left no line included *)
Definition longSayLines (text : string) : list string :=
  let '(lines, currentChunk) := fold_left addWord (JsText.splitOnSpace text) ([], "") in
  let lines := if JsText.truthy currentChunk then lines ++ [currentChunk] else lines in
  if (length lines =? 0)%nat && (0 <? String.length text)%nat then lines ++ [text]
  else lines.

(** the sending loop: a send that rejects is answered with a notice and
    ends the loop *)
Fixpoint sendLines (user : User) (chatType : ChatType) (conversationId : option string)
    (lines : list string) : M unit :=
  let sendLine (e : Effect) (rest : list string) : M unit :=
    emit e;;
    match actionError w e with
    | None => sendLines user chatType conversationId rest
    | Some _ => reply cfg user "Failed to send part of the message." chatType conversationId
    end in
  match lines with
  | [] => mret tt
  | line :: rest =>
      match chatType with
      | Public => sendLine (MessageSend line) rest
      | Dm =>
          match conversationId with
          | Some c =>
              if String.eqb c "" then sendLines user chatType conversationId rest
              else sendLine (DirectSend c line) rest
          | None => sendLines user chatType conversationId rest
          end
      | Whisper => sendLines user chatType conversationId rest
      end
  end.

Definition handleLongSayCommand (user : User) (text : string) (chatType : ChatType)
    (conversationId : option string) : M unit :=
  if negb (enableLongMessageSend (features cfg)) then
    reply cfg user "Long message sending is currently disabled." chatType conversationId
  else
    let lines := longSayLines text in
    if (length lines =? 0)%nat && (String.length text =? 0)%nat then
      reply cfg user "No text provided for !longsay." chatType conversationId
    else sendLines user chatType conversationId lines.

End MoreHandlers.
(** ** Vocabulary of the further properties *)

(** the order basic < mod < owner *)
Definition roleRank (r : Role) : nat :=
  match r with
  | RBasic => 0
  | RMod => 1
  | ROwner => 2
  end.

(** the four commands that update the role registry *)
Inductive RoleUpdate := DoRole | DoUnrole | DoAddOwner | DoRemoveOwner.

Definition runRoleUpdate (cfg : Config) (k : RoleUpdate) (sender target : User)
    (conv : option string) (t : ChatType) : M unit :=
  match k with
  | DoRole => handleRoleCommand cfg sender target conv t
  | DoUnrole => handleUnroleCommand cfg sender target conv t
  | DoAddOwner => handleAddOwnerCommand cfg sender target conv
  | DoRemoveOwner => handleRemoveOwnerCommand cfg sender target conv
  end.

(** the four commands that update the command-ban and mute ledgers *)
Inductive LedgerUpdate := DoIdBan | DoIdUnban | DoIdMute | DoIdUnmute.

Definition runLedgerUpdate (cfg : Config) (w : World) (k : LedgerUpdate)
    (sender target : User) (conv : option string) (t : ChatType) : M unit :=
  match k with
  | DoIdBan => handleIdBanCommand cfg w sender target conv t
  | DoIdUnban => handleIdUnbanCommand cfg w sender target conv t
  | DoIdMute => handleIdMuteCommand cfg w sender target conv t
  | DoIdUnmute => handleIdUnmuteCommand cfg w sender target conv t
  end.

(** the text of a chat message that is sent *)
Definition sentText (e : Effect) : option string :=
  match e with
  | MessageSend text | DirectSend _ text | WhisperSend _ text => Some text
  | _ => None
  end.

(** the configured length limit of a kind of chat, if any *)
Definition limitOf (cfg : Config) (t : ChatType) : option Z :=
  match t with
  | Whisper => limit_whisper (messageLimits cfg)
  | Dm => limit_dm (messageLimits cfg)
  | Public => None
  end.

(** the text consists of space characters only (the empty text does) *)
Fixpoint onlySpaces (text : string) : bool :=
  match text with
  | EmptyString => true
  | String c r => Ascii.eqb c " "%char && onlySpaces r
  end.

(** the text contains no space character *)
Fixpoint spaceFree (text : string) : bool :=
  match text with
  | EmptyString => true
  | String c r => negb (Ascii.eqb c " "%char) && spaceFree r
  end.

(** the lines that the loop of [handleLongSayCommand] over the words
    leaves, the last chunk included, before the fallback is looked at *)
Definition collectedLines (text : string) : list string :=
  let '(lines, currentChunk) := fold_left addWord (JsText.splitOnSpace text) ([], "") in
  if JsText.truthy currentChunk then lines ++ [currentChunk] else lines.

(** the test of the fallback, [lines.length === 0 && text.length > 0] *)
Definition fallbackFires (text : string) : bool :=
  (length (collectedLines text) =? 0)%nat && (0 <? String.length text)%nat.

(** a line is within the limit of a message or is one of the words *)
Definition fits (ws : list string) (line : string) : Prop :=
  String.length line <= MAX_MESSAGE_LENGTH \/ In line ws.

(** ** Further sample data *)

(** the sample room at another instant *)
Definition roomAt (t : Z) : World :=
  mkWorld (botId room) t (playersGet room) (playersId room) (playersUsername room)
    (playersPosition room) (cachePosition room) (getAiResponse room) (actionError room)
    (usernameError room).

(** the staffed registry with alice muted for fifteen minutes *)
Definition staffedMuted : State := setMuted {["u1" := fifteenMinutes]} staffed.


(** a configuration with long messages switched on, whispers limited to
    twenty characters and direct messages to ten *)
Definition chattyConfig : Config :=
  mkConfig "!" (mkMessageLimits (Some 20%Z) (Some 10%Z))
    (chatScope (sampleConfig true)) (commandPermissions (sampleConfig true))
    (emoteDefinitions (sampleConfig true))
    (mkFeatures false true false (mkMovementCorrection true 1 5)).

(** the sample room, refusing to send one text to the public chat *)
Definition roomRefusing (refused : string) : World :=
  mkWorld (botId room) (now room) (playersGet room) (playersId room) (playersUsername room)
    (playersPosition room) (cachePosition room) (getAiResponse room)
    (fun e =>
       match e with
       | MessageSend line => if String.eqb line refused then Some "rate limited" else None
       | _ => None
       end)
    (usernameError room).

(** a word of 130 characters *)
Definition longWord : string :=
  Eval cbv in String.concat "" (repeat "abcdefghij" 13).

(** the players whom [!all] makes emote: everyone in the room but the bot *)
Definition emoteTargets (w : World) (players : list (User * Position)) : list UserId :=
  List.filter (fun i => negb (String.eqb i (botId w))) (map (fun p => user_id (fst p)) players).

(** the room carried out this emote call *)
Definition emoteAccepted (w : World) (emoteId : string) (i : UserId) : bool :=
  match actionError w (PlayerEmote i emoteId) with
  | None => true
  | Some _ => false
  end.

(** a whisper to this user *)
Definition isWhisperTo (userId : UserId) (e : Effect) : bool :=
  match e with
  | WhisperSend to _ => String.eqb to userId
  | _ => false
  end.

(** the writes of a ledger to the store *)
Definition isLedgerSave (e : Effect) : bool :=
  match e with
  | SaveBannedCommands _ | SaveMutedMessages _ => true
  | _ => false
  end.

(** the sample room, where bob cannot be made to emote *)
Definition roomBobStiff : World :=
  mkWorld "u1" (now room) (playersGet room) (playersId room) (playersUsername room)
    (playersPosition room) (cachePosition room) (getAiResponse room)
    (fun e =>
       match e with
       | PlayerEmote i _ => if String.eqb i "u2" then Some "not in room" else None
       | _ => None
       end)
    (usernameError room).

(** the staffed registry with carol, an owner, muted for fifteen minutes *)
Definition ownerMuted : State := setMuted {["u3" := fifteenMinutes]} staffed.

(** the suspended function works for this user *)
Definition ownedBy (userId : UserId) (k : EmoteLoops.Cont) : bool :=
  match k with
  | EmoteLoops.AfterStoppedNotice u _ => String.eqb (user_id u) userId
  | EmoteLoops.AfterRoster c | EmoteLoops.AfterEmote c =>
      String.eqb (user_id (EmoteLoops.cl_user c)) userId
  end.

(** nothing is left of the user's loop: no registry entry, no armed timer
    and no suspended function of theirs *)
Definition quiet (userId : UserId) (st : EmoteLoops.Sched) : Prop :=
  EmoteLoops.emoteLoops st !! userId = None
  /\ (forall t c, EmoteLoops.timers st !! t = Some c ->
                  user_id (EmoteLoops.cl_user c) <> userId)
  /\ Forall (fun k => ownedBy userId k = false) (EmoteLoops.suspended st).

(** the user's loop is between two ticks: it is registered, the only
    timer armed for the user is the registered one, and no function of
    theirs is suspended *)
Definition betweenTicks (userId : UserId) (st : EmoteLoops.Sched) : Prop :=
  exists entry,
    EmoteLoops.emoteLoops st !! userId = Some entry
    /\ (forall t c, EmoteLoops.timers st !! t = Some c ->
                    user_id (EmoteLoops.cl_user c) = userId ->
                    t = EmoteLoops.timeoutId entry)
    /\ Forall (fun k => ownedBy userId k = false) (EmoteLoops.suspended st).

(** the event is a start of a loop for this user *)
Definition startsFor (userId : UserId) (ev : EmoteLoops.Event) : bool :=
  match ev with
  | EmoteLoops.EvStart u _ => String.eqb (user_id u) userId
  | _ => false
  end.

(** the emotes the room was asked to play on this user *)
Definition emotesOf (userId : UserId) (es : list Effect) : list Effect :=
  List.filter (fun e => match e with
                        | PlayerEmote i _ => String.eqb i userId
                        | _ => false
                        end) es.

(** a piece of handler code that leaves a user without loop as they
    are, and plays no emote on them *)
Definition keeps (userId : UserId) (f : EmoteLoops.Sched -> EmoteLoops.Sched) : Prop :=
  forall st, quiet userId st ->
    quiet userId (f st)
    /\ emotesOf userId (EmoteLoops.trace (f st)) = emotesOf userId (EmoteLoops.trace st).

(** timer ids are handed out in increasing order and never again: every
    id in use is below the next one, and the timer a registry entry names,
    if it is still armed, emotes for the user of that entry *)
Definition timersConsistent (st : EmoteLoops.Sched) : Prop :=
  (forall u entry, EmoteLoops.emoteLoops st !! u = Some entry ->
                   EmoteLoops.timeoutId entry < EmoteLoops.nextTimer st)
  /\ (forall t c, EmoteLoops.timers st !! t = Some c -> t < EmoteLoops.nextTimer st)
  /\ (forall u entry c,
        EmoteLoops.emoteLoops st !! u = Some entry ->
        EmoteLoops.timers st !! EmoteLoops.timeoutId entry = Some c ->
        user_id (EmoteLoops.cl_user c) = u).

(** the event is a start, a stop or the leaving of this user *)
Definition actsFor (userId : UserId) (ev : EmoteLoops.Event) : bool :=
  match ev with
  | EmoteLoops.EvStart u _ | EmoteLoops.EvStop u | EmoteLoops.EvLeave u =>
      String.eqb (user_id u) userId
  | _ => false
  end.

(** alice's loop has performed its first emote and waits for its timer *)
Definition aliceLooping : EmoteLoops.Sched :=
  EmoteLoops.run (sampleConfig true) EmoteLoops.initial
    [ EmoteLoops.EvStart alice "wave";
      EmoteLoops.EvSettle 0 (EmoteLoops.Resolved [alice; bob]);
      EmoteLoops.EvSettle 0 (EmoteLoops.Resolved []) ].

(** alice and bob have both started a loop; each loop has performed its
    first emote and waits for its timer *)
Definition bothLooping : list EmoteLoops.Event :=
  [ EmoteLoops.EvStart alice "wave";
    EmoteLoops.EvStart bob "wave";
    EmoteLoops.EvSettle 0 (EmoteLoops.Resolved [alice; bob]);
    EmoteLoops.EvSettle 0 (EmoteLoops.Resolved [alice; bob]);
    EmoteLoops.EvSettle 0 (EmoteLoops.Resolved []);
    EmoteLoops.EvSettle 0 (EmoteLoops.Resolved []) ].

(** the three commands that act on a player through the room *)
Inductive RoomAction := DoKick | DoBan | DoMute.

Definition runRoomAction (w : World) (k : RoomAction) (sender : User) (targetUserId : UserId)
    : M unit :=
  match k with
  | DoKick => handleKickCommand w sender targetUserId
  | DoBan => handleBanCommand w sender targetUserId
  | DoMute => handleMuteCommand w sender targetUserId
  end.

(** what each of them is called in the messages *)
Definition verbOf (k : RoomAction) : string :=
  match k with
  | DoKick => "kick"
  | DoBan => "ban"
  | DoMute => "mute"
  end.

(** the reply that declines to act on an owner, a mod or the bot *)
Definition declined (k : RoomAction) (sender : User) : string :=
  "@" +:+ user_name sender +:+ " Cannot " +:+ verbOf k +:+ " owner/mod/bot.".

(** the report of the call that went through *)
Definition carriedOut (k : RoomAction) (sender : User) (targetName : string) : string :=
  "@" +:+ user_name sender +:+
  match k with
  | DoKick => " Kicked " +:+ targetName +:+ " from the room."
  | DoBan => " Banned " +:+ targetName +:+ " for 1 hour."
  | DoMute => " Muted " +:+ targetName +:+ " for 1 hour."
  end.

(** the report of the call that the room rejected *)
Definition failedWith (k : RoomAction) (sender : User) (targetName message : string) : string :=
  "@" +:+ user_name sender +:+ " Failed to " +:+ verbOf k +:+ " " +:+ targetName
  +:+ ": " +:+ message.

(** the call on the room behind each of them *)
Definition roomCall (k : RoomAction) (targetUserId : UserId) : Effect :=
  match k with
  | DoKick => PlayerKick targetUserId
  | DoBan => PlayerBan targetUserId 3600
  | DoMute => PlayerMute targetUserId 3600
  end.

(** ** Strings with code units beyond ASCII

    A JavaScript string is a sequence of 16-bit code units, and
    [toLowerCase] follows the Unicode case conversion.  On ASCII it works
    character by character, as [Js.toLowerCase] does.  The capital sigma
    is converted by its place: it becomes the final sigma where it ends a
    word, and the small sigma elsewhere.  This module gives the functions
    of the bad-word set to strings over the code units below 256 and the
    three forms of sigma; other code units are outside of it. *)
Module Wide.

Definition wstring := list N.

Definition capitalSigma : N := 931.   (* U+03A3 *)
Definition finalSigma : N := 962.     (* U+03C2 *)
Definition smallSigma : N := 963.     (* U+03C3 *)

Definition between (lo hi u : N) : bool := (lo <=? u)%N && (u <=? hi)%N.

(** the letters among the code units covered (the property [Cased]) *)
Definition isCased (u : N) : bool :=
  between 65 90 u || between 97 122 u
  || (u =? 170)%N || (u =? 181)%N || (u =? 186)%N
  || between 192 214 u || between 216 246 u || between 248 255 u
  || (u =? capitalSigma)%N || (u =? finalSigma)%N || (u =? smallSigma)%N.

(** the code units covered that have the property [Case_Ignorable]: the
    apostrophe, the full stop, the colon, the circumflex and the grave
    accent, the diaeresis, the soft hyphen, the macron, the acute accent,
    the middle dot and the cedilla *)
Definition isCaseIgnorable (u : N) : bool :=
  existsb (N.eqb u) [39; 46; 58; 94; 96; 168; 173; 175; 180; 183; 184]%N.

(** the lower-case form of a code unit other than the capital sigma *)
Definition lowerUnit (u : N) : N :=
  if between 65 90 u || (between 192 222 u && negb (u =? 215)%N) then (u + 32)%N else u.

(** a run of case-ignorable code units and then a letter, read from the
    head of the sequence *)
Fixpoint letterAfterIgnorables (s : wstring) : bool :=
  match s with
  | [] => false
  | u :: r => if isCased u then true
              else if isCaseIgnorable u then letterAfterIgnorables r else false
  end.

(** the conversion of the rest [s] of a string whose part already read
    is [before], last code unit first.  The condition [Final_Sigma]: the
    sigma follows a letter, possibly with case-ignorable code units in
    between, and no letter follows it in that way. *)
Fixpoint lowerFrom (before s : wstring) : wstring :=
  match s with
  | [] => []
  | u :: r =>
      (if (u =? capitalSigma)%N then
         if letterAfterIgnorables before && negb (letterAfterIgnorables r)
         then finalSigma else smallSigma
       else lowerUnit u)
      :: lowerFrom (u :: before) r
  end.

(** [String.prototype.toLowerCase] *)
Definition toLowerCase (s : wstring) : wstring := lowerFrom [] s.

Fixpoint startsWith (t w : wstring) : bool :=
  match w, t with
  | [], _ => true
  | _ :: _, [] => false
  | a :: w', b :: t' => (a =? b)%N && startsWith t' w'
  end.

(** [t.includes(w)] *)
Fixpoint includes (t w : wstring) : bool :=
  startsWith t w ||
  match t with
  | [] => false
  | _ :: r => includes r w
  end.

Definition wordIn (x : wstring) (words : list wstring) : bool :=
  existsb (fun y => bool_decide (x = y)) words.

(** [addBadWord] on the array of words: the result and the array after *)
Definition addBadWord (word : wstring) (words : list wstring) : bool * list wstring :=
  let lowerCaseWord := toLowerCase word in
  if negb (wordIn lowerCaseWord words) then (true, words ++ [lowerCaseWord])
  else (false, words).

(** [containsBadWord] *)
Definition containsBadWord (words : list wstring) (message : wstring) : bool :=
  let lowerCaseMessage := toLowerCase message in
  existsb (fun word => includes lowerCaseMessage word) words.

(** a text of ASCII characters, as a sequence of code units *)
Fixpoint widen (s : string) : wstring :=
  match s with
  | EmptyString => []
  | String c r => N_of_ascii c :: widen r
  end.

End Wide.
(** * Properties *)

(** ** Running handlers *)

Section Running.

Context {A : Type}.

Lemma run_getState (k : State -> M A) s : (getState ≫= k) s = k s s.
Proof. unfold mbind, M_bind, getState. destruct (k s s) as [[a s'] e]. reflexivity. Qed.

Lemma run_putState (s' : State) (m : M A) s : (putState s' ≫= fun _ => m) s = m s'.
Proof. unfold mbind, M_bind, putState. destruct (m s') as [[a s''] e]. reflexivity. Qed.

Lemma run_emit (e : Effect) (m : M A) s :
  (emit e ≫= fun _ => m) s = (resultOf (m s), stateOf (m s), e :: effectsOf (m s)).
Proof. unfold mbind, M_bind, emit. destruct (m s) as [[a s'] es]. reflexivity. Qed.

Lemma run_bind {B : Type} (m : M B) (k : B -> M A) s :
  (m ≫= k) s =
  (resultOf (k (resultOf (m s)) (stateOf (m s))),
   stateOf (k (resultOf (m s)) (stateOf (m s))),
   effectsOf (m s) ++ effectsOf (k (resultOf (m s)) (stateOf (m s)))).
Proof.
  unfold mbind, M_bind. destruct (m s) as [[b s1] e1]. unfold resultOf, stateOf, effectsOf; simpl.
  destruct (k b s1) as [[a s2] e2]. reflexivity.
Qed.

Lemma resultOf_mk (a : A) s (e : list Effect) : resultOf (a, s, e) = a.
Proof. reflexivity. Qed.

Lemma stateOf_mk (a : A) s (e : list Effect) : stateOf (a, s, e) = s.
Proof. reflexivity. Qed.

Lemma effectsOf_mk (a : A) s (e : list Effect) : effectsOf (a, s, e) = e.
Proof. reflexivity. Qed.

Lemma run_eta (r : A * State * list Effect) : r = (resultOf r, stateOf r, effectsOf r).
Proof. destruct r as [[a s] e]. reflexivity. Qed.

End Running.

(** ** Checks of the string primitives *)

Example toLowerCase_example : Js.toLowerCase "no SPAMMING here" = "no spamming here".
Proof. reflexivity. Qed.

Example split_example :
  Js.split (Js.trim (Js.slice 1 "!k   @bob  now ")) = ["k"; "@bob"; "now"]
  /\ Js.split " a " = [""; "a"; ""]
  /\ Js.split "" = [""].
Proof. repeat split; reflexivity. Qed.

Example matchEmoteRegex_example :
  Js.matchEmoteRegex "slap  @rajpurohite" = Some ("slap", "rajpurohite")
  /\ Js.matchEmoteRegex "!slap @bob" = None
  /\ Js.matchEmoteRegex "slap @bob " = None
  /\ Js.matchEmoteRegex "slap@bob" = None.
Proof. repeat split; reflexivity. Qed.

Example parseInt_example :
  Js.parseInt " 42abc" = Some 42%Z /\ Js.parseInt "-7" = Some (-7)%Z
  /\ Js.parseInt "0x1f" = Some 31%Z /\ Js.parseInt "abc" = None /\ Js.parseInt "" = None.
Proof. repeat split; reflexivity. Qed.

Example includes_example :
  Js.includes "no spamming here" "spam" = true /\ Js.includes "spa" "spam" = false
  /\ Js.includes "anything" "" = true.
Proof. repeat split; reflexivity. Qed.


Example toDouble_example :
  Js.parseInt "9007199254740993" = Some 9007199254740992%Z
  /\ Js.parseInt "-18014398509481990" = Some (-18014398509481992)%Z
  /\ Js.parseInt "9007199254740991" = Some 9007199254740991%Z
  /\ PrimFloat.of_uint63 (Uint63.of_Z 123456789012345678)
     = PrimFloat.of_uint63 (Uint63.of_Z (Js.toDouble 123456789012345678)).
Proof. repeat split; vm_compute; reflexivity. Qed.

Example divide_example :
  Qeq_bool (Js.divide 900000 60000) 15 = true
  /\ Qeq_bool (Js.divide 20000 60000) (6004799503160661 # 18014398509481984) = true
  /\ Qeq_bool (Js.divide (-1) 60000) (-(4919131752989214 # 2 ^ 68)) = true
  /\ Js.divide 0 60000 = 0%Q.
Proof. repeat split; vm_compute; reflexivity. Qed.
(** ** Moderation ledger: lazy expiry *)

(** *** Rounding to binary64 *)

Lemma nearestEven_near (x : Q) :
  (x - (1 # 2) <= inject_Z (Js.nearestEven x) <= x + (1 # 2))%Q.
Proof.
  unfold Js.nearestEven.
  pose proof (Qfloor_le x) as Hlo. pose proof (Qlt_floor x) as Hhi.
  rewrite inject_Z_plus in Hhi. change (inject_Z 1) with 1%Q in Hhi.
  destruct (Qcompare_spec (x - inject_Z (Qfloor x)) (1 # 2)) as [He|Hl|Hg].
  - destruct (Z.even (Qfloor x)); rewrite ?inject_Z_plus; change (inject_Z 1) with 1%Q; lra.
  - lra.
  - rewrite inject_Z_plus. change (inject_Z 1) with 1%Q. lra.
Qed.

Lemma nearestEven_le_integer (x : Q) (z : Z) :
  (x <= inject_Z z)%Q -> (Js.nearestEven x <= z)%Z.
Proof.
  intros Hx.
  assert (Hfl : (Qfloor x <= z)%Z).
  { rewrite Zle_Qle. eapply Qle_trans; [apply Qfloor_le | exact Hx]. }
  unfold Js.nearestEven.
  assert (Hstep : (inject_Z (Qfloor x) < x)%Q -> (Qfloor x + 1 <= z)%Z).
  { intros Hlt. assert (Qfloor x < z)%Z; [|lia].
    rewrite Zlt_Qlt. eapply Qlt_le_trans; eauto. }
  destruct (Qcompare_spec (x - inject_Z (Qfloor x)) (1 # 2)) as [He|Hl|Hg].
  - destruct (Z.even (Qfloor x)); [exact Hfl | apply Hstep; lra].
  - exact Hfl.
  - apply Hstep; lra.
Qed.

Lemma nearestEven_nonneg (x : Q) : (0 <= x)%Q -> (0 <= Js.nearestEven x)%Z.
Proof.
  intros Hx. pose proof (nearestEven_near x) as [Hlo _].
  assert (H : (-1 < Js.nearestEven x)%Z); [|lia].
  rewrite Zlt_Qlt. change (inject_Z (-1)) with (-1)%Q. lra.
Qed.

Lemma two_nonzero : ~ (2 == 0)%Q.
Proof. discriminate. Qed.

Lemma pow2_pos (k : Z) : (0 < 2 ^ k)%Q.
Proof. apply Qpower_0_lt. reflexivity. Qed.

Lemma pow2_Z (k : Z) : (0 <= k)%Z -> (2 ^ k == inject_Z (2 ^ k))%Q.
Proof. intros Hk. now rewrite Zpower_Qpower. Qed.

Lemma pow2_le (j k : Z) : (j <= k)%Z -> (2 ^ j <= 2 ^ k)%Q.
Proof. intros H. apply Qpower_le_compat_l; [exact H | discriminate]. Qed.

Lemma pow2_inv (k : Z) : (2 ^ k * 2 ^ (- k) == 1)%Q.
Proof.
  rewrite <- Qpower_plus by apply two_nonzero.
  now replace (k + - k)%Z with 0%Z by lia.
Qed.

(** the exponent is not above the quotient *)
Lemma exponentOf_below (p b : Z) :
  (0 < p)%Z -> (0 < b)%Z -> (2 ^ Js.exponentOf p b * inject_Z b <= inject_Z p)%Q.
Proof.
  intros Hp Hb. unfold Js.exponentOf.
  destruct (Qle_bool _ _) eqn:E; [now apply Qle_bool_iff in E|].
  pose proof (Z.log2_spec p Hp) as [Hp1 _].
  pose proof (Z.log2_spec b Hb) as [_ Hb2].
  pose proof (Z.log2_nonneg p). pose proof (Z.log2_nonneg b).
  set (lp := Z.log2 p) in *. set (lb := Z.log2 b) in *.
  assert (H1 : (2 ^ (lp - lb - 1) * 2 ^ (lb + 1) == 2 ^ lp)%Q).
  { rewrite <- Qpower_plus by apply two_nonzero. now replace (lp - lb - 1 + (lb + 1))%Z with lp by lia. }
  assert (H2 : (inject_Z b <= 2 ^ (lb + 1))%Q).
  { rewrite pow2_Z by lia. rewrite <- Zle_Qle. replace (lb + 1)%Z with (Z.succ lb) by lia. lia. }
  assert (H3 : (2 ^ lp <= inject_Z p)%Q).
  { rewrite pow2_Z by lia. now rewrite <- Zle_Qle. }
  pose proof (pow2_pos (lp - lb - 1)).
  eapply Qle_trans; [|exact H3]. rewrite <- H1.
  apply Qmult_le_l; assumption.
Qed.

Lemma exponentOf_le (p b : Z) : (Js.exponentOf p b <= Z.log2 p - Z.log2 b)%Z.
Proof. unfold Js.exponentOf. destruct (Qle_bool _ _); lia. Qed.

Lemma log2_minutes (n k : Z) :
  (0 < n)%Z -> (k <= 1000000000)%Z -> (n <= 60000 * k)%Z -> (Z.log2 n < 46)%Z.
Proof.
  intros Hn Hk Hle. apply Z.log2_lt_pow2; [exact Hn|].
  change (2 ^ 46)%Z with 70368744177664%Z. lia.
Qed.

(** against a whole number of minutes the rounded quotient compares as the exact one *)
Lemma divide_le_whole (n k : Z) :
  (0 <= k <= 1000000000)%Z -> (n <= 60000 * k)%Z -> (Js.divide n 60000 <= inject_Z k)%Q.
Proof.
  intros Hk Hle. unfold Js.divide.
  assert (Hk0 : (0 <= inject_Z k)%Q) by (rewrite <- (Zle_Qle 0); lia).
  destruct (Z.eqb_spec n 0) as [->|Hn0]; [exact Hk0|].
  cbv zeta.
  set (e := Js.exponentOf (Z.abs n) 60000).
  set (x := (inject_Z (Z.abs n) / inject_Z 60000)%Q).
  pose proof (pow2_pos (e - 52)) as Hulp.
  assert (Hx : (0 <= x)%Q).
  { unfold x. apply Qle_shift_div_l; [reflexivity|].
    rewrite Qmult_0_l. rewrite <- (Zle_Qle 0). lia. }
  assert (Hxu : (0 <= x / 2 ^ (e - 52))%Q).
  { apply Qle_shift_div_l; [exact Hulp|]. now rewrite Qmult_0_l. }
  pose proof (nearestEven_nonneg _ Hxu) as Hm.
  destruct (Z.lt_trichotomy n 0) as [Hneg|[?|Hpos]]; [|lia|].
  - rewrite (Z.sgn_neg n Hneg).
    assert (H : (inject_Z (-1 * Js.nearestEven (x / 2 ^ (e - 52))) <= 0)%Q)
      by (rewrite <- (Zle_Qle _ 0); lia).
    eapply Qle_trans; [|exact Hk0].
    rewrite <- (Qmult_0_l (2 ^ (e - 52))).
    apply Qmult_le_compat_r; [exact H | now apply Qlt_le_weak].
  - rewrite (Z.sgn_pos n Hpos), Z.mul_1_l.
    assert (He : (e <= 52)%Z).
    { pose proof (exponentOf_le (Z.abs n) 60000) as H. fold e in H.
      pose proof (log2_minutes n k Hpos (proj2 Hk) Hle).
      rewrite (Z.abs_eq n) in H by lia.
      change (Z.log2 60000) with 15%Z in H. lia. }
    assert (Hinv : (/ 2 ^ (e - 52) == inject_Z (2 ^ (52 - e)))%Q).
    { rewrite <- pow2_Z by lia. rewrite <- Qpower_opp.
      now replace (- (e - 52))%Z with (52 - e)%Z by lia. }
    assert (Hxk : (x <= inject_Z k)%Q).
    { unfold x. apply Qle_shift_div_r; [reflexivity|].
      rewrite <- inject_Z_mult, <- Zle_Qle. lia. }
    assert (Hscaled : (x / 2 ^ (e - 52) <= inject_Z (k * 2 ^ (52 - e)))%Q).
    { unfold Qdiv at 1. rewrite Hinv, inject_Z_mult.
      apply Qmult_le_compat_r; [exact Hxk|].
      rewrite <- (Zle_Qle 0). apply Z.pow_nonneg. lia. }
    apply nearestEven_le_integer in Hscaled.
    rewrite Zle_Qle, inject_Z_mult, <- Hinv in Hscaled.
    apply (Qmult_le_compat_r _ _ (2 ^ (e - 52))) in Hscaled; [|now apply Qlt_le_weak].
    eapply Qle_trans; [exact Hscaled|].
    rewrite <- Qmult_assoc, (Qmult_comm (/ _)), Qmult_inv_r, Qmult_1_r; [apply Qle_refl|].
    intros H0. rewrite H0 in Hulp. discriminate.
Qed.

Lemma divide_gt_whole (n k : Z) :
  (0 < k <= 1000000000)%Z -> (60000 * k < n)%Z -> (inject_Z k < Js.divide n 60000)%Q.
Proof.
  intros Hk Hlt. unfold Js.divide.
  destruct (Z.eqb_spec n 0) as [->|Hn0]; [lia|].
  cbv zeta. rewrite (Z.abs_eq n), (Z.sgn_pos n), Z.mul_1_l by lia.
  set (e := Js.exponentOf n 60000).
  set (x := (inject_Z n / inject_Z 60000)%Q).
  set (ulp := (2 ^ (e - 52))%Q).
  pose proof (pow2_pos (e - 52)) as Hulp. fold ulp in Hulp.
  pose proof (nearestEven_near (x / ulp)) as [Hlo _].
  set (m := Js.nearestEven (x / ulp)) in *.
  (* the quotient is beyond the deadline by a sixty-thousandth at least *)
  assert (Hx : (inject_Z k + (1 # 60000) <= x)%Q).
  { unfold x. apply Qle_shift_div_l; [reflexivity|].
    assert (H : (inject_Z (60000 * k + 1) <= inject_Z n)%Q) by (rewrite <- Zle_Qle; lia).
    rewrite inject_Z_plus, inject_Z_mult in H.
    change (inject_Z 60000) with 60000%Q in *. change (inject_Z 1) with 1%Q in H.
    lra. }
  (* one unit in the last place is at most 2^-52 of the quotient *)
  assert (Hu : (ulp <= x * (1 # 4503599627370496))%Q).
  { assert (H : (2 ^ e <= x)%Q).
    { unfold x. apply Qle_shift_div_l; [reflexivity|].
      apply exponentOf_below; lia. }
    assert (Hs : (ulp == 2 ^ e * (1 # 4503599627370496))%Q).
    { unfold ulp. replace (e - 52)%Z with (e + -52)%Z by lia.
      rewrite Qpower_plus by apply two_nonzero. reflexivity. }
    rewrite Hs. apply Qmult_le_compat_r; [exact H | discriminate]. }
  assert (Hval : (x - ulp * (1 # 2) <= inject_Z m * ulp)%Q).
  { apply (Qmult_le_compat_r _ _ ulp) in Hlo; [|now apply Qlt_le_weak].
    assert (Hc : ((x / ulp - (1 # 2)) * ulp == x - ulp * (1 # 2))%Q).
    { field. intros H0. rewrite H0 in Hulp. discriminate. }
    now rewrite Hc in Hlo. }
  assert (Hkq : (inject_Z k <= 1000000000)%Q).
  { change 1000000000%Q with (inject_Z 1000000000). rewrite <- Zle_Qle. lia. }
  lra.
Qed.

(** a number is rounded towards no number of smaller magnitude than [2^53] *)
Lemma toDouble_large (z : Z) :
  (2 ^ 53 <= Z.abs z)%Z ->
  exists a : Z, (2 ^ 53 <= a)%Z /\ Js.toDouble z = (Z.sgn z * a)%Z.
Proof.
  intros Hz. unfold Js.toDouble.
  destruct (Z.ltb_spec (Z.abs z) (2 ^ 53)) as [?|_]; [lia|]. cbv zeta.
  set (a := Z.abs z) in *.
  assert (Ha : (0 < a)%Z) by (change (2 ^ 53)%Z with 9007199254740992%Z in Hz; lia).
  pose proof (Z.log2_spec a Ha) as [Hlo Hhi].
  assert (Hl : (53 <= Z.log2 a)%Z) by (apply Z.log2_le_pow2; [exact Ha | exact Hz]).
  set (e := (Z.log2 a - 52)%Z) in *.
  assert (He : (1 <= e)%Z) by lia.
  assert (Hsplit : (2 ^ Z.log2 a = 2 ^ 52 * 2 ^ e)%Z).
  { rewrite <- Z.pow_add_r by lia. f_equal. lia. }
  assert (Hpe : (0 < 2 ^ e)%Z) by (apply Z.pow_pos_nonneg; lia).
  set (q := Z.shiftr a e).
  assert (Hq : (2 ^ 52 <= q)%Z).
  { unfold q. rewrite Z.shiftr_div_pow2 by lia.
    apply Z.div_le_lower_bound; [exact Hpe|]. rewrite Z.mul_comm. lia. }
  eexists. split; [|reflexivity].
  rewrite Z.shiftl_mul_pow2 by lia.
  change (2 ^ 53)%Z with (2 ^ 52 * 2 ^ 1)%Z.
  assert (H1 : (2 ^ 1 <= 2 ^ e)%Z) by (apply Z.pow_le_mono_r; lia).
  assert (Hq' : (2 ^ 52 <= (if (Z.shiftl 1 (e - 1) <? a - Z.shiftl q e)%Z
                              || ((Z.shiftl 1 (e - 1) =? a - Z.shiftl q e)%Z && Z.odd q)
                            then q + 1 else q))%Z)
    by (destruct (_ || _); lia).
  apply Z.mul_le_mono_nonneg; lia.
Qed.

Lemma toDouble_keeps_order (z c : Z) :
  (0 <= c < 2 ^ 53)%Z ->
  ((z <= c)%Z -> (Js.toDouble z <= c)%Z) /\ ((c < z)%Z -> (c < Js.toDouble z)%Z).
Proof.
  intros Hc.
  destruct (Z.lt_ge_cases (Z.abs z) (2 ^ 53)) as [Hs|Hl].
  - unfold Js.toDouble. apply Z.ltb_lt in Hs. rewrite Hs. tauto.
  - destruct (toDouble_large z Hl) as (a & Ha & ->).
    destruct (Z.lt_trichotomy z 0) as [Hn|[->|Hp]].
    + rewrite (Z.sgn_neg z Hn). lia.
    + simpl in Hl. change (2 ^ 53)%Z with 9007199254740992%Z in Hl. lia.
    + rewrite (Z.sgn_pos z Hp). lia.
Qed.

Section Ledger.

Implicit Types (s : State) (u : UserId) (r : BanInfo) (d : Q).

Lemma gt_true_iff (a b : Q) : gt a b = true <-> (b < a)%Q.
Proof.
  unfold gt. rewrite negb_true_iff, <- not_true_iff_false, Qle_bool_iff.
  split; [apply Qnot_le_lt | apply Qlt_not_le].
Qed.

Lemma gt_false_iff (a b : Q) : gt a b = false <-> (a <= b)%Q.
Proof. unfold gt. rewrite negb_false_iff. apply Qle_bool_iff. Qed.

(** a whole number of minutes is not zero *)
Lemma wholeMinutes_nonzero d : wholeMinutes d -> ~ (d == 0)%Q.
Proof.
  intros (k & Hd & Hk) H0. rewrite Hd in H0.
  unfold Qeq, inject_Z in H0. simpl in H0. lia.
Qed.

Lemma elapsed_gt_deadline r d now :
  wholeMinutes d -> deadlinePassed r d now ->
  (d < elapsedMinutes now (getTime (timestamp r)))%Q.
Proof.
  intros (k & Hd & Hk) Hpast. unfold deadlinePassed in Hpast.
  rewrite Hd in *. unfold elapsedMinutes.
  change 60000%Q with (inject_Z 60000) in Hpast.
  rewrite <- inject_Z_mult, <- inject_Z_plus, <- Zlt_Qlt in Hpast.
  apply divide_gt_whole; [exact Hk|].
  apply toDouble_keeps_order; lia.
Qed.

Lemma elapsed_le_deadline r d now :
  wholeMinutes d -> deadlineNotPassed r d now ->
  (elapsedMinutes now (getTime (timestamp r)) <= d)%Q.
Proof.
  intros (k & Hd & Hk) Hlive. unfold deadlineNotPassed in Hlive.
  rewrite Hd in *. unfold elapsedMinutes.
  change 60000%Q with (inject_Z 60000) in Hlive.
  rewrite <- inject_Z_mult, <- inject_Z_plus, <- Zle_Qle in Hlive.
  apply divide_le_whole; [lia|].
  apply toDouble_keeps_order; lia.
Qed.

Lemma truthy_Some d : truthy (Some d) = true <-> ~ (d == 0)%Q.
Proof.
  simpl. rewrite negb_true_iff, <- not_true_iff_false, Qeq_bool_iff. reflexivity.
Qed.

(** unfold one ledger query at a record that is present *)
Ltac ledger_at Hr Hd d :=
  unfold isBanned, isMuted, mbind, M_bind, getState;
  rewrite Hr; cbn beta iota; rewrite Hd;
  change (toNumber (Some d)) with d.

Lemma isBanned_expired now u s r d :
  bannedUsers s !! u = Some r -> duration_minutes r = Some d ->
  wholeMinutes d -> deadlinePassed r d now ->
  isBanned now u s =
    (false, setBanned (delete u (bannedUsers s)) s,
     [SaveBannedCommands (delete u (bannedUsers s))]).
Proof.
  intros Hr Hd Hwhole Hpast. ledger_at Hr Hd d.
  rewrite (proj2 (truthy_Some d) (wholeMinutes_nonzero d Hwhole)).
  apply (elapsed_gt_deadline _ _ _ Hwhole), gt_true_iff in Hpast.
  rewrite Hpast. reflexivity.
Qed.

Lemma isBanned_live now u s r d :
  bannedUsers s !! u = Some r -> duration_minutes r = Some d ->
  wholeMinutes d -> deadlineNotPassed r d now ->
  isBanned now u s = (true, s, []).
Proof.
  intros Hr Hd Hwhole Hlive. ledger_at Hr Hd d.
  apply (elapsed_le_deadline _ _ _ Hwhole), gt_false_iff in Hlive.
  rewrite Hlive, andb_false_r. reflexivity.
Qed.

Lemma isMuted_expired now u s r d :
  mutedUsers s !! u = Some r -> duration_minutes r = Some d ->
  wholeMinutes d -> deadlinePassed r d now ->
  isMuted now u s =
    (false, setMuted (delete u (mutedUsers s)) s,
     [SaveMutedMessages (delete u (mutedUsers s))]).
Proof.
  intros Hr Hd Hwhole Hpast. ledger_at Hr Hd d.
  apply (elapsed_gt_deadline _ _ _ Hwhole), gt_true_iff in Hpast.
  rewrite Hpast. reflexivity.
Qed.

Lemma isMuted_live now u s r d :
  mutedUsers s !! u = Some r -> duration_minutes r = Some d ->
  wholeMinutes d -> deadlineNotPassed r d now ->
  isMuted now u s = (true, s, []).
Proof.
  intros Hr Hd Hwhole Hlive. ledger_at Hr Hd d.
  apply (elapsed_le_deadline _ _ _ Hwhole), gt_false_iff in Hlive.
  rewrite Hlive. reflexivity.
Qed.

(** a record without a duration is kept whatever the clock says *)
Lemma isBanned_no_duration now u s r :
  bannedUsers s !! u = Some r -> duration_minutes r = None ->
  isBanned now u s = (true, s, []).
Proof.
  intros Hr Hd. unfold isBanned, mbind, M_bind, getState.
  rewrite Hr; cbn beta iota. rewrite Hd. reflexivity.
Qed.

(** C1, as amended.  A ban or mute record whose duration [d] is a whole
    number of minutes expires once the clock is strictly past
    [timestamp + d] minutes: the query then answers [false], deletes the
    record and rewrites the ledger with the record gone.  Up to and
    including that instant the query answers [true] and changes nothing. *)
Theorem lazy_expiry_after_deadline now u s r d :
  duration_minutes r = Some d ->
  wholeMinutes d ->
  (bannedUsers s !! u = Some r -> deadlinePassed r d now ->
     isBanned now u s =
       (false, setBanned (delete u (bannedUsers s)) s,
        [SaveBannedCommands (delete u (bannedUsers s))]))
  /\ (bannedUsers s !! u = Some r -> deadlineNotPassed r d now ->
      isBanned now u s = (true, s, []))
  /\ (mutedUsers s !! u = Some r -> deadlinePassed r d now ->
      isMuted now u s =
        (false, setMuted (delete u (mutedUsers s)) s,
         [SaveMutedMessages (delete u (mutedUsers s))]))
  /\ (mutedUsers s !! u = Some r -> deadlineNotPassed r d now ->
      isMuted now u s = (true, s, [])).
Proof.
  intros Hd Hwhole. repeat split; intros.
  - eapply isBanned_expired; eauto.
  - eapply isBanned_live; eauto.
  - eapply isMuted_expired; eauto.
  - eapply isMuted_live; eauto.
Qed.

Lemma lazy_expiry_after_deadline_witness :
  isBanned (deadline + 1) "u1" ledgerFifteen =
    (false, setBanned (delete "u1" (bannedUsers ledgerFifteen)) ledgerFifteen,
     [SaveBannedCommands (delete "u1" (bannedUsers ledgerFifteen))])
  /\ isMuted deadline "u1" ledgerFifteen = (true, ledgerFifteen, []).
Proof.
  assert (Hwhole : wholeMinutes 15) by (exists 15%Z; split; [reflexivity | lia]).
  destruct (lazy_expiry_after_deadline (deadline + 1) "u1" ledgerFifteen fifteenMinutes 15
              eq_refl Hwhole) as (Hban & _ & _ & _).
  destruct (lazy_expiry_after_deadline deadline "u1" ledgerFifteen fifteenMinutes 15 eq_refl
              Hwhole) as (_ & _ & _ & Hmute).
  split.
  - apply Hban; reflexivity.
  - apply Hmute; [reflexivity | intros H; discriminate H].
Defined.

(** [Js.divide] and [Js.toDouble] against the floats of the machine:
    the quotients by 60000 of the integers around zero, of integers
    spread over the differences of two instants, and of the integers just
    below [2^53]; the differences of instants at both ends of the range
    of [Date]. *)
Example divide_is_the_binary64_quotient :
  forallb sameQuotient (upFrom (Z.to_nat 20000) (-10000) 1) = true
  /\ forallb sameQuotient (upFrom (Z.to_nat 20000) 899990 432000000001) = true
  /\ forallb sameQuotient (upFrom (Z.to_nat 20000) (2 ^ 53 - 20001) 1) = true
  /\ forallb sameDifference
       [(8640000000000000, -8639999999999999); (8640000000000000, -367);
        (8639999999999999, -8639999999999998); (-8640000000000000, 8639999999999997);
        (1700000900000, 1700000000000); (0, 8640000000000000)]%Z = true.
Proof.
  split; [vm_compute; reflexivity|].
  split; [vm_compute; reflexivity|].
  split; vm_compute; reflexivity.
Qed.

(** With a duration that is not a whole number of minutes the record can
    outlive its deadline.  The number 0.3333333333333333 is
    [6004799503160661 / 2^54], just below a third.  Twenty seconds after
    a record of that duration was issued its deadline has passed, but the
    rounded quotient is equal to the duration and the record is kept, for
    one more millisecond. *)
Example fractional_duration_outlives_deadline :
  (valueOf 0.3333333333333333 == 6004799503160661 # 18014398509481984)%Q
  /\ duration_minutes twentySeconds = Some (6004799503160661 # 18014398509481984)
  /\ deadlinePassed twentySeconds (6004799503160661 # 18014398509481984) (issuedAt + 20000)
  /\ isBanned (issuedAt + 20000) "u1" ledgerTwentySeconds = (true, ledgerTwentySeconds, [])
  /\ resultOf (isBanned (issuedAt + 20001) "u1" ledgerTwentySeconds) = false.
Proof.
  split; [vm_compute; reflexivity|].
  split; [reflexivity|].
  split; [vm_compute; reflexivity|].
  split; reflexivity.
Qed.

(** C1 as stated fails at the deadline itself: exactly fifteen minutes
    after a fifteen-minute ban and mute were issued, both queries still
    answer [true] and keep the record. *)
Lemma expiry_at_deadline_keeps_record :
  bannedUsers ledgerFifteen !! "u1" = Some fifteenMinutes
  /\ mutedUsers ledgerFifteen !! "u1" = Some fifteenMinutes
  /\ duration_minutes fifteenMinutes = Some 15%Q
  /\ deadlineReached fifteenMinutes 15 deadline
  /\ isBanned deadline "u1" ledgerFifteen = (true, ledgerFifteen, [])
  /\ isMuted deadline "u1" ledgerFifteen = (true, ledgerFifteen, []).
Proof.
  repeat split; try reflexivity. intros H; discriminate H.
Qed.

(** C7.  A ban record without a duration is permanent: at every instant
    the query answers [true], and neither the ledger nor the store is
    touched. *)
Theorem permanent_ban_never_expires now u s r :
  bannedUsers s !! u = Some r -> duration_minutes r = None ->
  isBanned now u s = (true, s, []).
Proof. apply isBanned_no_duration. Qed.

Lemma permanent_ban_never_expires_witness :
  isBanned 4102444800000 "u2" ledgerPermanent = (true, ledgerPermanent, []).
Proof.
  apply (permanent_ban_never_expires 4102444800000 "u2" ledgerPermanent permanent);
    reflexivity.
Defined.

(** however often and whenever the query is repeated, the permanent
    record stays *)
Lemma permanent_ban_survives_checks (times : list Z) u s r :
  bannedUsers s !! u = Some r -> duration_minutes r = None ->
  fold_left (fun st t => stateOf (isBanned t u st)) times s = s.
Proof.
  intros Hr Hd. induction times as [|t ts IH]; [reflexivity|].
  simpl. rewrite (isBanned_no_duration t u s r Hr Hd). exact IH.
Qed.

End Ledger.
(** ** Bad words *)

Section BadWords.

Implicit Types (s : State) (w t : string).

Lemma prefix_append w suf : String.prefix w (w +:+ suf) = true.
Proof.
  induction w as [|c w IH]; simpl.
  - destruct suf; reflexivity.
  - destruct (ascii_dec c c) as [_|Hne]; [exact IH | contradiction].
Qed.

Lemma includes_append pre w suf : Js.includes (pre +:+ w +:+ suf) w = true.
Proof.
  induction pre as [|c pre IH].
  - change ("" +:+ w +:+ suf) with (w +:+ suf).
    pose proof (prefix_append w suf) as Hp.
    destruct (w +:+ suf); cbn [Js.includes]; now rewrite Hp.
  - change (String c pre +:+ w +:+ suf) with (String c (pre +:+ w +:+ suf)).
    cbn [Js.includes]. rewrite IH. apply orb_true_r.
Qed.

Lemma toLowerCase_append a b :
  Js.toLowerCase (a +:+ b) = Js.toLowerCase a +:+ Js.toLowerCase b.
Proof. induction a as [|c a IH]; simpl; [reflexivity | now rewrite IH]. Qed.

Lemma lowerChar_idem c : Js.lowerChar (Js.lowerChar c) = Js.lowerChar c.
Proof.
  destruct c as [[] [] [] [] [] [] [] []]; reflexivity.
Qed.

Lemma toLowerCase_idem w : Js.toLowerCase (Js.toLowerCase w) = Js.toLowerCase w.
Proof. induction w as [|c w IH]; simpl; [reflexivity | now rewrite lowerChar_idem, IH]. Qed.

Lemma prefix_iff w t : String.prefix w t = true <-> exists suf, t = w +:+ suf.
Proof.
  revert t. induction w as [|c w IH]; intros t.
  - split; [intros _; now exists t | intros _; destruct t; reflexivity].
  - destruct t as [|d t]; simpl.
    + split; [discriminate | intros [suf H]; discriminate H].
    + destruct (ascii_dec c d) as [<- | Hne].
      * rewrite IH. split; intros [suf H]; exists suf.
        -- now rewrite H.
        -- now injection H.
      * split; [discriminate | intros [suf H]; injection H; intros; congruence].
Qed.

Lemma includes_iff t w :
  Js.includes t w = true <-> exists pre suf, t = pre +:+ w +:+ suf.
Proof.
  split.
  - induction t as [|c t IH]; cbn [Js.includes]; intros H.
    + rewrite orb_false_r in H. apply prefix_iff in H as [suf H]. now exists "", suf.
    + apply orb_true_iff in H as [H | H].
      * apply prefix_iff in H as [suf H]. now exists "", suf.
      * destruct (IH H) as (pre & suf & ->). now exists (String c pre), suf.
  - intros (pre & suf & ->). apply includes_append.
Qed.

Lemma toLowerCase_length t : String.length (Js.toLowerCase t) = String.length t.
Proof. induction t as [|c t IH]; simpl; [reflexivity | now rewrite IH]. Qed.

Lemma append_inj_length (a a' b b' : string) :
  String.length a = String.length a' -> a +:+ b = a' +:+ b' -> a = a' /\ b = b'.
Proof.
  revert a'. induction a as [|c a IH]; intros [|c' a'] Hlen H; try discriminate Hlen.
  - now split.
  - injection H as -> H. injection Hlen as Hlen. destruct (IH a' Hlen H) as [-> ->]. now split.
Qed.

Lemma length_append (a b : string) :
  String.length (a +:+ b) = (String.length a + String.length b)%nat.
Proof. induction a as [|c a IH]; simpl; [reflexivity | now rewrite IH]. Qed.

(** a piece of a lower-case text is lower-case *)
Lemma piece_of_lowercase t pre word suf :
  Js.toLowerCase t = pre +:+ word +:+ suf -> Js.toLowerCase word = word.
Proof.
  intros H. pose proof (toLowerCase_idem t) as Hid. rewrite H in Hid.
  rewrite !toLowerCase_append in Hid.
  apply append_inj_length in Hid as [_ Hid]; [|apply toLowerCase_length].
  apply append_inj_length in Hid as [Hid _]; [exact Hid | apply toLowerCase_length].
Qed.

(** a lower-cased text is cut where the text is cut *)
Lemma toLowerCase_cut t a b :
  Js.toLowerCase t = a +:+ b ->
  exists ta tb, t = ta +:+ tb /\ Js.toLowerCase ta = a /\ Js.toLowerCase tb = b.
Proof.
  revert t. induction a as [|c a IH]; intros t H.
  - exists "", t. now repeat split.
  - destruct t as [|d t]; [discriminate H|]. cbn [Js.toLowerCase] in H.
    change (String c a +:+ b) with (String c (a +:+ b)) in H. injection H as Hc H.
    destruct (IH t H) as (ta & tb & -> & Ha & Hb).
    exists (String d ta), tb. repeat split; [|exact Hb]. cbn [Js.toLowerCase]. now rewrite Hc, Ha.
Qed.

(** a text whose lower-case form includes the lower-case form of a word
    contains the word, ignoring case *)
Lemma includes_containsIgnoringCase t w :
  Js.includes (Js.toLowerCase t) (Js.toLowerCase w) = true <-> containsIgnoringCase t w.
Proof.
  split.
  - intros H. apply includes_iff in H as (pre & suf & H).
    apply toLowerCase_cut in H as (tp & rest & -> & _ & H).
    apply toLowerCase_cut in H as (mid & ts & -> & Hmid & _).
    now exists tp, mid, ts.
  - intros (pre & mid & suf & -> & Hmid).
    rewrite !toLowerCase_append, Hmid. apply includes_append.
Qed.

Lemma arrIncludes_In (x : string) (arr : list string) :
  arrIncludes x arr = true <-> In x arr.
Proof.
  unfold arrIncludes, Js.arrIncludes. rewrite existsb_exists. split.
  - intros (y & Hin & Heq). apply String.eqb_eq in Heq. now subst.
  - intros Hin. exists x. split; [exact Hin | apply String.eqb_refl].
Qed.

Lemma arrIncludes_false (x : string) (arr : list string) :
  arrIncludes x arr = false <-> ~ In x arr.
Proof. rewrite <- arrIncludes_In. destruct (arrIncludes x arr); intuition congruence. Qed.

(** a text that contains a stored word, ignoring case, is flagged *)
Lemma containsBadWord_of_member s t w :
  In (Js.toLowerCase w) (badWords s) -> containsIgnoringCase t w ->
  containsBadWord s t = true.
Proof.
  intros Hin (pre & mid & suf & -> & Hmid).
  unfold containsBadWord. apply existsb_exists.
  exists (Js.toLowerCase w). split; [exact Hin|].
  rewrite !toLowerCase_append, Hmid. apply includes_append.
Qed.

Lemma addBadWord_member s w :
  In (Js.toLowerCase w) (badWords (stateOf (addBadWord w s))).
Proof.
  unfold addBadWord, mbind, M_bind, getState, stateOf.
  destruct (arrIncludes (Js.toLowerCase w) (badWords s)) eqn:E; simpl.
  - now apply arrIncludes_In.
  - apply in_or_app. right. now left.
Qed.

Lemma addBadWord_duplicate s w :
  In (Js.toLowerCase w) (badWords s) -> addBadWord w s = (false, s, []).
Proof.
  intros Hin. apply arrIncludes_In in Hin.
  unfold addBadWord, mbind, M_bind, getState. now rewrite Hin.
Qed.

(** the set stays lower-case under both updates *)
Lemma addBadWord_allLowerCase s w :
  allLowerCase (badWords s) -> allLowerCase (badWords (stateOf (addBadWord w s))).
Proof.
  intros Hall. unfold addBadWord, mbind, M_bind, getState, stateOf.
  destruct (arrIncludes (Js.toLowerCase w) (badWords s)); simpl; [exact Hall|].
  apply Forall_app. split; [exact Hall|].
  constructor; [apply toLowerCase_idem | constructor].
Qed.

Lemma removeBadWord_allLowerCase s w :
  allLowerCase (badWords s) -> allLowerCase (badWords (stateOf (removeBadWord w s))).
Proof.
  intros Hall. unfold removeBadWord, mbind, M_bind, getState, stateOf.
  set (ws := List.filter _ _).
  assert (Hws : allLowerCase ws).
  { unfold allLowerCase in *. rewrite List.Forall_forall in *. intros x Hx.
    apply List.filter_In in Hx. now apply Hall. }
  destruct (length ws <? length (badWords s))%nat; exact Hws.
Qed.

(** what [addBadWord] does when the word is new *)
Lemma addBadWord_new s w :
  ~ In (Js.toLowerCase w) (badWords s) ->
  addBadWord w s
  = (true, setBadWords (badWords s ++ [Js.toLowerCase w]) s,
     [SaveBadWords (badWords s ++ [Js.toLowerCase w])]).
Proof.
  intros Hno. apply arrIncludes_false in Hno.
  unfold addBadWord, mbind, M_bind, getState. now rewrite Hno.
Qed.

(** C9, as amended.  On texts of ASCII characters, matching is
    case-insensitive substring containment.  Once [addBadWord w] has
    answered [true], a text is flagged exactly when it was flagged before
    or contains [w] as a substring, ignoring case.  On a set of lower-case
    words the answer is [false], with nothing changed, when [w] is already
    present ignoring case, and [true] when it is not. *)
Theorem bad_word_case_insensitive s w :
  isAscii w = true ->
  (resultOf (addBadWord w s) = true ->
   forall t, isAscii t = true ->
             (containsBadWord (stateOf (addBadWord w s)) t = true
              <-> containsBadWord s t = true \/ containsIgnoringCase t w))
  /\ (allLowerCase (badWords s) -> presentIgnoringCase w (badWords s) ->
      addBadWord w s = (false, s, []))
  /\ (~ presentIgnoringCase w (badWords s) -> resultOf (addBadWord w s) = true).
Proof.
  intros _. split; [|split].
  - intros Hadded t _.
    assert (Hno : ~ In (Js.toLowerCase w) (badWords s)).
    { intros Hin. rewrite (addBadWord_duplicate s w Hin) in Hadded. discriminate Hadded. }
    rewrite (addBadWord_new s w Hno), stateOf_mk.
    unfold containsBadWord. cbn [badWords setBadWords].
    rewrite existsb_app. cbn [existsb]. rewrite orb_false_r, orb_true_iff.
    now rewrite includes_containsIgnoringCase.
  - intros Hall (w' & Hin & Heq). apply addBadWord_duplicate.
    unfold allLowerCase in Hall. rewrite List.Forall_forall in Hall.
    rewrite <- Heq, (Hall w' Hin). exact Hin.
  - intros Hno. rewrite addBadWord_new; [reflexivity|].
    intros Hin. apply Hno. exists (Js.toLowerCase w). split; [exact Hin | apply toLowerCase_idem].
Qed.

Lemma bad_word_case_insensitive_witness :
  containsBadWord (stateOf (addBadWord "Spam" emptyState)) "no SPAMMING here" = true
  /\ addBadWord "SPAM" (stateOf (addBadWord "Spam" emptyState))
     = (false, stateOf (addBadWord "Spam" emptyState), []).
Proof.
  split.
  - apply (proj1 (bad_word_case_insensitive emptyState "Spam" eq_refl) eq_refl
             "no SPAMMING here" eq_refl).
    right. exists "no ", "SPAM", "MING here". split; reflexivity.
  - refine (proj1 (proj2 (bad_word_case_insensitive
                            (stateOf (addBadWord "Spam" emptyState)) "SPAM" eq_refl)) _ _).
    + repeat constructor.
    + exists "spam". split; [now left | reflexivity].
Defined.

(** On texts of ASCII characters the functions of [Wide] are those of the
    development. *)
Lemma widen_unit (c : ascii) :
  (nat_of_ascii c <? 128)%nat = true ->
  (N_of_ascii c =? Wide.capitalSigma)%N = false
  /\ Wide.lowerUnit (N_of_ascii c) = N_of_ascii (Js.lowerChar c).
Proof. destruct c as [[] [] [] [] [] [] [] []]; intros H; try discriminate H; split; reflexivity. Qed.

Lemma widen_lowerFrom (before : Wide.wstring) t :
  isAscii t = true ->
  Wide.lowerFrom before (Wide.widen t) = Wide.widen (Js.toLowerCase t).
Proof.
  revert before. induction t as [|c t IH]; intros before Ht; [reflexivity|].
  cbn [isAscii] in Ht. apply andb_true_iff in Ht as [Hc Ht].
  cbn [Wide.widen Wide.lowerFrom Js.toLowerCase].
  destruct (widen_unit c Hc) as [-> ->]. now rewrite IH.
Qed.

Lemma widen_toLowerCase t :
  isAscii t = true -> Wide.toLowerCase (Wide.widen t) = Wide.widen (Js.toLowerCase t).
Proof. apply widen_lowerFrom. Qed.

Lemma widen_startsWith t w :
  Wide.startsWith (Wide.widen t) (Wide.widen w) = String.prefix w t.
Proof.
  revert t. induction w as [|c w IH]; intros t; [destruct t; reflexivity|].
  destruct t as [|d t]; [reflexivity|]. cbn [Wide.widen Wide.startsWith String.prefix].
  destruct (ascii_dec c d) as [<- | Hne].
  - rewrite N.eqb_refl. apply IH.
  - replace (N_of_ascii c =? N_of_ascii d)%N with false; [reflexivity|].
    symmetry. apply N.eqb_neq. intros H. apply Hne.
    rewrite <- (ascii_N_embedding c), <- (ascii_N_embedding d). now rewrite H.
Qed.

Lemma widen_includes t w :
  Wide.includes (Wide.widen t) (Wide.widen w) = Js.includes t w.
Proof.
  induction t as [|c t IH].
  - pose proof (widen_startsWith "" w) as H. cbn [Wide.widen] in H.
    cbn [Wide.widen Wide.includes Js.includes]. now rewrite H.
  - change (Wide.includes (Wide.widen (String c t)) (Wide.widen w))
      with (Wide.startsWith (Wide.widen (String c t)) (Wide.widen w)
            || Wide.includes (Wide.widen t) (Wide.widen w)).
    rewrite widen_startsWith, IH. reflexivity.
Qed.

Lemma widen_containsBadWord s t :
  isAscii t = true ->
  Wide.containsBadWord (map Wide.widen (badWords s)) (Wide.widen t) = containsBadWord s t.
Proof.
  intros Ht. unfold Wide.containsBadWord, containsBadWord. rewrite widen_toLowerCase by exact Ht.
  induction (badWords s) as [|x l IH]; [reflexivity|].
  cbn [map existsb]. now rewrite widen_includes, IH.
Qed.

(** C9 as stated fails beyond ASCII.  The word [A] followed by the
    capital sigma is stored with the final sigma, which ends a word; in a
    text where the letter [B] follows, the same sigma becomes the small
    sigma, and the text, which contains the word as it was given, is not
    flagged. *)
Lemma final_sigma_is_not_flagged :
  Wide.addBadWord [65; Wide.capitalSigma]%N []
  = (true, [[97; Wide.finalSigma]%N])
  /\ [65; Wide.capitalSigma; 66]%N = ([65; Wide.capitalSigma] ++ [66])%N
  /\ Wide.toLowerCase [65; Wide.capitalSigma; 66]%N = [97; Wide.smallSigma; 98]%N
  /\ Wide.containsBadWord [[97; Wide.finalSigma]%N] [65; Wide.capitalSigma; 66]%N = false.
Proof. repeat split. Qed.

Example spam_flagged :
  containsBadWord (stateOf (addBadWord "Spam" emptyState)) "no SPAMMING here" = true
  /\ containsBadWord (stateOf (addBadWord "Spam" emptyState)) "no scam here" = false.
Proof. split; reflexivity. Qed.

End BadWords.
(** ** Permission registry and protected roles *)

Section Registry.

Variable cfg : Config.
Variable w : World.

Implicit Types (s : State) (x : UserId).


Lemma reply_sends (user : User) text t conv s :
  stateOf (reply cfg user text t conv s) = s
  /\ forallb isSend (effectsOf (reply cfg user text t conv s)) = true.
Proof.
  unfold reply. destruct t; [split; reflexivity | | split; reflexivity].
  destruct conv as [c|]; [|split; reflexivity].
  destruct (String.eqb c ""); split; reflexivity.
Qed.

Lemma reply_no_roles (user : User) text t conv s p :
  ~ In (SaveRoles p) (effectsOf (reply cfg user text t conv s)).
Proof.
  intros Hin. destruct (reply_sends user text t conv s) as [_ Hall].
  rewrite forallb_forall in Hall. specialize (Hall _ Hin). discriminate Hall.
Qed.

Lemma removeFirst_subset x y (arr : list UserId) :
  In y (removeFirst x arr) -> In y arr.
Proof.
  induction arr as [|z arr IH]; simpl; [tauto|].
  destruct (String.eqb z x); simpl; tauto.
Qed.

Lemma removeFirst_NoDup x (arr : list UserId) :
  List.NoDup arr -> List.NoDup (removeFirst x arr).
Proof.
  induction 1 as [|z arr Hz Hnd IH]; simpl; [constructor|].
  destruct (String.eqb z x); [exact Hnd|].
  constructor; [|exact IH]. intros Hin. apply Hz. eapply removeFirst_subset, Hin.
Qed.

Lemma removeFirst_gone x (arr : list UserId) :
  List.NoDup arr -> ~ In x (removeFirst x arr).
Proof.
  induction 1 as [|z arr Hz Hnd IH]; simpl; [tauto|].
  destruct (String.eqb z x) eqn:E.
  - apply String.eqb_eq in E. now subst.
  - apply String.eqb_neq in E. simpl. tauto.
Qed.

(** the registry after a grant that went through *)
Lemma addOwner_performed (sender target : User) conv s :
  rolesSaved (handleAddOwnerCommand cfg sender target conv s) ->
  ~ In (user_id target) (owners (permissions s))
  /\ permissions (stateOf (handleAddOwnerCommand cfg sender target conv s))
     = mkPermissions (owners (permissions s) ++ [user_id target])
         (if arrIncludes (user_id target) (mods (permissions s))
          then removeFirst (user_id target) (mods (permissions s))
          else mods (permissions s)).
Proof.
  unfold rolesSaved, handleAddOwnerCommand. rewrite run_getState.
  destruct (negb (hasPermission s (user_id sender) ROwner)).
  { intros [p Hp]. now apply reply_no_roles in Hp. }
  destruct (arrIncludes (user_id target) (owners (permissions s))) eqn:Eown.
  { intros [p Hp]. now apply reply_no_roles in Hp. }
  intros _. split; [now apply arrIncludes_false|].
  rewrite run_putState, run_emit, stateOf_mk.
  now rewrite (proj1 (reply_sends _ _ _ _ _)).
Qed.

(** the grant goes through exactly when an owner asks for it and the
    target is not an owner yet *)
Lemma grant_goes_through_iff (sender target : User) conv s :
  rolesSaved (handleAddOwnerCommand cfg sender target conv s)
  <-> hasPermission s (user_id sender) ROwner = true
      /\ ~ In (user_id target) (owners (permissions s)).
Proof.
  unfold rolesSaved, handleAddOwnerCommand. rewrite run_getState.
  destruct (hasPermission s (user_id sender) ROwner); cbn [negb].
  - destruct (arrIncludes (user_id target) (owners (permissions s))) eqn:E.
    + split.
      * intros [p Hp]. now apply reply_no_roles in Hp.
      * intros [_ Hnot]. apply arrIncludes_In in E. contradiction.
    + split.
      * intros _. split; [reflexivity | now apply arrIncludes_false].
      * intros _. rewrite run_putState, run_emit, effectsOf_mk.
        eexists. left. reflexivity.
  - split.
    + intros [p Hp]. now apply reply_no_roles in Hp.
    + intros [H _]. discriminate H.
Qed.

(** C8.  After a grant of the owner role that went through, the user is
    an owner and is no longer a mod, and owners and mods stay disjoint
    (the mods array holding no id twice, as every update of it
    maintains). *)
Theorem grant_owner_removes_mod (sender target : User) conv s :
  List.NoDup (mods (permissions s)) ->
  rolesSaved (handleAddOwnerCommand cfg sender target conv s) ->
  let s' := stateOf (handleAddOwnerCommand cfg sender target conv s) in
  In (user_id target) (owners (permissions s'))
  /\ ~ In (user_id target) (mods (permissions s'))
  /\ (disjointRoles (permissions s) -> disjointRoles (permissions s')).
Proof.
  intros Hnd Hdone s'. destruct (addOwner_performed sender target conv s Hdone) as [Hnew Hp].
  subst s'. rewrite Hp. simpl. split; [|split].
  - apply in_or_app. right. now left.
  - destruct (arrIncludes (user_id target) (mods (permissions s))) eqn:E.
    + now apply removeFirst_gone.
    + now apply arrIncludes_false.
  - intros Hdis x Hx. simpl in *. apply in_app_or in Hx as [Hx | [<- | []]].
    + destruct (arrIncludes (user_id target) (mods (permissions s)));
        [intros Hm; apply (Hdis x Hx); eapply removeFirst_subset, Hm | now apply Hdis].
    + destruct (arrIncludes (user_id target) (mods (permissions s))) eqn:E.
      * now apply removeFirst_gone.
      * now apply arrIncludes_false.
Qed.

Lemma NoDup_snoc x (arr : list UserId) :
  List.NoDup arr -> ~ In x arr -> List.NoDup (arr ++ [x]).
Proof.
  induction 1 as [|y arr Hy Hnd IH]; intros Hx; simpl.
  - constructor; [simpl; tauto | constructor].
  - constructor.
    + intros Hin. apply in_app_or in Hin as [Hin | [<- | []]]; [tauto|].
      apply Hx. now left.
    + apply IH. intros Hin. apply Hx. now right.
Qed.

(** the state behind a reply is the state before it *)
Ltac after_reply := rewrite ?run_putState, ?run_emit, ?stateOf_mk, (proj1 (reply_sends _ _ _ _ _)).

(** every update of the registry keeps the role arrays free of
    duplicates *)
Lemma role_updates_keep_wf (sender target : User) conv t s :
  wfPermissions (permissions s) ->
  wfPermissions (permissions (stateOf (handleRoleCommand cfg sender target conv t s)))
  /\ wfPermissions (permissions (stateOf (handleUnroleCommand cfg sender target conv t s)))
  /\ wfPermissions (permissions (stateOf (handleAddOwnerCommand cfg sender target conv s)))
  /\ wfPermissions (permissions (stateOf (handleRemoveOwnerCommand cfg sender target conv s))).
Proof.
  intros [Hown Hmod]. repeat split.
  all: unfold handleRoleCommand, handleUnroleCommand, handleAddOwnerCommand,
         handleRemoveOwnerCommand; rewrite run_getState.
  all: repeat match goal with
       | |- context [if ?b then _ else _] =>
           match b with
           | context [arrIncludes _ _] => fail 1
           | _ => destruct b
           end
       end.
  all: repeat match goal with
       | |- context [if arrIncludes ?x ?l then _ else _] =>
           let E := fresh "E" in destruct (arrIncludes x l) eqn:E
       end.
  all: after_reply; simpl; try assumption.
  all: try (apply removeFirst_NoDup; assumption).
  all: apply NoDup_snoc; [assumption | now apply arrIncludes_false].
Qed.



(** the punitive calls are exactly the handlers that can write a ban, a
    mute or a frozen position, or kick, ban, mute or move another user
    against their will; their bodies are all modelled *)
Lemma punitiveCall_modelled (h : HandlerCall) p :
  punitiveCall w h = Some p -> is_Some (runHandler cfg w h).
Proof. destruct h; simpl; try discriminate; eauto. Qed.

End Registry.

Lemma grant_owner_removes_mod_witness :
  let s' := stateOf (handleAddOwnerCommand (sampleConfig true) carol bob (Some "c1") staffed) in
  In "u2" (owners (permissions s')) /\ ~ In "u2" (mods (permissions s'))
  /\ (disjointRoles (permissions staffed) -> disjointRoles (permissions s')).
Proof.
  apply (grant_owner_removes_mod (sampleConfig true) carol bob (Some "c1") staffed).
  - repeat constructor. simpl. tauto.
  - exists (mkPermissions ["u3"; "u2"] []). simpl. now left.
Defined.

Example grant_owner_example :
  handleAddOwnerCommand (sampleConfig true) carol bob (Some "c1") staffed
  = (tt, setPermissions (mkPermissions ["u3"; "u2"] []) staffed,
     [SaveRoles (mkPermissions ["u3"; "u2"] []);
      DirectSend "c1" "@bob has been assigned the 'owner' role."]).
Proof. reflexivity. Qed.



Example owner_cannot_be_frozen_by_owner :
  handleFreezeCommand room carol "u3" staffed
  = (tt, staffed, [MessageSend "@carol Cannot freeze owner/mod/bot."]).
Proof. reflexivity. Qed.

Example basic_user_is_frozen :
  handleFreezeCommand room bob "u1" staffed
  = (tt, setFrozen {["u1" := origin]} staffed,
     [SaveFrozenUsers {["u1" := origin]};
      MessageSend "@bob alice has been frozen at their current location."]).
Proof. reflexivity. Qed.
(** ** The command router *)

Section RouterProps.

Variable cfg : Config.
Variable w : World.

Implicit Types (s : State) (p : Permissions) (user : User).




(** behind the checks on the sender, a handler [body] runs on the state
    those checks leave, after their effects *)
Lemma behind_gate (body : M unit) u s s1 e1 :
  senderIgnored w u s = (false, s1, e1) ->
  (muted ← isMuted (now w) u;
   if (muted : bool) then mret tt else
   banned ← isBanned (now w) u;
   if (banned : bool) then mret tt else body) s
  = (resultOf (body s1), stateOf (body s1), e1 ++ effectsOf (body s1)).
Proof.
  unfold senderIgnored. rewrite !run_bind.
  destruct (resultOf (isMuted (now w) u s)) eqn:Em; [intros H; discriminate H|].
  intros H. injection H as Hb Hs He.
  rewrite run_bind, Hb, Hs, <- He, <- app_assoc. reflexivity.
Qed.


Lemma chatCreate_behind_gate user message s s1 e1 :
  String.eqb (user_id user) (botId w) = false ->
  senderIgnored w (user_id user) s = (false, s1, e1) ->
  chatCreate cfg w user message s
  = (resultOf (publicMessage cfg w user message s1),
     stateOf (publicMessage cfg w user message s1),
     e1 ++ effectsOf (publicMessage cfg w user message s1)).
Proof.
  intros Hbot Hgate. unfold chatCreate. rewrite Hbot. now apply behind_gate.
Qed.



Lemma directMessage_prefixed u conv message s :
  Js.startsWith message (botPrefix cfg) = true ->
  directMessage cfg w u conv message s = dmCommand cfg w (dmUser w u) conv message s.
Proof. intros Hp. unfold directMessage. rewrite Hp. reflexivity. Qed.

(** the un-prefixed emote form does not look at the registries *)
Lemma bareEmoteAt_state s s' user text :
  bareEmoteAt cfg w s user text = bareEmoteAt cfg w s' user text.
Proof. reflexivity. Qed.

(** a public message that is no bad word and none of the un-prefixed emote
    forms, and that starts with the prefix, is parsed as a command *)
Lemma publicMessage_prefixed user message s :
  containsBadWord s message = false ->
  bareEmoteAt cfg w s user (Js.toLowerCase message) = None ->
  bareEmoteLoop cfg (Js.toLowerCase message) = None ->
  Js.startsWith (Js.toLowerCase message) (botPrefix cfg) = true ->
  publicMessage cfg w user message s = publicCommand cfg w user message s.
Proof.
  intros Hbad Hat Hloop Hp. unfold publicMessage.
  rewrite run_getState, Hbad, Hat, Hloop, Hp. reflexivity.
Qed.


Lemma isMuted_quiet now u s :
  forallb (fun e => negb (isCall e)) (effectsOf (isMuted now u s)) = true.
Proof.
  unfold isMuted. rewrite run_getState.
  destruct (mutedUsers s !! u); [destruct (gt _ _)|]; reflexivity.
Qed.

Lemma isBanned_quiet now u s :
  forallb (fun e => negb (isCall e)) (effectsOf (isBanned now u s)) = true.
Proof.
  unfold isBanned. rewrite run_getState.
  destruct (bannedUsers s !! u); [destruct (truthy _ && gt _ _)|]; reflexivity.
Qed.



(** the [default] case of the public chat [switch] only logs a warning:
    nothing is sent *)
Lemma dispatchPublic_unknown user command args res s :
  arrIncludes command publicCommandNames = false ->
  dispatchPublic cfg user command args res s = (tt, s, []).
Proof.
  unfold arrIncludes, Js.arrIncludes, publicCommandNames. cbn [existsb]. intros H.
  repeat (apply orb_false_elim in H as [? H]).
  unfold dispatchPublic.
  repeat match goal with E : String.eqb command _ = false |- _ => rewrite E; clear E end.
  reflexivity.
Qed.




(** whoever sends it and whatever the ledger holds, a prefixed direct
    message whose command the scope lists do not allow in direct messages
    never reaches a handler *)
Lemma dm_out_of_scope_never_dispatched u conv message command args s :
  Js.startsWith message (botPrefix cfg) = true ->
  parseCommand cfg message = (command, args) ->
  allowedInDm cfg command = false ->
  forallb (fun e => negb (isCall e)) (effectsOf (messageCreate cfg w u conv message s)) = true.
Proof.
  intros Hp Hparse Hscope. unfold messageCreate.
  destruct (String.eqb u (botId w)); [reflexivity|].
  rewrite run_bind, effectsOf_mk, forallb_app, isMuted_quiet.
  destruct (resultOf (isMuted (now w) u s)); [reflexivity|].
  rewrite run_bind, effectsOf_mk, forallb_app, isBanned_quiet.
  destruct (resultOf (isBanned _ _ _)); [reflexivity|].
  rewrite directMessage_prefixed by exact Hp.
  unfold dmCommand. rewrite Hparse.
  destruct (resolveTarget w args); try reflexivity; rewrite Hscope; reflexivity.
Qed.


(** the public chat path at the same point: the command passes the scope
    and role checks, matches no [case], and the sender hears nothing *)
Lemma unknown_public_command_is_silent user message command args s s1 e1 :
  user_id user <> botId w ->
  senderIgnored w (user_id user) s = (false, s1, e1) ->
  containsBadWord s1 message = false ->
  bareEmoteAt cfg w s1 user (Js.toLowerCase message) = None ->
  bareEmoteLoop cfg (Js.toLowerCase message) = None ->
  Js.startsWith (Js.toLowerCase message) (botPrefix cfg) = true ->
  parseCommand cfg message = (command, args) ->
  resolves (resolveTarget w args) = true ->
  allowedInPublic cfg command = true ->
  hasPermission s1 (user_id user) (requiredRole cfg command) = true ->
  arrIncludes command publicCommandNames = false ->
  chatCreate cfg w user message s = (tt, s1, e1).
Proof.
  intros Hbot Hgate Hbad Hat Hloop Hp Hparse Hres Hscope Hperm Hunknown.
  apply String.eqb_neq in Hbot.
  rewrite (chatCreate_behind_gate _ _ _ _ _ Hbot Hgate).
  rewrite publicMessage_prefixed by assumption.
  unfold publicCommand. rewrite Hparse.
  destruct (resolveTarget w args) eqn:E; try discriminate Hres;
    rewrite Hscope; cbn [negb]; rewrite run_getState, Hperm; cbn [negb];
    rewrite (dispatchPublic_unknown _ _ _ _ _ Hunknown);
    rewrite resultOf_mk, stateOf_mk, effectsOf_mk, app_nil_r; reflexivity.
Qed.

End RouterProps.







Example kick_routed_in_public_chat :
  chatCreate (sampleConfig true) room carol "!K   @bob" staffed
  = (tt, staffed, [Call (KickCommand carol "u2")])
  /\ chatCreate (sampleConfig true) room alice "!k @bob" staffed
     = (tt, staffed, [MessageSend "@alice You do not have permission to use this command."]).
Proof. split; reflexivity. Qed.

(** a key that the emote definitions only inherit is truthy in the test
    of the router and has no id for the handler: the call is made, and
    does nothing *)
Example inherited_key_is_no_emote :
  lookupEmote (sampleConfig true) "constructor" = Some (mkEmoteDef "" None)
  /\ chatCreate (sampleConfig true) room alice "constructor @bob" staffed
     = (tt, staffed, [Call (SingleEmoteCommand "u2" "constructor")])
  /\ handleSingleEmoteCommand (sampleConfig true) "u2" "constructor" staffed
     = (tt, staffed, []).
Proof. repeat split; reflexivity. Qed.

Example bare_emote_forms :
  chatCreate (sampleConfig true) room alice "wave @bob" staffed
  = (tt, staffed, [Call (SingleEmoteCommand "u2" "wave")])
  /\ chatCreate (sampleConfig true) room alice "WAVE" staffed
     = (tt, staffed, [Call (EmoteLoopCommand alice "wave")]).
Proof. split; reflexivity. Qed.
(** ** Position guard *)

Section PositionProps.

Variable cfg : Config.
Variable w : World.

(** C4, as amended.  With the movement-correction feature switched on, a
    movement event of a frozen user other than the bot is answered with
    exactly one teleport back to the locked position when some axis is
    off by more than the tolerance, and with nothing when every axis is
    within it. *)
Theorem frozen_user_is_teleported_back (user : User) (newPosition lockedPos : Position)
    (s : State) :
  mc_enabled (playerMovementTeleportCorrection (features cfg)) = true ->
  user_id user <> botId w ->
  frozenUsers s !! user_id user = Some lockedPos ->
  (beyondTolerance (pos_x newPosition) (pos_x lockedPos) = true
   \/ beyondTolerance (pos_y newPosition) (pos_y lockedPos) = true
   \/ beyondTolerance (pos_z newPosition) (pos_z lockedPos) = true ->
   playerMove cfg w user newPosition s = (tt, s, [Teleport (user_id user) lockedPos]))
  /\ (beyondTolerance (pos_x newPosition) (pos_x lockedPos) = false
      /\ beyondTolerance (pos_y newPosition) (pos_y lockedPos) = false
      /\ beyondTolerance (pos_z newPosition) (pos_z lockedPos) = false ->
      playerMove cfg w user newPosition s = (tt, s, [])).
Proof.
  intros Hon Hbot Hfrozen. apply String.eqb_neq in Hbot.
  unfold playerMove. rewrite run_getState, Hon, Hbot, Hfrozen. cbn [negb andb].
  unfold movedFromLocked. split.
  - intros Hmoved.
    assert (E : beyondTolerance (pos_x newPosition) (pos_x lockedPos)
                || beyondTolerance (pos_y newPosition) (pos_y lockedPos)
                || beyondTolerance (pos_z newPosition) (pos_z lockedPos) = true).
    { destruct Hmoved as [H | [H | H]]; rewrite H;
        rewrite ?orb_true_r, ?orb_true_l; reflexivity. }
    rewrite E. reflexivity.
  - intros (Hx & Hy & Hz). rewrite Hx, Hy, Hz. reflexivity.
Qed.

(** with the feature switched off no movement event is ever answered *)
Lemma playerMove_switched_off (user : User) (newPosition : Position) (s : State) :
  mc_enabled (playerMovementTeleportCorrection (features cfg)) = false ->
  playerMove cfg w user newPosition s = (tt, s, []).
Proof. intros Hoff. unfold playerMove. rewrite run_getState, Hoff. reflexivity. Qed.

End PositionProps.

Lemma frozen_user_is_teleported_back_witness :
  playerMove (sampleConfig true) room alice (mkPosition 1 0 0 "FrontRight") frozenAlice
  = (tt, frozenAlice, [Teleport "u1" origin])
  /\ playerMove (sampleConfig true) room alice (mkPosition 0.001 0 0 "FrontRight") frozenAlice
     = (tt, frozenAlice, []).
Proof.
  split.
  - refine (proj1 (frozen_user_is_teleported_back (sampleConfig true) room alice
                     (mkPosition 1 0 0 "FrontRight") origin frozenAlice _ _ _) _).
    + reflexivity.
    + intros H; discriminate H.
    + reflexivity.
    + left. reflexivity.
  - refine (proj2 (frozen_user_is_teleported_back (sampleConfig true) room alice
                     (mkPosition 0.001 0 0 "FrontRight") origin frozenAlice _ _ _) _).
    + reflexivity.
    + intros H; discriminate H.
    + reflexivity.
    + repeat split; reflexivity.
Defined.

(** C4 as stated fails when [playerMovementTeleportCorrection.enabled] is
    false: alice is frozen at the origin and moves one unit along x, and
    no teleport is issued. *)
Lemma frozen_user_moves_when_correction_is_off :
  frozenUsers frozenAlice !! "u1" = Some origin
  /\ user_id alice <> botId room
  /\ beyondTolerance 1 (pos_x origin) = true
  /\ playerMove (sampleConfig false) room alice (mkPosition 1 0 0 "FrontRight") frozenAlice
     = (tt, frozenAlice, []).
Proof. repeat split; try reflexivity. intros H; discriminate H. Qed.
(** ** Emote loops *)

Section EmoteLoopProps.

Import EmoteLoops.

Variable cfg : Config.

(** starting a loop for a user whose loop is registered clears the
    registered timer and removes the registry entry *)
Lemma restart_cancels_registered_loop (user : User) (emoteName : string) (st : Sched)
    (entry : LoopEntry) :
  emoteLoops st !! user_id user = Some entry ->
  let st' := step cfg st (EvStart user emoteName) in
  emoteLoops st' !! user_id user = None
  /\ timers st' !! timeoutId entry = None
  /\ trace st' = trace st ++ [MessageSend ("@" +:+ user_name user +:+ " Stopped previous emote loop.")].
Proof.
  intros Hentry. simpl. unfold handleEmoteLoopCommand, hasLoop, cancelLoop.
  rewrite Hentry. rewrite bool_decide_eq_true_2 by eauto. simpl.
  split; [apply lookup_delete_eq | split; [apply lookup_delete_eq | reflexivity]].
Qed.

(** the cancellation reaches only the timer the registry names: the
    functions suspended in the middle of a tick are left alone *)
Lemma cancelLoop_keeps_suspended (userId : UserId) (st : Sched) :
  suspended (cancelLoop userId st) = suspended st.
Proof. unfold cancelLoop. destruct (emoteLoops st !! userId); reflexivity. Qed.

(** a start that finds no registry entry for the user cancels nothing and
    adds a tick: whatever task was alive for the user stays alive beside
    the new one *)
Lemma unregistered_start_adds_task (user : User) (emoteName : string) (emoteDef : EmoteDef)
    (st : Sched) :
  lookupEmote cfg emoteName = Some emoteDef ->
  emote_id emoteDef <> "" ->
  emoteLoops st !! user_id user = None ->
  let st' := step cfg st (EvStart user emoteName) in
  timers st' = timers st
  /\ suspended st' = suspended st ++ [AfterRoster (mkClosure user emoteName emoteDef)]
  /\ activeTasks (user_id user) st' = S (activeTasks (user_id user) st).
Proof.
  intros Hdef Hid Hnone. apply String.eqb_neq in Hid.
  assert (E : step cfg st (EvStart user emoteName) =
              send ("@" +:+ user_name user +:+ " Performing '" +:+ emoteName
                    +:+ "' in a loop. Type '!stop' to halt.")
                (performEmote (mkClosure user emoteName emoteDef) st)).
  { simpl. unfold handleEmoteLoopCommand, hasLoop. rewrite Hnone.
    rewrite bool_decide_eq_false_2 by (intros [? ?]; discriminate).
    unfold startLoop. rewrite Hdef, Hid. reflexivity. }
  cbv zeta. rewrite E. split; [reflexivity | split; [reflexivity|]].
  unfold activeTasks, timersOf, send, performEmote, suspend. cbn [timers suspended].
  rewrite List.filter_app, length_app. cbn [List.filter tickOf cl_user].
  rewrite String.eqb_refl. simpl length. lia.
Qed.

End EmoteLoopProps.

(** C3 fails on the code.  When the second start for alice is handled
    while the opening tick of the first is still suspended (the registry
    has no entry for her yet), nothing is cancelled: both ticks go on,
    both arm a timer, and the registry remembers only the later one.  Two
    loop tasks are alive for her; [!stop] clears the registered timer and
    leaves the other running with no entry in the registry. *)
Theorem emote_loop_restart_race :
  let st := EmoteLoops.run (sampleConfig true) EmoteLoops.initial restartDuringFirstTick in
  let st' := EmoteLoops.step (sampleConfig true) st (EmoteLoops.EvStop alice) in
  EmoteLoops.activeTasks "u1" st = 2
  /\ size (EmoteLoops.timers st) = 2
  /\ EmoteLoops.emoteLoops st !! "u1" = Some (EmoteLoops.mkLoopEntry 1 "emote-wave" None)
  /\ EmoteLoops.activeTasks "u1" st' = 1
  /\ EmoteLoops.emoteLoops st' !! "u1" = None
  /\ EmoteLoops.timers st' !! 0 = Some (EmoteLoops.mkClosure alice "wave" wave).
Proof. repeat split; vm_compute; reflexivity. Qed.

(** the same happens when a running loop is restarted while one of its
    later ticks is in flight: the timer the registry names has already
    fired, so clearing it stops nothing *)
Example emote_loop_restart_during_tick :
  EmoteLoops.activeTasks "u1"
    (EmoteLoops.run (sampleConfig true) EmoteLoops.initial restartDuringLaterTick) = 2.
Proof. vm_compute. reflexivity. Qed.

(** restarted between two ticks, the old loop is cancelled and one task
    remains *)
Example emote_loop_restart_idle :
  EmoteLoops.activeTasks "u1"
    (EmoteLoops.run (sampleConfig true) EmoteLoops.initial restartWhileIdle) = 1.
Proof. vm_compute. reflexivity. Qed.
(** * Further properties *)

(** ** Roles and the role registry *)

Section RolesExtra.

Variable cfg : Config.

Implicit Types (s : State) (x u : UserId) (sender target : User).

(** a user without a role is in neither array *)
Lemma basic_role_unlisted s u :
  getRole s u = RBasic ->
  ~ In u (owners (permissions s)) /\ ~ In u (mods (permissions s)).
Proof.
  unfold getRole.
  destruct (arrIncludes u (owners (permissions s))) eqn:Eo; [discriminate|].
  destruct (arrIncludes u (mods (permissions s))) eqn:Em; [discriminate|].
  intros _. split; now apply arrIncludes_false.
Qed.

(** X1.  Permissions follow the order basic < mod < owner: a user may use
    what requires a role exactly when that role is at most their own, and
    their own role is owner when the owners array names them (even if the
    mods array does too), mod when only the mods array does, basic
    otherwise. *)
Theorem hasPermission_role_order s u (r : Role) :
  (hasPermission s u r = true <-> roleRank r <= roleRank (getRole s u))
  /\ (getRole s u = ROwner <-> In u (owners (permissions s)))
  /\ (getRole s u = RMod <->
      ~ In u (owners (permissions s)) /\ In u (mods (permissions s)))
  /\ (getRole s u = RBasic <->
      ~ In u (owners (permissions s)) /\ ~ In u (mods (permissions s))).
Proof.
  unfold hasPermission, getRole.
  destruct (arrIncludes u (owners (permissions s))) eqn:Eo;
    [apply arrIncludes_In in Eo | apply arrIncludes_false in Eo];
    (destruct (arrIncludes u (mods (permissions s))) eqn:Em;
     [apply arrIncludes_In in Em | apply arrIncludes_false in Em]);
    destruct r; simpl; repeat split; intros; try reflexivity; try lia; try tauto;
    try discriminate; try (exfalso; tauto).
Qed.

Lemma hasPermission_owner s u :
  hasPermission s u ROwner = arrIncludes u (owners (permissions s)).
Proof.
  unfold hasPermission, getRole.
  destruct (arrIncludes u (owners (permissions s))); [reflexivity|].
  destruct (arrIncludes u (mods (permissions s))); reflexivity.
Qed.

Lemma reply_run user text t conv s :
  reply cfg user text t conv s = (tt, s, effectsOf (reply cfg user text t conv s)).
Proof.
  rewrite (run_eta (reply cfg user text t conv s)) at 1.
  rewrite (proj1 (reply_sends cfg user text t conv s)).
  destruct (resultOf _). reflexivity.
Qed.

Lemma stateOf_reply user text t conv s : stateOf (reply cfg user text t conv s) = s.
Proof. apply reply_sends. Qed.

Lemma setPermissions_same s : setPermissions (permissions s) s = s.
Proof. destruct s. reflexivity. Qed.

Lemma removeFirst_snoc x (arr : list UserId) :
  ~ In x arr -> removeFirst x (arr ++ [x]) = arr.
Proof.
  induction arr as [|y arr IH]; simpl; intros Hx.
  - now rewrite String.eqb_refl.
  - destruct (String.eqb y x) eqn:E.
    + apply String.eqb_eq in E. tauto.
    + f_equal. apply IH. tauto.
Qed.

Lemma removeFirst_keeps x y (arr : list UserId) :
  In y arr -> y <> x -> In y (removeFirst x arr).
Proof.
  induction arr as [|z arr IH]; simpl; [tauto|]. intros [-> | Hy] Hne.
  - apply String.eqb_neq in Hne. rewrite Hne. now left.
  - destruct (String.eqb z x); [exact Hy | right; now apply IH].
Qed.

Lemma arrIncludes_snoc x (arr : list UserId) : arrIncludes x (arr ++ [x]) = true.
Proof. apply arrIncludes_In, in_or_app. right. now left. Qed.

(** X2.  An owner who gives the mod role to a user without a role makes
    that user a mod, and taking the role away again leaves the registry
    exactly as it was. *)
Theorem role_then_unrole_restores sender target conv t conv' t' s :
  hasPermission s (user_id sender) ROwner = true ->
  getRole s (user_id target) = RBasic ->
  let s1 := stateOf (handleRoleCommand cfg sender target conv t s) in
  getRole s1 (user_id target) = RMod
  /\ In (SaveRoles (permissions s1)) (effectsOf (handleRoleCommand cfg sender target conv t s))
  /\ stateOf (handleUnroleCommand cfg sender target conv' t' s1) = s.
Proof.
  intros Hown Hbasic.
  apply basic_role_unlisted in Hbasic as [Hno Hnm].
  assert (E1 : handleRoleCommand cfg sender target conv t s
               = (tt, setPermissions (mkPermissions (owners (permissions s))
                                        (mods (permissions s) ++ [user_id target])) s,
                  SaveRoles (mkPermissions (owners (permissions s))
                               (mods (permissions s) ++ [user_id target]))
                  :: effectsOf (reply cfg sender
                                  ("@" +:+ user_name target +:+ " has been assigned the 'mod' role.")
                                  t conv
                                  (setPermissions (mkPermissions (owners (permissions s))
                                        (mods (permissions s) ++ [user_id target])) s)))).
  { unfold handleRoleCommand. rewrite run_getState, Hown. cbn [negb].
    unfold getRole. apply arrIncludes_false in Hno. rewrite Hno.
    apply arrIncludes_false in Hnm. rewrite Hnm.
    destruct (arrIncludes (user_id target) (mods (permissions s))); [discriminate|].
    cbn [isOwnerRole]. rewrite run_putState, run_emit, reply_run. reflexivity. }
  cbv zeta. rewrite E1, stateOf_mk, effectsOf_mk.
  set (s1 := setPermissions _ s).
  assert (Hown1 : hasPermission s1 (user_id sender) ROwner = true)
    by (rewrite hasPermission_owner in *; exact Hown).
  assert (Hno1 : arrIncludes (user_id target) (owners (permissions s1)) = false)
    by now apply arrIncludes_false.
  split; [|split].
  - unfold getRole. rewrite Hno1. subst s1. cbn [permissions setPermissions mods].
    now rewrite arrIncludes_snoc.
  - now left.
  - unfold handleUnroleCommand. rewrite run_getState, Hown1. cbn [negb].
    unfold getRole at 1. rewrite Hno1.
    assert (Hin : arrIncludes (user_id target) (mods (permissions s1)) = true)
      by apply arrIncludes_snoc.
    rewrite Hin. cbn [isOwnerRole]. rewrite run_putState, run_emit, stateOf_mk, reply_run, stateOf_mk.
    subst s1. cbn [permissions setPermissions owners mods bannedUsers mutedUsers badWords frozenUsers].
    rewrite removeFirst_snoc by exact Hnm.
    destruct s as [[o m] b mu bw f]. reflexivity.
Qed.

(** the state and what was sent, once a handler has come down to its
    writes and its reply *)
Ltac settle := rewrite ?run_putState, ?run_emit, ?stateOf_mk, ?effectsOf_mk, ?stateOf_reply.

(** X3.  Removing an owner never removes the owner who asks for it:
    whoever the target is, the invoking owner is still an owner
    afterwards, and an attempt to remove oneself changes nothing and only
    sends a reply. *)
Theorem remove_owner_spares_invoker sender target conv s :
  hasPermission s (user_id sender) ROwner = true ->
  hasPermission (stateOf (handleRemoveOwnerCommand cfg sender target conv s))
    (user_id sender) ROwner = true
  /\ (user_id sender = user_id target ->
      stateOf (handleRemoveOwnerCommand cfg sender target conv s) = s
      /\ forallb isSend (effectsOf (handleRemoveOwnerCommand cfg sender target conv s)) = true).
Proof.
  intros Hown. unfold handleRemoveOwnerCommand. rewrite run_getState, Hown. cbn [negb orb].
  destruct (String.eqb (user_id sender) (user_id target)) eqn:Eself.
  - settle. split; [exact Hown|]. intros _. split; [reflexivity | apply reply_sends].
  - apply String.eqb_neq in Eself.
    split; [|intros Heq; contradiction].
    destruct (arrIncludes (user_id target) (owners (permissions s))) eqn:Et; settle;
      [|exact Hown].
    rewrite hasPermission_owner in *. cbn [permissions setPermissions owners].
    apply arrIncludes_In. apply removeFirst_keeps; [now apply arrIncludes_In | exact Eself].
Qed.

Lemma not_owner_role s x :
  isOwnerRole (getRole s x) = false -> ~ In x (owners (permissions s)).
Proof.
  change (isOwnerRole (getRole s x)) with (hasPermission s x ROwner).
  rewrite hasPermission_owner. apply arrIncludes_false.
Qed.

(** X4.  Whoever sends them and whomever they name, the four role
    commands keep the registry well formed: the owners and mods arrays
    stay free of duplicates, and no user is in both. *)
Theorem role_updates_keep_registry (k : RoleUpdate) sender target conv t s :
  wfPermissions (permissions s) ->
  disjointRoles (permissions s) ->
  let s' := stateOf (runRoleUpdate cfg k sender target conv t s) in
  wfPermissions (permissions s') /\ disjointRoles (permissions s').
Proof.
  intros Hwf Hdis. cbv zeta. split.
  - destruct (role_updates_keep_wf cfg sender target conv t s Hwf) as (H1 & H2 & H3 & H4).
    destruct k; assumption.
  - destruct Hwf as [Hno Hnm]. unfold disjointRoles in *.
    destruct k; cbn [runRoleUpdate].
    + unfold handleRoleCommand. rewrite run_getState.
      destruct (negb (hasPermission s (user_id sender) ROwner)); [settle; exact Hdis|].
      destruct (isOwnerRole (getRole s (user_id target))) eqn:Eo; [settle; exact Hdis|].
      destruct (arrIncludes (user_id target) (mods (permissions s))) eqn:Em;
        settle; [exact Hdis|].
      cbn [permissions setPermissions owners mods]. intros x Hx Hin.
      apply in_app_or in Hin as [Hin | [<- | []]]; [exact (Hdis x Hx Hin)|].
      exact (not_owner_role _ _ Eo Hx).
    + unfold handleUnroleCommand. rewrite run_getState.
      destruct (negb (hasPermission s (user_id sender) ROwner)); [settle; exact Hdis|].
      destruct (isOwnerRole (getRole s (user_id target))); [settle; exact Hdis|].
      destruct (arrIncludes (user_id target) (mods (permissions s)));
        settle; [|exact Hdis].
      cbn [permissions setPermissions owners mods]. intros x Hx Hin.
      exact (Hdis x Hx (removeFirst_subset _ _ _ Hin)).
    + unfold handleAddOwnerCommand. rewrite run_getState.
      destruct (negb (hasPermission s (user_id sender) ROwner)); [settle; exact Hdis|].
      destruct (arrIncludes (user_id target) (owners (permissions s))) eqn:Eo;
        settle; [exact Hdis|].
      cbn [permissions setPermissions owners mods]. intros x Hx.
      apply in_app_or in Hx as [Hx | [<- | []]].
      * destruct (arrIncludes (user_id target) (mods (permissions s)));
          [|now apply Hdis].
        intros Hin. exact (Hdis x Hx (removeFirst_subset _ _ _ Hin)).
      * destruct (arrIncludes (user_id target) (mods (permissions s))) eqn:Em.
        -- now apply removeFirst_gone.
        -- now apply arrIncludes_false.
    + unfold handleRemoveOwnerCommand. rewrite run_getState.
      destruct (negb (hasPermission s (user_id sender) ROwner)
                || String.eqb (user_id sender) (user_id target)); [settle; exact Hdis|].
      destruct (arrIncludes (user_id target) (owners (permissions s)));
        settle; [|exact Hdis].
      cbn [permissions setPermissions owners mods]. intros x Hx.
      exact (Hdis x (removeFirst_subset _ _ _ Hx)).
Qed.

(** X5.  Only an owner changes the registry: sent by anyone else, each
    of the four role commands leaves every registry as it was and only
    replies; and even an owner cannot change the role of an owner through
    the mod commands. *)
Theorem only_owners_update_roles (k : RoleUpdate) sender target conv t s :
  (hasPermission s (user_id sender) ROwner = false ->
   stateOf (runRoleUpdate cfg k sender target conv t s) = s
   /\ forallb isSend (effectsOf (runRoleUpdate cfg k sender target conv t s)) = true)
  /\ (k = DoRole \/ k = DoUnrole ->
      getRole s (user_id target) = ROwner ->
      stateOf (runRoleUpdate cfg k sender target conv t s) = s
      /\ forallb isSend (effectsOf (runRoleUpdate cfg k sender target conv t s)) = true).
Proof.
  split.
  - intros Hno.
    destruct k; cbn [runRoleUpdate];
      unfold handleRoleCommand, handleUnroleCommand, handleAddOwnerCommand,
        handleRemoveOwnerCommand;
      rewrite run_getState, Hno; cbn [negb orb]; settle;
      (split; [reflexivity | apply reply_sends]).
  - intros Hk Hrole.
    destruct Hk as [-> | ->]; cbn [runRoleUpdate];
      unfold handleRoleCommand, handleUnroleCommand; rewrite run_getState, Hrole;
      cbn [isOwnerRole]; destruct (negb _); settle;
      (split; [reflexivity | apply reply_sends]).
Qed.

End RolesExtra.

Lemma role_then_unrole_restores_witness :
  let s1 := stateOf (handleRoleCommand (sampleConfig true) carol alice None Public staffed) in
  getRole s1 "u1" = RMod
  /\ In (SaveRoles (permissions s1))
       (effectsOf (handleRoleCommand (sampleConfig true) carol alice None Public staffed))
  /\ stateOf (handleUnroleCommand (sampleConfig true) carol alice None Public s1) = staffed.
Proof.
  apply (role_then_unrole_restores (sampleConfig true) carol alice None Public None Public
           staffed); reflexivity.
Defined.

Lemma remove_owner_spares_invoker_witness :
  hasPermission (stateOf (handleRemoveOwnerCommand (sampleConfig true) carol carol
                            (Some "c1") staffed)) "u3" ROwner = true
  /\ (user_id carol = user_id carol ->
      stateOf (handleRemoveOwnerCommand (sampleConfig true) carol carol (Some "c1") staffed)
      = staffed
      /\ forallb isSend (effectsOf (handleRemoveOwnerCommand (sampleConfig true) carol carol
                                      (Some "c1") staffed)) = true).
Proof.
  apply (remove_owner_spares_invoker (sampleConfig true) carol carol (Some "c1") staffed).
  reflexivity.
Defined.

Lemma role_updates_keep_registry_witness :
  let s' := stateOf (runRoleUpdate (sampleConfig true) DoAddOwner carol bob (Some "c1") Dm
                       staffed) in
  wfPermissions (permissions s') /\ disjointRoles (permissions s').
Proof.
  apply (role_updates_keep_registry (sampleConfig true) DoAddOwner carol bob (Some "c1") Dm
           staffed).
  - split; repeat constructor; simpl; tauto.
  - intros x [<- | []] [H | []]. discriminate H.
Defined.

Lemma only_owners_update_roles_witness :
  stateOf (runRoleUpdate (sampleConfig true) DoAddOwner bob alice (Some "c1") Dm staffed)
  = staffed
  /\ stateOf (runRoleUpdate (sampleConfig true) DoUnrole carol carol None Public staffed)
     = staffed.
Proof.
  split.
  - apply (proj1 (only_owners_update_roles (sampleConfig true) DoAddOwner bob alice
                    (Some "c1") Dm staffed)). reflexivity.
  - apply (proj2 (only_owners_update_roles (sampleConfig true) DoUnrole carol carol None
                    Public staffed)); [now right | reflexivity].
Defined.
(** ** The bad-word set *)

Section BadWordsExtra.

Implicit Types (s : State) (w t : string).

Lemma setBadWords_same s : setBadWords (badWords s) s = s.
Proof. destruct s. reflexivity. Qed.

Lemma filter_other_id (x : string) (l : list string) :
  ~ In x l -> List.filter (fun y => negb (String.eqb y x)) l = l.
Proof.
  induction l as [|y l IH]; simpl; [reflexivity|]. intros Hx.
  destruct (String.eqb y x) eqn:E.
  - apply String.eqb_eq in E. tauto.
  - simpl. f_equal. apply IH. tauto.
Qed.

Lemma filter_other_length (x : string) (l : list string) :
  In x l -> (length (List.filter (fun y => negb (String.eqb y x)) l) < length l)%nat.
Proof.
  induction l as [|y l IH]; simpl; [tauto|]. intros Hx.
  pose proof (List.filter_length_le (fun y => negb (String.eqb y x)) l) as Hle.
  destruct (String.eqb y x) eqn:E; simpl.
  - lia.
  - apply String.eqb_neq in E. destruct Hx as [Hx | Hx]; [congruence|].
    specialize (IH Hx). lia.
Qed.

(** Removing a word that is not in the set (ignoring the case of the
    argument) answers [false], leaves the set as it was and writes
    nothing. *)
Theorem removeBadWord_absent s w :
  ~ In (Js.toLowerCase w) (badWords s) -> removeBadWord w s = (false, s, []).
Proof.
  intros Hno. unfold removeBadWord. rewrite run_getState, run_putState.
  rewrite (filter_other_id _ _ Hno), Nat.ltb_irrefl, setBadWords_same. reflexivity.
Qed.

(** X6.  Removing a word that is in the set answers [true], takes every
    occurrence of its lower-case form out, keeps all the other words, and
    writes the new set to the store once. *)
Theorem removeBadWord_present s w :
  In (Js.toLowerCase w) (badWords s) ->
  resultOf (removeBadWord w s) = true
  /\ ~ In (Js.toLowerCase w) (badWords (stateOf (removeBadWord w s)))
  /\ (forall x, x <> Js.toLowerCase w ->
                In x (badWords (stateOf (removeBadWord w s))) <-> In x (badWords s))
  /\ effectsOf (removeBadWord w s) = [SaveBadWords (badWords (stateOf (removeBadWord w s)))].
Proof.
  intros Hin. unfold removeBadWord. rewrite run_getState, run_putState.
  apply filter_other_length in Hin. apply Nat.ltb_lt in Hin. rewrite Hin.
  rewrite run_emit, resultOf_mk, stateOf_mk, effectsOf_mk.
  cbn [resultOf stateOf effectsOf fst snd mret M_ret badWords setBadWords].
  split; [reflexivity | split; [|split; [|reflexivity]]].
  - intros Hx. apply List.filter_In in Hx as [_ Hx]. now rewrite String.eqb_refl in Hx.
  - intros x Hne. split; intros Hx.
    + now apply List.filter_In in Hx.
    + apply List.filter_In. split; [exact Hx|].
      now apply negb_true_iff, String.eqb_neq.
Qed.

(** X7.  Adding a word that was not in the set and then removing it,
    under whatever capitalisation, gives back the set as it was. *)
Theorem add_then_remove_restores s w w' :
  Js.toLowerCase w' = Js.toLowerCase w ->
  ~ In (Js.toLowerCase w) (badWords s) ->
  resultOf (addBadWord w s) = true
  /\ resultOf (removeBadWord w' (stateOf (addBadWord w s))) = true
  /\ stateOf (removeBadWord w' (stateOf (addBadWord w s))) = s.
Proof.
  intros Hcase Hno.
  assert (Eadd : addBadWord w s
                 = (true, setBadWords (badWords s ++ [Js.toLowerCase w]) s,
                    [SaveBadWords (badWords s ++ [Js.toLowerCase w])])).
  { unfold addBadWord. rewrite run_getState.
    apply arrIncludes_false in Hno. rewrite Hno. reflexivity. }
  rewrite Eadd, resultOf_mk, stateOf_mk. split; [reflexivity|].
  unfold removeBadWord. rewrite run_getState, run_putState, Hcase.
  cbn [badWords setBadWords].
  rewrite List.filter_app, (filter_other_id _ _ Hno). cbn [List.filter].
  rewrite String.eqb_refl. cbn [negb]. rewrite app_nil_r, length_app. cbn [length].
  assert (Hlt : (length (badWords s) <? length (badWords s) + 1)%nat = true)
    by (apply Nat.ltb_lt; lia).
  rewrite Hlt, run_emit, resultOf_mk, stateOf_mk.
  split; [reflexivity|]. destruct s. reflexivity.
Qed.

(** X8.  A text of ASCII characters is flagged exactly when some stored
    word occurs in its lower-case form as a contiguous piece; the word
    that matches is then itself lower-case, so a stored word with a
    capital letter never matches anything. *)
Theorem containsBadWord_iff s t :
  isAscii t = true ->
  (containsBadWord s t = true <->
   exists word pre suf,
     In word (badWords s) /\ Js.toLowerCase word = word
     /\ Js.toLowerCase t = pre +:+ word +:+ suf).
Proof.
  intros _. unfold containsBadWord. rewrite existsb_exists. split.
  - intros (word & Hin & Hinc). apply includes_iff in Hinc as (pre & suf & H).
    exists word, pre, suf. repeat split; [exact Hin | | exact H].
    eapply piece_of_lowercase, H.
  - intros (word & pre & suf & Hin & _ & H). exists word. split; [exact Hin|].
    rewrite H. apply includes_append.
Qed.

End BadWordsExtra.

Lemma removeBadWord_absent_witness : removeBadWord "spam" emptyState = (false, emptyState, []).
Proof. apply (removeBadWord_absent emptyState "spam"). simpl. tauto. Defined.

Lemma removeBadWord_present_witness :
  let s := stateOf (addBadWord "Spam" emptyState) in
  resultOf (removeBadWord "SPAM" s) = true
  /\ ~ In "spam" (badWords (stateOf (removeBadWord "SPAM" s))).
Proof.
  destruct (removeBadWord_present (stateOf (addBadWord "Spam" emptyState)) "SPAM")
    as (H1 & H2 & _).
  - simpl. now left.
  - split; [exact H1 | exact H2].
Defined.

Lemma add_then_remove_restores_witness :
  stateOf (removeBadWord "SPAM" (stateOf (addBadWord "Spam" emptyState))) = emptyState.
Proof.
  apply (add_then_remove_restores emptyState "Spam" "SPAM"); [reflexivity | simpl; tauto].
Defined.

Lemma containsBadWord_iff_witness :
  containsBadWord (setBadWords ["Spam"; "darn"] emptyState) "no SPAMMING, no DARNing" = true
  <-> exists word pre suf,
        In word ["Spam"; "darn"] /\ Js.toLowerCase word = word
        /\ "no spamming, no darning" = pre +:+ word +:+ suf.
Proof.
  apply (containsBadWord_iff (setBadWords ["Spam"; "darn"] emptyState)
           "no SPAMMING, no DARNing").
  reflexivity.
Defined.
(** ** The command-ban and mute ledgers *)

Section LedgerExtra.

Variable cfg : Config.
Variable w : World.

Implicit Types (s : State) (sender target : User).

Lemma isBanned_outcome now u s :
  isBanned now u s = (true, s, [])
  \/ (isBanned now u s = (false, s, []) /\ bannedUsers s !! u = None)
  \/ isBanned now u s
     = (false, setBanned (delete u (bannedUsers s)) s,
        [SaveBannedCommands (delete u (bannedUsers s))]).
Proof.
  unfold isBanned. rewrite run_getState.
  destruct (bannedUsers s !! u) as [r|]; [|right; left; split; reflexivity].
  destruct (truthy _ && gt _ _); [right; right | left]; reflexivity.
Qed.

Lemma isMuted_outcome now u s :
  isMuted now u s = (true, s, [])
  \/ (isMuted now u s = (false, s, []) /\ mutedUsers s !! u = None)
  \/ isMuted now u s
     = (false, setMuted (delete u (mutedUsers s)) s,
        [SaveMutedMessages (delete u (mutedUsers s))]).
Proof.
  unfold isMuted. rewrite run_getState.
  destruct (mutedUsers s !! u) as [r|]; [|right; left; split; reflexivity].
  destruct (gt _ _); [right; right | left]; reflexivity.
Qed.

(** what [!idban] does when it goes through *)
Lemma idban_goes_through sender target conv t s :
  hasPermission s (user_id sender) RMod = true ->
  isProtected s (user_id target) = false ->
  resultOf (isBanned (now w) (user_id target) s) = false ->
  bannedUsers (stateOf (handleIdBanCommand cfg w sender target conv t s))
  = <[user_id target := mkBanInfo None None]> (bannedUsers s)
  /\ In (SaveBannedCommands (<[user_id target := mkBanInfo None None]> (bannedUsers s)))
       (effectsOf (handleIdBanCommand cfg w sender target conv t s))
  /\ permissions (stateOf (handleIdBanCommand cfg w sender target conv t s)) = permissions s
  /\ mutedUsers (stateOf (handleIdBanCommand cfg w sender target conv t s)) = mutedUsers s.
Proof.
  intros Hmod Hprot Hnot. unfold handleIdBanCommand.
  rewrite run_getState, Hmod, Hprot. cbn [negb]. rewrite run_bind, Hnot.
  rewrite run_getState, run_putState, run_emit, !stateOf_mk, !effectsOf_mk, stateOf_reply.
  destruct (isBanned_outcome (now w) (user_id target) s) as [E | [[E Hnone] | E]];
    rewrite E in *; try discriminate Hnot;
    rewrite ?stateOf_mk, ?effectsOf_mk;
    cbn [bannedUsers setBanned permissions mutedUsers].
  - repeat split. now left.
  - rewrite insert_delete_eq. repeat split. right. now left.
Qed.

(** X9.  A command ban issued by a mod on a user who holds no role and is
    not banned at that moment is permanent: from then on the ban query
    answers [true] at every instant and never touches the record, which
    has been written to the store. *)
Theorem idban_is_permanent sender target conv t s :
  hasPermission s (user_id sender) RMod = true ->
  getRole s (user_id target) = RBasic ->
  resultOf (isBanned (now w) (user_id target) s) = false ->
  let s' := stateOf (handleIdBanCommand cfg w sender target conv t s) in
  (forall later, isBanned later (user_id target) s' = (true, s', []))
  /\ In (SaveBannedCommands (bannedUsers s'))
       (effectsOf (handleIdBanCommand cfg w sender target conv t s)).
Proof.
  intros Hmod Hbasic Hnot. cbv zeta.
  assert (Hprot : isProtected s (user_id target) = false)
    by (unfold isProtected; now rewrite Hbasic).
  destruct (idban_goes_through sender target conv t s Hmod Hprot Hnot) as (Hb & Hsave & _).
  split.
  - intros later. apply isBanned_no_duration with (r := mkBanInfo None None); [|reflexivity].
    rewrite Hb. apply lookup_insert_eq.
  - now rewrite Hb.
Qed.

(** X10.  A command ban on a user who had no record, followed by its
    lifting by a mod, gives back every registry as it was. *)
Theorem idban_then_idunban_restores sender sender' target conv t conv' t' s :
  hasPermission s (user_id sender) RMod = true ->
  hasPermission s (user_id sender') RMod = true ->
  getRole s (user_id target) = RBasic ->
  bannedUsers s !! user_id target = None ->
  stateOf (handleIdUnbanCommand cfg w sender' target conv' t'
             (stateOf (handleIdBanCommand cfg w sender target conv t s))) = s.
Proof.
  intros Hmod Hmod' Hbasic Hnone.
  assert (Hprot : isProtected s (user_id target) = false)
    by (unfold isProtected; now rewrite Hbasic).
  assert (Eq : isBanned (now w) (user_id target) s = (false, s, []))
    by (unfold isBanned; now rewrite run_getState, Hnone).
  assert (E1 : stateOf (handleIdBanCommand cfg w sender target conv t s)
               = setBanned (<[user_id target := mkBanInfo None None]> (bannedUsers s)) s).
  { unfold handleIdBanCommand.
    rewrite run_getState, Hmod, Hprot. cbn [negb]. rewrite run_bind, Eq, resultOf_mk.
    rewrite run_getState, run_putState, run_emit, !stateOf_mk, stateOf_reply. reflexivity. }
  rewrite E1. set (s1 := setBanned _ s).
  assert (Eq1 : isBanned (now w) (user_id target) s1 = (true, s1, [])).
  { apply isBanned_no_duration with (r := mkBanInfo None None); [|reflexivity].
    apply lookup_insert_eq. }
  unfold handleIdUnbanCommand. rewrite run_getState.
  change (hasPermission s1 (user_id sender') RMod) with (hasPermission s (user_id sender') RMod).
  rewrite Hmod'. cbn [negb]. rewrite run_bind, Eq1, resultOf_mk. cbn [negb].
  rewrite run_getState, run_putState, run_emit, !stateOf_mk, stateOf_reply.
  subst s1. cbn [bannedUsers setBanned].
  rewrite delete_insert_id by exact Hnone. destruct s. reflexivity.
Qed.

Lemma fifteen_whole : wholeMinutes 15.
Proof. exists 15%Z. split; [reflexivity | lia]. Qed.

Lemma fifteen_minutes_passed (issued later : Z) :
  deadlinePassed (mkBanInfo (Some issued) (Some 15%Q)) 15 later <-> (issued + 900000 < later)%Z.
Proof.
  unfold deadlinePassed, Qlt, Qplus, Qmult, inject_Z; simpl. lia.
Qed.

Lemma fifteen_minutes_not_passed (issued later : Z) :
  deadlineNotPassed (mkBanInfo (Some issued) (Some 15%Q)) 15 later
  <-> (later <= issued + 900000)%Z.
Proof.
  unfold deadlineNotPassed, Qle, Qplus, Qmult, inject_Z; simpl. lia.
Qed.

(** X11.  A mute issued by a mod on a user who holds no role and is not
    muted at that moment lasts fifteen minutes: up to and including
    900000 milliseconds after it was issued the mute query answers
    [true], and at any later instant it answers [false], drops the record
    and rewrites the store. *)
Theorem idmute_lasts_fifteen_minutes sender target conv t s :
  hasPermission s (user_id sender) RMod = true ->
  getRole s (user_id target) = RBasic ->
  resultOf (isMuted (now w) (user_id target) s) = false ->
  let s' := stateOf (handleIdMuteCommand cfg w sender target conv t s) in
  forall later,
    ((later <= now w + 900000)%Z -> isMuted later (user_id target) s' = (true, s', []))
    /\ ((now w + 900000 < later)%Z ->
        isMuted later (user_id target) s'
        = (false, setMuted (delete (user_id target) (mutedUsers s')) s',
           [SaveMutedMessages (delete (user_id target) (mutedUsers s'))])).
Proof.
  intros Hmod Hbasic Hnot. cbv zeta.
  assert (Hprot : isProtected s (user_id target) = false)
    by (unfold isProtected; now rewrite Hbasic).
  assert (Hrec : mutedUsers (stateOf (handleIdMuteCommand cfg w sender target conv t s))
                 !! user_id target = Some (mkBanInfo (Some (now w)) (Some 15%Q))).
  { unfold handleIdMuteCommand.
    rewrite run_getState, Hmod, Hprot. cbn [negb]. rewrite run_bind, Hnot.
    rewrite run_getState, run_putState, run_emit, !stateOf_mk, stateOf_reply.
    cbn [mutedUsers setMuted]. apply lookup_insert_eq. }
  intros later. split; intros Hlater.
  - apply (isMuted_live later _ _ _ 15 Hrec eq_refl fifteen_whole).
    now apply fifteen_minutes_not_passed.
  - apply (isMuted_expired later _ _ _ 15 Hrec eq_refl fifteen_whole).
    now apply fifteen_minutes_passed.
Qed.

(** X12.  Only a mod or an owner changes the ledgers: sent by anyone else,
    each of the four ledger commands leaves every registry as it was and
    only replies. *)
Theorem only_mods_update_ledgers (k : LedgerUpdate) sender target conv t s :
  hasPermission s (user_id sender) RMod = false ->
  stateOf (runLedgerUpdate cfg w k sender target conv t s) = s
  /\ forallb isSend (effectsOf (runLedgerUpdate cfg w k sender target conv t s)) = true.
Proof.
  intros Hno.
  destruct k; cbn [runLedgerUpdate];
    unfold handleIdBanCommand, handleIdUnbanCommand, handleIdMuteCommand,
      handleIdUnmuteCommand;
    rewrite run_getState, Hno; cbn [negb];
    (split; [apply stateOf_reply | apply reply_sends]).
Qed.

(** Lifting the mute of a user whose mute, of a whole number of
    minutes, has already run out answers that the user is not muted, and as a side effect of the check
    drops the stale record and rewrites the store once. *)
Theorem idunmute_after_expiry sender target conv t s (r : BanInfo) (d : Q) :
  hasPermission s (user_id sender) RMod = true ->
  mutedUsers s !! user_id target = Some r ->
  duration_minutes r = Some d ->
  wholeMinutes d ->
  deadlinePassed r d (now w) ->
  let s' := setMuted (delete (user_id target) (mutedUsers s)) s in
  handleIdUnmuteCommand cfg w sender target conv t s
  = (tt, s',
     SaveMutedMessages (delete (user_id target) (mutedUsers s))
     :: effectsOf (reply cfg sender ("@" +:+ user_name target +:+ " is not muted.") t conv s')).
Proof.
  intros Hmod Hrec Hd Hwhole Hpast. cbv zeta.
  unfold handleIdUnmuteCommand. rewrite run_getState, Hmod. cbn [negb].
  rewrite run_bind, (isMuted_expired _ _ _ _ _ Hrec Hd Hwhole Hpast).
  rewrite resultOf_mk, stateOf_mk, effectsOf_mk. cbn [negb].
  rewrite stateOf_reply. destruct (resultOf _). reflexivity.
Qed.

End LedgerExtra.

Lemma idban_is_permanent_witness :
  let s' := stateOf (handleIdBanCommand (sampleConfig true) room bob alice None Public staffed) in
  (forall later, isBanned later "u1" s' = (true, s', []))
  /\ In (SaveBannedCommands (bannedUsers s'))
       (effectsOf (handleIdBanCommand (sampleConfig true) room bob alice None Public staffed)).
Proof.
  apply (idban_is_permanent (sampleConfig true) room bob alice None Public staffed);
    reflexivity.
Defined.

Lemma idban_then_idunban_restores_witness :
  stateOf (handleIdUnbanCommand (sampleConfig true) room carol alice None Public
             (stateOf (handleIdBanCommand (sampleConfig true) room bob alice None Public
                         staffed))) = staffed.
Proof.
  apply (idban_then_idunban_restores (sampleConfig true) room bob carol alice None Public
           None Public staffed); reflexivity.
Defined.

Lemma idmute_lasts_fifteen_minutes_witness :
  let s' := stateOf (handleIdMuteCommand (sampleConfig true) (roomAt issuedAt) bob alice None
                       Public staffed) in
  isMuted deadline "u1" s' = (true, s', [])
  /\ isMuted (deadline + 1) "u1" s'
     = (false, setMuted (delete "u1" (mutedUsers s')) s',
        [SaveMutedMessages (delete "u1" (mutedUsers s'))]).
Proof.
  pose proof (idmute_lasts_fifteen_minutes (sampleConfig true) (roomAt issuedAt) bob alice
                None Public staffed eq_refl eq_refl eq_refl) as H.
  split.
  - apply (proj1 (H deadline)). vm_compute. discriminate.
  - apply (proj2 (H (deadline + 1)%Z)). reflexivity.
Defined.

Lemma only_mods_update_ledgers_witness :
  stateOf (runLedgerUpdate (sampleConfig true) room DoIdBan alice bob None Public emptyState)
  = emptyState
  /\ forallb isSend
       (effectsOf (runLedgerUpdate (sampleConfig true) room DoIdBan alice bob None Public
                     emptyState)) = true.
Proof.
  apply (only_mods_update_ledgers (sampleConfig true) room DoIdBan alice bob None Public
           emptyState). reflexivity.
Defined.

Lemma idunmute_after_expiry_witness :
  handleIdUnmuteCommand (sampleConfig true) (roomAt (deadline + 1)) bob alice None Public
    staffedMuted
  = (tt, setMuted (delete "u1" (mutedUsers staffedMuted)) staffedMuted,
     [SaveMutedMessages (delete "u1" (mutedUsers staffedMuted));
      MessageSend "@alice is not muted."]).
Proof.
  apply (idunmute_after_expiry (sampleConfig true) (roomAt (deadline + 1)) bob alice None
           Public staffedMuted fifteenMinutes 15);
    [reflexivity | reflexivity | reflexivity
    | exists 15%Z; split; [reflexivity | lia] | reflexivity].
Defined.
(** ** Freezing and the position guard *)

Section PositionExtra.

Variable cfg : Config.

Implicit Types (s : State) (w : World) (sender user : User).

Lemma setFrozen_same s : setFrozen (frozenUsers s) s = s.
Proof. destruct s. reflexivity. Qed.

(** what [!freeze] does when it goes through *)
Lemma freeze_goes_through w sender (targetUserId : UserId) (P : Position) s :
  usernameError w targetUserId = None ->
  getRole s targetUserId = RBasic ->
  targetUserId <> botId w ->
  playersPosition w targetUserId = Found P ->
  handleFreezeCommand w sender targetUserId s
  = (tt, setFrozen (<[targetUserId := P]> (frozenUsers s)) s,
     [SaveFrozenUsers (<[targetUserId := P]> (frozenUsers s));
      MessageSend ("@" +:+ user_name sender +:+ " " +:+ usernameOf w targetUserId
                   +:+ " has been frozen at their current location.")]).
Proof.
  intros Hname Hbasic Hbot Hpos. apply String.eqb_neq in Hbot.
  unfold handleFreezeCommand, withUsername. rewrite Hname, run_getState. unfold isProtected.
  rewrite Hbasic, Hbot, Hpos. reflexivity.
Qed.

(** when the room rejects the lookup of the name, [!freeze] does nothing *)
Lemma freeze_without_name w sender (targetUserId : UserId) s :
  usernameError w targetUserId <> None ->
  handleFreezeCommand w sender targetUserId s = (tt, s, []).
Proof.
  intros Hname. unfold handleFreezeCommand, withUsername.
  destruct (usernameError w targetUserId); [reflexivity | contradiction].
Qed.

(** X13.  Once a user without a role has been frozen (the room having
    answered the lookup of the user's name that opens the command), every
    later movement event of that user that leaves the tolerance is
    answered with one teleport back to the position the user had when the
    freeze was issued (the movement correction being switched on). *)
Theorem freeze_then_move_teleports_back w sender (targetUserId : UserId) (P : Position) s :
  mc_enabled (playerMovementTeleportCorrection (features cfg)) = true ->
  usernameError w targetUserId = None ->
  getRole s targetUserId = RBasic ->
  targetUserId <> botId w ->
  playersPosition w targetUserId = Found P ->
  let s' := stateOf (handleFreezeCommand w sender targetUserId s) in
  forall w' user newPosition,
    user_id user = targetUserId ->
    targetUserId <> botId w' ->
    movedFromLocked newPosition P = true ->
    playerMove cfg w' user newPosition s' = (tt, s', [Teleport targetUserId P]).
Proof.
  intros Hon Hname Hbasic Hbot Hpos. cbv zeta.
  rewrite (freeze_goes_through w sender targetUserId P s Hname Hbasic Hbot Hpos), stateOf_mk.
  intros w' user newPosition <- Hbot' Hmoved. apply String.eqb_neq in Hbot'.
  unfold playerMove. rewrite run_getState, Hon, Hbot'. cbn [negb andb frozenUsers setFrozen].
  rewrite lookup_insert_eq, Hmoved. reflexivity.
Qed.

(** X14.  Freezing a user who was not frozen and then unfreezing them
    gives back every registry as it was, the room answering the lookup of
    the user's name that the unfreezing makes; and unfreezing a user who
    is not frozen changes nothing and only says so. *)
Theorem freeze_then_unfreeze_restores w w' sender sender' (targetUserId : UserId)
    (P : Position) s :
  getRole s targetUserId = RBasic ->
  targetUserId <> botId w ->
  playersPosition w targetUserId = Found P ->
  frozenUsers s !! targetUserId = None ->
  (usernameError w' targetUserId = None ->
   stateOf (handleUnfreezeCommand w' sender' targetUserId
              (stateOf (handleFreezeCommand w sender targetUserId s))) = s)
  /\ handleUnfreezeCommand w' sender' targetUserId s
     = (tt, s, [MessageSend ("@" +:+ user_name sender' +:+ " User is not frozen.")]).
Proof.
  intros Hbasic Hbot Hpos Hnone.
  assert (Hnot : handleUnfreezeCommand w' sender' targetUserId s
                 = (tt, s, [MessageSend ("@" +:+ user_name sender' +:+ " User is not frozen.")])).
  { unfold handleUnfreezeCommand. rewrite run_getState, Hnone. reflexivity. }
  split; [|exact Hnot]. intros Hname'.
  destruct (usernameError w targetUserId) as [msg|] eqn:Hname.
  - rewrite freeze_without_name by (rewrite Hname; discriminate).
    rewrite stateOf_mk, Hnot. reflexivity.
  - rewrite (freeze_goes_through w sender targetUserId P s Hname Hbasic Hbot Hpos), stateOf_mk.
    unfold handleUnfreezeCommand, withUsername. rewrite run_getState. cbn [frozenUsers setFrozen].
    rewrite lookup_insert_eq, Hname', run_putState, run_emit, stateOf_mk.
    cbn [frozenUsers setFrozen]. rewrite delete_insert_id by exact Hnone.
    destruct s. reflexivity.
Qed.

(** X15.  A movement event never changes a registry and is answered with
    at most one call: a teleport of the user who moved, to the locked
    position when the user is frozen and to the reported position
    otherwise.  The bot's own movements are never answered. *)
Theorem playerMove_answers_with_one_teleport w user (newPosition : Position) s :
  stateOf (playerMove cfg w user newPosition s) = s
  /\ (effectsOf (playerMove cfg w user newPosition s) = []
      \/ (exists lockedPos,
             frozenUsers s !! user_id user = Some lockedPos
             /\ effectsOf (playerMove cfg w user newPosition s)
                = [Teleport (user_id user) lockedPos])
      \/ (frozenUsers s !! user_id user = None
          /\ effectsOf (playerMove cfg w user newPosition s)
             = [Teleport (user_id user) newPosition]))
  /\ (user_id user = botId w -> effectsOf (playerMove cfg w user newPosition s) = []).
Proof.
  unfold playerMove. rewrite run_getState.
  destruct (mc_enabled _); cbn [andb];
    [|split; [reflexivity | split; [now left | reflexivity]]].
  destruct (String.eqb (user_id user) (botId w)) eqn:Ebot; cbn [negb];
    [split; [reflexivity | split; [now left | reflexivity]]|].
  apply String.eqb_neq in Ebot.
  destruct (frozenUsers s !! user_id user) as [lockedPos|] eqn:Ef.
  - destruct (movedFromLocked newPosition lockedPos).
    + split; [reflexivity | split; [|contradiction]].
      right; left. now exists lockedPos.
    + split; [reflexivity | split; [now left | contradiction]].
  - destruct (cachePosition w (user_id user)) as [lastKnownPos|].
    + destruct (significantMove cfg newPosition lastKnownPos).
      * split; [reflexivity | split; [|contradiction]]. right; right. now split.
      * split; [reflexivity | split; [now left | contradiction]].
    + split; [reflexivity | split; [now left | contradiction]].
Qed.

End PositionExtra.

Lemma freeze_then_move_teleports_back_witness :
  let s' := stateOf (handleFreezeCommand room bob "u1" staffed) in
  playerMove (sampleConfig true) room alice (mkPosition 1 0 0 "FrontRight") s'
  = (tt, s', [Teleport "u1" origin]).
Proof.
  apply (freeze_then_move_teleports_back (sampleConfig true) room bob "u1" origin staffed);
    try reflexivity; intros H; discriminate H.
Defined.

Lemma freeze_then_unfreeze_restores_witness :
  stateOf (handleUnfreezeCommand room carol "u1"
             (stateOf (handleFreezeCommand room bob "u1" staffed))) = staffed
  /\ handleUnfreezeCommand room carol "u1" staffed
     = (tt, staffed, [MessageSend "@carol User is not frozen."]).
Proof.
  destruct (freeze_then_unfreeze_restores room room bob carol "u1" origin staffed)
    as [Hback Hnot]; try reflexivity; [intros H; discriminate H|].
  split; [apply Hback; reflexivity | exact Hnot].
Defined.
(** ** Replies and long messages *)

Section ReplyExtra.

Variable cfg : Config.

Implicit Types (s : State) (user : User) (text line : string).

Lemma substring_length (n : nat) text :
  String.length (String.substring 0 n text) = Nat.min n (String.length text).
Proof.
  revert text. induction n as [|n IH]; intros [|c text]; simpl; try reflexivity.
  now rewrite IH.
Qed.

(** the text that [reply] sends *)
Lemma reply_text user text t conv s (e : Effect) :
  In e (effectsOf (reply cfg user text t conv s)) ->
  sentText e
  = Some (match limitOf cfg t with
          | Some L =>
              if negb (L =? -1)%Z && (L <? Z.of_nat (String.length text))%Z
              then String.substring 0 (Z.to_nat (L - 3)) text +:+ "..."
              else text
          | None => text
          end).
Proof.
  unfold reply, limitOf.
  destruct t; cbn [effectsOf snd emit].
  - intros [<- | []]. reflexivity.
  - destruct conv as [c|]; [|intros []].
    destruct (String.eqb c ""); [intros []|]. intros [<- | []].
    destruct (limit_dm (messageLimits cfg)); reflexivity.
  - intros [<- | []]. destruct (limit_whisper (messageLimits cfg)); reflexivity.
Qed.

(** X16.  A reply by direct message or whisper whose kind of chat has a
    length limit [L] (other than -1) is never longer than [L], or than 3
    when [L] is below 3: a text within the limit goes out unchanged, a
    longer one is cut to its first [L - 3] characters followed by three
    dots.  Public replies and kinds without a limit are never cut. *)
Theorem reply_respects_limit user text t conv s (e : Effect) :
  In e (effectsOf (reply cfg user text t conv s)) ->
  exists sent,
    sentText e = Some sent
    /\ (forall L, limitOf cfg t = Some L -> L <> (-1)%Z ->
          (Z.of_nat (String.length sent) <= Z.max L 3)%Z
          /\ ((Z.of_nat (String.length text) <= L)%Z -> sent = text)
          /\ ((L < Z.of_nat (String.length text))%Z ->
              sent = String.substring 0 (Z.to_nat (L - 3)) text +:+ "..."))
    /\ (limitOf cfg t = None -> sent = text).
Proof.
  intros Hin. eexists. split; [exact (reply_text _ _ _ _ _ _ Hin)|]. split.
  - intros L HL Hne. rewrite HL.
    apply Z.eqb_neq in Hne. rewrite Hne. cbn [negb andb].
    destruct (L <? Z.of_nat (String.length text))%Z eqn:E.
    + apply Z.ltb_lt in E. split; [|split; [lia | reflexivity]].
      rewrite length_append, substring_length. simpl String.length. lia.
    + apply Z.ltb_ge in E. split; [lia | split; [reflexivity | lia]].
  - intros HL. now rewrite HL.
Qed.

End ReplyExtra.

Section LongSayExtra.

Variable cfg : Config.
Variable w : World.

Implicit Types (s : State) (user : User) (text line word cur : string)
  (lines ws : list string).

Lemma splitOnSpace_nonempty text : JsText.splitOnSpace text <> [].
Proof.
  destruct text as [|c r]; simpl; [discriminate|].
  destruct (Ascii.eqb c " "); [discriminate|].
  destruct (JsText.splitOnSpace r); discriminate.
Qed.

(** the words of a text, put together again with single spaces, are the
    text *)
Lemma splitOnSpace_concat text : String.concat " " (JsText.splitOnSpace text) = text.
Proof.
  induction text as [|c r IH]; [reflexivity|]. cbn [JsText.splitOnSpace].
  pose proof (splitOnSpace_nonempty r) as Hne.
  destruct (Ascii.eqb c " ") eqn:E.
  - apply Ascii.eqb_eq in E. subst c.
    destruct (JsText.splitOnSpace r) as [|t ts]; [contradiction|].
    change (String.concat " " ("" :: t :: ts)) with (" " +:+ String.concat " " (t :: ts)).
    now rewrite IH.
  - destruct (JsText.splitOnSpace r) as [|t ts]; [contradiction|].
    rewrite <- IH. destruct ts; reflexivity.
Qed.

Lemma splitOnSpace_spaceFree text :
  Forall (fun word => spaceFree word = true) (JsText.splitOnSpace text).
Proof.
  induction text as [|c r IH]; cbn [JsText.splitOnSpace]; [repeat constructor|].
  destruct (Ascii.eqb c " ") eqn:E; [constructor; [reflexivity | exact IH]|].
  destruct (JsText.splitOnSpace r) as [|t ts]; [repeat constructor; simpl; now rewrite E|].
  inversion IH; subst. constructor; [simpl; now rewrite E | assumption].
Qed.

Lemma splitOnSpace_blank text :
  onlySpaces text = true <-> Forall (fun word => word = "") (JsText.splitOnSpace text).
Proof.
  induction text as [|c r IH]; cbn [JsText.splitOnSpace onlySpaces].
  - split; [repeat constructor | reflexivity].
  - destruct (Ascii.eqb c " "); cbn [andb].
    + rewrite IH. split; [now constructor | now inversion 1].
    + split; [discriminate|].
      destruct (JsText.splitOnSpace r); inversion 1; discriminate.
Qed.

Lemma truthy_iff word : JsText.truthy word = true <-> word <> "".
Proof. unfold JsText.truthy. rewrite negb_true_iff. apply String.eqb_neq. Qed.

Lemma truthy_false word : JsText.truthy word = false <-> word = "".
Proof. unfold JsText.truthy. rewrite negb_false_iff. apply String.eqb_eq. Qed.

Lemma addWord_fits ws0 lines cur word :
  In word ws0 -> Forall (fits ws0) lines -> fits ws0 cur ->
  Forall (fits ws0) (fst (addWord (lines, cur) word)) /\ fits ws0 (snd (addWord (lines, cur) word)).
Proof.
  intros Hw Hl Hc. unfold addWord.
  destruct (_ <=? MAX_MESSAGE_LENGTH)%nat eqn:E; cbn [fst snd].
  - split; [exact Hl|]. left. apply Nat.leb_le in E.
    rewrite !length_append.
    destruct (JsText.truthy cur) eqn:Et; [simpl String.length; lia|].
    apply truthy_false in Et. subst cur. simpl. simpl in E. lia.
  - split; [|now right]. apply Forall_app. split; [exact Hl | now constructor].
Qed.

Lemma fold_addWord_fits ws0 ws lines cur :
  (forall word, In word ws -> In word ws0) ->
  Forall (fits ws0) lines -> fits ws0 cur ->
  Forall (fits ws0) (fst (fold_left addWord ws (lines, cur)))
  /\ fits ws0 (snd (fold_left addWord ws (lines, cur))).
Proof.
  revert lines cur. induction ws as [|word ws IH]; intros lines cur Hsub Hl Hc.
  - now split.
  - cbn [fold_left].
    destruct (addWord_fits ws0 lines cur word (Hsub _ (or_introl eq_refl)) Hl Hc) as [Hl' Hc'].
    destruct (addWord (lines, cur) word) as [lines' cur']. apply IH; auto.
    intros x Hx. apply Hsub. now right.
Qed.

(** as long as only empty words have come, nothing has been collected *)
Lemma fold_addWord_blank ws :
  Forall (fun word => word = "") ws -> fold_left addWord ws ([], "") = ([], "").
Proof.
  induction 1 as [|word ws -> _ IH]; [reflexivity | exact IH].
Qed.

(** once something has been collected, something stays collected *)
Lemma addWord_collected lines cur word :
  lines <> [] \/ cur <> "" ->
  fst (addWord (lines, cur) word) <> [] \/ snd (addWord (lines, cur) word) <> "".
Proof.
  intros H. unfold addWord.
  destruct (_ <=? MAX_MESSAGE_LENGTH)%nat; cbn [fst snd].
  - destruct H as [H | H]; [now left | right].
    destruct cur; [contradiction | discriminate].
  - left. destruct lines; discriminate.
Qed.

Lemma fold_addWord_collected ws lines cur :
  lines <> [] \/ cur <> "" ->
  fst (fold_left addWord ws (lines, cur)) <> []
  \/ snd (fold_left addWord ws (lines, cur)) <> "".
Proof.
  revert lines cur. induction ws as [|word ws IH]; intros lines cur H; [exact H|].
  cbn [fold_left]. apply (addWord_collected lines cur word) in H.
  destruct (addWord (lines, cur) word) as [lines' cur']. now apply IH.
Qed.

Lemma addWord_first word :
  word <> "" ->
  fst (addWord ([], "") word) <> [] \/ snd (addWord ([], "") word) <> "".
Proof.
  intros Hne. unfold addWord. cbn [JsText.truthy String.eqb negb].
  destruct (_ <=? MAX_MESSAGE_LENGTH)%nat; cbn [fst snd]; [right; exact Hne | left; discriminate].
Qed.

Lemma fold_addWord_nonblank ws :
  ~ Forall (fun word => word = "") ws ->
  fst (fold_left addWord ws ([], "")) <> [] \/ snd (fold_left addWord ws ([], "")) <> "".
Proof.
  induction ws as [|word ws IH]; intros Hnot; [exfalso; apply Hnot; constructor|].
  destruct (String.eqb word "") eqn:E.
  - apply String.eqb_eq in E. subst word. apply IH. intros H. apply Hnot. now constructor.
  - apply String.eqb_neq in E. cbn [fold_left]. apply addWord_first in E.
    destruct (addWord ([], "") word) as [lines' cur']. now apply fold_addWord_collected.
Qed.

(** the lines of a text that is not made of spaces only: what the loop
    collected, without the fallback *)
Lemma longSayLines_collected text :
  onlySpaces text = false ->
  longSayLines text
  = fst (fold_left addWord (JsText.splitOnSpace text) ([], ""))
    ++ (if JsText.truthy (snd (fold_left addWord (JsText.splitOnSpace text) ([], "")))
        then [snd (fold_left addWord (JsText.splitOnSpace text) ([], ""))] else [])
  /\ longSayLines text <> [].
Proof.
  intros Hns. unfold longSayLines.
  assert (Hnb : ~ Forall (fun word => word = "") (JsText.splitOnSpace text)).
  { intros H. apply splitOnSpace_blank in H. congruence. }
  apply fold_addWord_nonblank in Hnb.
  destruct (fold_left addWord (JsText.splitOnSpace text) ([], "")) as [lines cur].
  cbn [fst snd] in *.
  destruct (JsText.truthy cur) eqn:Et.
  - rewrite length_app. cbn [length]. replace (length lines + 1 =? 0)%nat with false
      by (symmetry; apply Nat.eqb_neq; lia).
    split; [reflexivity | destruct lines; discriminate].
  - apply truthy_false in Et. subst cur. destruct Hnb as [Hnb | Hnb]; [|contradiction].
    destruct lines as [|l lines]; [contradiction|]. rewrite app_nil_r.
    split; [reflexivity | discriminate].
Qed.

Lemma longSayLines_blank text :
  onlySpaces text = true -> longSayLines text = if String.eqb text "" then [] else [text].
Proof.
  intros Hb. unfold longSayLines.
  rewrite (fold_addWord_blank _ (proj1 (splitOnSpace_blank text) Hb)).
  destruct text; reflexivity.
Qed.

(** X17.  Every line into which a long text is cut is at most 120
    characters long, or is a single word of the text (a piece without any
    space, longer than that), or is the whole text when it consists of
    spaces only. *)
Theorem longSay_lines_within_limit text line :
  In line (longSayLines text) ->
  String.length line <= 120
  \/ (In line (JsText.splitOnSpace text) /\ spaceFree line = true)
  \/ (line = text /\ onlySpaces text = true).
Proof.
  intros Hin. destruct (onlySpaces text) eqn:Hb.
  - rewrite (longSayLines_blank _ Hb) in Hin.
    destruct (String.eqb text ""); [destruct Hin|]. destruct Hin as [<- | []].
    right; right. now split.
  - destruct (longSayLines_collected _ Hb) as [E _]. rewrite E in Hin.
    destruct (fold_addWord_fits (JsText.splitOnSpace text) (JsText.splitOnSpace text) [] "")
      as [Hl Hc]; [auto | constructor | left; simpl; unfold MAX_MESSAGE_LENGTH; lia|].
    assert (Hfit : fits (JsText.splitOnSpace text) line).
    { apply in_app_or in Hin as [Hin | Hin].
      - rewrite List.Forall_forall in Hl. now apply Hl.
      - destruct (JsText.truthy _); [destruct Hin as [<- | []]; exact Hc | destruct Hin]. }
    destruct Hfit as [Hlen | Hword]; [now left|]. right; left. split; [exact Hword|].
    pose proof (splitOnSpace_spaceFree text) as Hsf.
    rewrite List.Forall_forall in Hsf. now apply Hsf.
Qed.

(** [longSayLines] is the lines of the loop, with the fallback *)
Lemma longSayLines_fallback text :
  longSayLines text = if fallbackFires text then [text] else collectedLines text.
Proof.
  unfold longSayLines, fallbackFires, collectedLines.
  destruct (fold_left addWord (JsText.splitOnSpace text) ([], "")) as [lines cur].
  destruct (if JsText.truthy cur then lines ++ [cur] else lines) as [|l ls]; [|reflexivity].
  cbn [length Nat.eqb andb]. destruct (0 <? String.length text)%nat; reflexivity.
Qed.

Lemma collectedLines_blank text : onlySpaces text = true -> collectedLines text = [].
Proof.
  intros Hb. unfold collectedLines.
  rewrite (fold_addWord_blank _ (proj1 (splitOnSpace_blank text) Hb)). reflexivity.
Qed.

Lemma collectedLines_nonblank text : onlySpaces text = false -> collectedLines text <> [].
Proof.
  intros Hns. unfold collectedLines.
  assert (Hnb : ~ Forall (fun word => word = "") (JsText.splitOnSpace text)).
  { intros H. apply splitOnSpace_blank in H. congruence. }
  apply fold_addWord_nonblank in Hnb.
  destruct (fold_left addWord (JsText.splitOnSpace text) ([], "")) as [lines cur].
  cbn [fst snd] in Hnb. destruct (JsText.truthy cur) eqn:Et.
  - destruct lines; discriminate.
  - apply truthy_false in Et. subst cur. destruct Hnb as [Hnb | Hnb]; [exact Hnb | contradiction].
Qed.

Lemma splitOnSpace_word text : spaceFree text = true -> JsText.splitOnSpace text = [text].
Proof.
  induction text as [|c r IH]; [reflexivity|]. cbn [spaceFree JsText.splitOnSpace].
  destruct (Ascii.eqb c " "); [discriminate|]. cbn [negb andb]. intros H.
  now rewrite (IH H).
Qed.

(** X18.  The fallback of [!longsay], which sends the whole text as one
    line when the loop over the words left no line, fires exactly for the
    texts that are not empty and consist of spaces only.  It never fires
    for a single word, however long: a word of more than 120 characters
    goes out as a line of its own, after an empty line.  No line at all is
    left exactly when the text is empty, and the command then answers that
    no text was provided. *)
Theorem longSay_blank_text user t conv s text :
  (fallbackFires text = true <-> text <> "" /\ onlySpaces text = true)
  /\ longSayLines text = (if fallbackFires text then [text] else collectedLines text)
  /\ (spaceFree text = true -> 120 < String.length text ->
      fallbackFires text = false /\ longSayLines text = [""; text])
  /\ (longSayLines text = [] <-> text = "")
  /\ (enableLongMessageSend (features cfg) = true ->
      handleLongSayCommand cfg w user "" t conv s
      = reply cfg user "No text provided for !longsay." t conv s).
Proof.
  assert (Hfires : fallbackFires text = true <-> text <> "" /\ onlySpaces text = true).
  { unfold fallbackFires. rewrite andb_true_iff, Nat.eqb_eq, Nat.ltb_lt. split.
    - intros [Hlen Htext]. split; [intros ->; simpl in Htext; lia|].
      destruct (onlySpaces text) eqn:Hb; [reflexivity|].
      apply collectedLines_nonblank in Hb. destruct (collectedLines text); [contradiction|].
      discriminate Hlen.
    - intros [Hne Hb]. rewrite (collectedLines_blank _ Hb). split; [reflexivity|].
      destruct text; [contradiction | simpl; lia]. }
  split; [exact Hfires|]. split; [apply longSayLines_fallback|]. split; [|split].
  - intros Hword Hlong.
    assert (Hline : collectedLines text = [""; text]).
    { unfold collectedLines. rewrite (splitOnSpace_word _ Hword). cbn [fold_left]. unfold addWord.
      cbn [JsText.truthy String.eqb negb Nat.add].
      replace (String.length text <=? MAX_MESSAGE_LENGTH)%nat with false
        by (symmetry; apply Nat.leb_gt; exact Hlong).
      destruct text as [|c r]; [simpl in Hlong; lia | reflexivity]. }
    assert (Hno : fallbackFires text = false).
    { unfold fallbackFires. now rewrite Hline. }
    split; [exact Hno|]. rewrite longSayLines_fallback, Hno. exact Hline.
  - rewrite longSayLines_fallback. split.
    + intros Hnil. destruct (fallbackFires text) eqn:Hf; [discriminate Hnil|].
      destruct (onlySpaces text) eqn:Hb.
      * destruct text as [|c r]; [reflexivity|]. exfalso.
        assert (H : false = true) by (apply Hfires; now split). discriminate H.
      * now apply collectedLines_nonblank in Hb.
    + intros ->. reflexivity.
  - intros Hon. unfold handleLongSayCommand. rewrite Hon. reflexivity.
Qed.

Lemma append_assoc (a b c : string) : (a +:+ b) +:+ c = a +:+ (b +:+ c).
Proof.
  induction a as [|x a IH]; [reflexivity|].
  change (String x ((a +:+ b) +:+ c) = String x (a +:+ (b +:+ c))). now rewrite IH.
Qed.

Lemma concat_app (sep : string) (l1 l2 : list string) :
  l1 <> [] -> l2 <> [] ->
  String.concat sep (l1 ++ l2) = String.concat sep l1 +:+ sep +:+ String.concat sep l2.
Proof.
  intros H1 H2. induction l1 as [|a l1 IH]; [contradiction|].
  destruct l1 as [|b l1].
  - destruct l2; [contradiction | reflexivity].
  - change (String.concat sep ((a :: b :: l1) ++ l2))
      with (a +:+ sep +:+ String.concat sep ((b :: l1) ++ l2)).
    rewrite IH by discriminate.
    change (String.concat sep (a :: b :: l1)) with (a +:+ sep +:+ String.concat sep (b :: l1)).
    now rewrite !append_assoc.
Qed.

Lemma concat_cons (sep x : string) (l : list string) :
  l <> [] -> String.concat sep (x :: l) = x +:+ sep +:+ String.concat sep l.
Proof. destruct l; [contradiction | reflexivity]. Qed.

Lemma snoc_nonempty {A} (l : list A) (x : A) : l ++ [x] <> [].
Proof. destruct l; discriminate. Qed.

(** one more word, after a chunk has been opened: the lines and the chunk,
    joined by single spaces, gain a space and the word *)
Lemma addWord_joined lines cur word :
  cur <> "" -> word <> "" ->
  snd (addWord (lines, cur) word) <> ""
  /\ String.concat " " (fst (addWord (lines, cur) word) ++ [snd (addWord (lines, cur) word)])
     = String.concat " " (lines ++ [cur]) +:+ " " +:+ word.
Proof.
  intros Hc Hw. unfold addWord.
  apply truthy_iff in Hc as Ht. rewrite Ht.
  destruct (_ <=? MAX_MESSAGE_LENGTH)%nat; cbn [fst snd].
  - split; [destruct cur; [contradiction | discriminate]|].
    destruct lines as [|l lines]; [reflexivity|].
    rewrite !(concat_app " " (l :: lines)) by discriminate.
    change (String.concat " " [?x]) with x. now rewrite !append_assoc.
  - split; [exact Hw|].
    now rewrite (concat_app " " (lines ++ [cur]) [word]) by (apply snoc_nonempty || discriminate).
Qed.

Lemma fold_addWord_joined ws lines cur :
  cur <> "" -> Forall (fun word => word <> "") ws ->
  snd (fold_left addWord ws (lines, cur)) <> ""
  /\ String.concat " " (fst (fold_left addWord ws (lines, cur))
                        ++ [snd (fold_left addWord ws (lines, cur))])
     = String.concat " " (String.concat " " (lines ++ [cur]) :: ws).
Proof.
  revert lines cur. induction ws as [|word ws IH]; intros lines cur Hc Hall.
  - now split.
  - inversion Hall as [|? ? Hw Hws]; subst. cbn [fold_left].
    destruct (addWord_joined lines cur word Hc Hw) as [Hc' Hj].
    destruct (addWord (lines, cur) word) as [lines' cur']. cbn [fst snd] in *.
    destruct (IH lines' cur' Hc' Hws) as [Hc2 Hj2]. split; [exact Hc2|].
    rewrite Hj2, Hj.
    destruct ws as [|v ws]; [reflexivity|].
    rewrite !concat_cons by discriminate. now rewrite !append_assoc.
Qed.

(** lines already pushed stay where they are *)
Lemma fold_addWord_prefix ws lines cur :
  exists more, fst (fold_left addWord ws (lines, cur)) = lines ++ more.
Proof.
  revert lines cur. induction ws as [|word ws IH]; intros lines cur.
  - exists []. now rewrite app_nil_r.
  - cbn [fold_left]. unfold addWord at 2.
    destruct (_ <=? MAX_MESSAGE_LENGTH)%nat.
    + apply IH.
    + destruct (IH (lines ++ [cur]) word) as [more E]. exists (cur :: more).
      rewrite E, <- app_assoc. reflexivity.
Qed.

(** the lines of a text all of whose words are non-empty *)
Lemma longSayLines_joined text first rest :
  JsText.splitOnSpace text = first :: rest ->
  Forall (fun word => word <> "") (first :: rest) ->
  exists lines cur,
    longSayLines text
    = (if (String.length first <=? MAX_MESSAGE_LENGTH)%nat then [] else [""]) ++ lines ++ [cur]
    /\ String.concat " " (lines ++ [cur]) = text.
Proof.
  intros Hsplit Hall. inversion Hall as [|? ? Hf Hrest]; subst.
  pose proof (splitOnSpace_concat text) as Htext. rewrite Hsplit in Htext.
  unfold longSayLines. rewrite Hsplit. cbn [fold_left]. unfold addWord at 2.
  cbn [JsText.truthy String.eqb negb Nat.add].
  destruct (String.length first <=? MAX_MESSAGE_LENGTH)%nat.
  - change ("" +:+ "" +:+ first) with first.
    destruct (fold_addWord_joined rest [] first Hf Hrest) as [Hc Hj].
    destruct (fold_left addWord rest ([], first)) as [lines cur]. cbn [fst snd] in *.
    apply truthy_iff in Hc. rewrite Hc, length_app. cbn [length].
    replace (length lines + 1 =? 0)%nat with false by (symmetry; apply Nat.eqb_neq; lia).
    exists lines, cur. split; [reflexivity|]. now rewrite Hj.
  - change ([] ++ [""]) with [""].
    destruct (fold_addWord_joined rest [""] first Hf Hrest) as [Hc Hj].
    destruct (fold_addWord_prefix rest [""] first) as [more Hmore].
    destruct (fold_left addWord rest ([""], first)) as [lines cur]. cbn [fst snd] in *.
    subst lines. apply truthy_iff in Hc. rewrite Hc, length_app. cbn [length app].
    exists more, cur. split; [reflexivity|].
    change (String.concat " " ([""] ++ [first])) with (" " +:+ first) in Hj.
    change (([""] ++ more) ++ [cur]) with ("" :: (more ++ [cur])) in Hj.
    rewrite concat_cons in Hj by apply snoc_nonempty.
    change ("" +:+ " " +:+ ?x) with (" " +:+ x) in Hj.
    assert (Hinj : String.concat " " ((" " +:+ first) :: rest) = " " +:+ String.concat " " (first :: rest)).
    { destruct rest; reflexivity. }
    rewrite Hinj, Htext in Hj. now injection Hj.
Qed.

(** X19.  When the words of a text are separated by single spaces (no
    empty word) and its first word is at most 120 characters long, the
    lines, joined again by single spaces, are the text: cutting loses and
    adds nothing. *)
Theorem longSay_lines_round_trip text :
  Forall (fun word => word <> "") (JsText.splitOnSpace text) ->
  String.length (hd "" (JsText.splitOnSpace text)) <= 120 ->
  String.concat " " (longSayLines text) = text.
Proof.
  intros Hall Hfirst.
  destruct (JsText.splitOnSpace text) as [|first rest] eqn:Hsplit;
    [now apply splitOnSpace_nonempty in Hsplit|].
  destruct (longSayLines_joined text first rest Hsplit Hall) as (lines & cur & E & Hj).
  cbn [hd] in Hfirst. apply Nat.leb_le in Hfirst.
  unfold MAX_MESSAGE_LENGTH in E. rewrite Hfirst in E. now rewrite E.
Qed.

(** a word over the limit is never merged into a chunk: it stays a line
    of its own *)
Lemma fold_addWord_keeps x ws lines cur :
  MAX_MESSAGE_LENGTH < String.length x ->
  In x lines \/ cur = x ->
  In x (fst (fold_left addWord ws (lines, cur)))
  \/ snd (fold_left addWord ws (lines, cur)) = x.
Proof.
  intros Hx. revert lines cur. induction ws as [|word ws IH]; intros lines cur H; [exact H|].
  cbn [fold_left]. unfold addWord at 2 4.
  destruct (_ <=? MAX_MESSAGE_LENGTH)%nat eqn:E; apply IH.
  - destruct H as [H | ->]; [now left | exfalso].
    apply Nat.leb_le in E. destruct x as [|c x]; [simpl in Hx; lia|].
    cbn [JsText.truthy String.eqb negb] in E. lia.
  - left. apply in_or_app. destruct H as [H | ->]; [now left | right; now left].
Qed.

(** X20.  When the first word of a text is longer than 120 characters the
    first line is empty: the loop pushes the still empty chunk before it
    opens one with the word, which then follows as a line of its own.  With
    words separated by single spaces, the lines after the empty one, joined
    by spaces, are the text. *)
Theorem longSay_long_first_word text :
  120 < String.length (hd "" (JsText.splitOnSpace text)) ->
  exists rest,
    longSayLines text = "" :: rest
    /\ In (hd "" (JsText.splitOnSpace text)) rest
    /\ (Forall (fun word => word <> "") (JsText.splitOnSpace text) ->
        String.concat " " rest = text).
Proof.
  intros Hfirst.
  destruct (JsText.splitOnSpace text) as [|first ws] eqn:Hsplit;
    [now apply splitOnSpace_nonempty in Hsplit|].
  cbn [hd] in Hfirst.
  assert (Hleb : (String.length first <=? MAX_MESSAGE_LENGTH)%nat = false).
  { apply Nat.leb_gt. exact Hfirst. }
  assert (Hne : first <> "") by (intros ->; simpl in Hfirst; lia).
  assert (Hlines : exists rest, longSayLines text = "" :: rest /\ In first rest).
  { unfold longSayLines. rewrite Hsplit. cbn [fold_left]. unfold addWord at 2.
    cbn [JsText.truthy String.eqb negb Nat.add]. rewrite Hleb.
    change ([] ++ [""]) with [""].
    destruct (fold_addWord_prefix ws [""] first) as [more Hmore].
    destruct (fold_addWord_keeps first ws [""] first Hfirst (or_intror eq_refl)) as [Hk | Hk].
    - destruct (fold_left addWord ws ([""], first)) as [lines cur]. cbn [fst snd] in *.
      subst lines. destruct Hk as [Hk | Hk]; [now symmetry in Hk|].
      exists (more ++ (if JsText.truthy cur then [cur] else [])).
      split; [|apply in_or_app; now left].
      destruct (JsText.truthy cur); [reflexivity | now rewrite app_nil_r].
    - destruct (fold_left addWord ws ([""], first)) as [lines cur]. cbn [fst snd] in *.
      subst lines cur. apply truthy_iff in Hne. rewrite Hne.
      exists (more ++ [first]). split; [reflexivity | apply in_or_app; right; now left]. }
  destruct Hlines as (rest & E & Hin). exists rest. split; [exact E|]. split; [exact Hin|].
  intros Hall.
  destruct (longSayLines_joined text first ws Hsplit Hall) as (lines & cur & E' & Hj).
  rewrite Hleb, E in E'. injection E' as ->. exact Hj.
Qed.

(** the sending loop in the public chat, every send going through *)
Lemma sendLines_public user conv lines s :
  (forall line, In line lines -> actionError w (MessageSend line) = None) ->
  sendLines cfg w user Public conv lines s = (tt, s, map MessageSend lines).
Proof.
  induction lines as [|line lines IH]; intros Hok; [reflexivity|].
  cbn [sendLines]. rewrite run_emit, (Hok line (or_introl eq_refl)).
  rewrite IH by (intros l Hl; apply Hok; now right). reflexivity.
Qed.

(** the sending loop in the public chat, up to the first send that is
    rejected *)
Lemma sendLines_public_refused user conv before bad after msg s :
  (forall line, In line before -> actionError w (MessageSend line) = None) ->
  actionError w (MessageSend bad) = Some msg ->
  sendLines cfg w user Public conv (before ++ bad :: after) s
  = (tt, s, map MessageSend before
            ++ [MessageSend bad; MessageSend "Failed to send part of the message."]).
Proof.
  intros Hok Hbad. induction before as [|line before IH]; cbn [app sendLines].
  - rewrite run_emit, Hbad. reflexivity.
  - rewrite run_emit, (Hok line (or_introl eq_refl)).
    rewrite IH by (intros l Hl; apply Hok; now right). reflexivity.
Qed.

(** X21.  With long messages switched on, a non-empty text sent to the
    public chat goes out line by line, in order, and nothing else happens;
    at the first line the room refuses, the sender is told that part of the
    message failed and the remaining lines are not sent. *)
Theorem longSay_public_sends_in_order user text conv s :
  enableLongMessageSend (features cfg) = true ->
  text <> "" ->
  ((forall line, In line (longSayLines text) -> actionError w (MessageSend line) = None) ->
   handleLongSayCommand cfg w user text Public conv s
   = (tt, s, map MessageSend (longSayLines text)))
  /\ (forall before bad after msg,
        longSayLines text = before ++ bad :: after ->
        (forall line, In line before -> actionError w (MessageSend line) = None) ->
        actionError w (MessageSend bad) = Some msg ->
        handleLongSayCommand cfg w user text Public conv s
        = (tt, s, map MessageSend before
                  ++ [MessageSend bad; MessageSend "Failed to send part of the message."])).
Proof.
  intros Hon Hne.
  assert (Hrun : handleLongSayCommand cfg w user text Public conv s
                 = sendLines cfg w user Public conv (longSayLines text) s).
  { unfold handleLongSayCommand. rewrite Hon. cbn [negb].
    destruct text; [contradiction|]. cbn [String.length Nat.eqb]. now rewrite andb_false_r. }
  rewrite Hrun. split.
  - apply sendLines_public.
  - intros before bad after msg -> Hok Hbad. now apply sendLines_public_refused with msg.
Qed.

End LongSayExtra.

Lemma reply_respects_limit_witness :
  exists sent,
    sentText (DirectSend "c1" "You do ...") = Some sent
    /\ (forall L, limitOf chattyConfig Dm = Some L -> L <> (-1)%Z ->
          (Z.of_nat (String.length sent) <= Z.max L 3)%Z
          /\ ((Z.of_nat (String.length "You do not have permission.") <= L)%Z
              -> sent = "You do not have permission.")
          /\ ((L < Z.of_nat (String.length "You do not have permission."))%Z ->
              sent = String.substring 0 (Z.to_nat (L - 3)) "You do not have permission."
                     +:+ "..."))
    /\ (limitOf chattyConfig Dm = None -> sent = "You do not have permission.").
Proof.
  apply (reply_respects_limit chattyConfig alice "You do not have permission." Dm
           (Some "c1") emptyState (DirectSend "c1" "You do ...")).
  left. reflexivity.
Defined.

Lemma longSay_lines_within_limit_witness :
  String.length longWord <= 120
  \/ (In longWord (JsText.splitOnSpace ("tell them " +:+ longWord))
      /\ spaceFree longWord = true)
  \/ (longWord = "tell them " +:+ longWord /\ onlySpaces ("tell them " +:+ longWord) = true).
Proof.
  apply (longSay_lines_within_limit ("tell them " +:+ longWord) longWord).
  vm_compute. right. left. reflexivity.
Defined.

Lemma longSay_blank_text_witness :
  (fallbackFires longWord = false /\ longSayLines longWord = [""; longWord])
  /\ handleLongSayCommand chattyConfig room alice "" Public None emptyState
     = reply chattyConfig alice "No text provided for !longsay." Public None emptyState.
Proof.
  destruct (longSay_blank_text chattyConfig room alice Public None emptyState longWord)
    as (_ & _ & Hword & _ & Hempty).
  split.
  - apply Hword; [reflexivity | vm_compute; lia].
  - apply Hempty. reflexivity.
Defined.

Lemma longSay_lines_round_trip_witness :
  String.concat " " (longSayLines ("tell them " +:+ longWord +:+ " twice"))
  = "tell them " +:+ longWord +:+ " twice".
Proof.
  apply (longSay_lines_round_trip ("tell them " +:+ longWord +:+ " twice")).
  - vm_compute. repeat constructor; discriminate.
  - vm_compute. lia.
Defined.

Lemma longSay_long_first_word_witness :
  exists rest,
    longSayLines (longWord +:+ " twice") = "" :: rest
    /\ In (hd "" (JsText.splitOnSpace (longWord +:+ " twice"))) rest
    /\ (Forall (fun word => word <> "") (JsText.splitOnSpace (longWord +:+ " twice")) ->
        String.concat " " rest = longWord +:+ " twice").
Proof.
  apply (longSay_long_first_word (longWord +:+ " twice")).
  vm_compute. lia.
Defined.

Lemma longSay_public_sends_in_order_witness :
  handleLongSayCommand chattyConfig (roomRefusing longWord) alice
    ("tell them " +:+ longWord +:+ " twice") Public None staffed
  = (tt, staffed,
     [MessageSend "tell them"; MessageSend longWord;
      MessageSend "Failed to send part of the message."]).
Proof.
  destruct (longSay_public_sends_in_order chattyConfig (roomRefusing longWord) alice
              ("tell them " +:+ longWord +:+ " twice") None staffed) as [_ H].
  - reflexivity.
  - discriminate.
  - apply (H ["tell them"] longWord ["twice"] "rate limited").
    + vm_compute. reflexivity.
    + intros line [<- | []]. reflexivity.
    + reflexivity.
Defined.

(** ** Whispers and the emote of the whole room *)

Section WhisperEmoteExtra.

Variable cfg : Config.
Variable w : World.

Implicit Types (s : State) (user : User).

(** the loop of [!all]: one call for each player but the bot, in the
    order of the roster; the count grows by the calls that went through *)
Lemma emoteEach_run emoteId (players : list (User * Position)) (count : nat) s :
  emoteEach w emoteId players count s
  = ((count + length (List.filter (emoteAccepted w emoteId) (emoteTargets w players)))%nat, s,
     map (fun i => PlayerEmote i emoteId) (emoteTargets w players)).
Proof.
  revert count. induction players as [|[user pos] players IH]; intros count.
  - cbn. now rewrite Nat.add_0_r.
  - cbn [emoteEach]. unfold emoteTargets. cbn [map List.filter fst].
    fold (emoteTargets w players).
    destruct (String.eqb (user_id user) (botId w)); cbn [negb]; [apply IH|].
    rewrite run_emit. cbn [List.filter map]. unfold emoteAccepted at 1.
    destruct (actionError w (PlayerEmote (user_id user) emoteId));
      rewrite IH, resultOf_mk, stateOf_mk, effectsOf_mk; cbn [length]; f_equal; f_equal; lia.
Qed.

(** X22.  [!all <emote>] with a known emote makes every player of the
    room but the bot emote, once each and in the order of the roster, and
    then reports in the public chat the number of players for whom the
    call went through; it changes no registry. *)
Theorem allEmote_reaches_everyone_but_bot rosterError sender emoteName emoteDef players s :
  lookupEmote cfg emoteName = Some emoteDef ->
  emote_id emoteDef <> "" ->
  playersGet w = Some players ->
  handleAllEmoteCommand cfg w rosterError sender emoteName s
  = (tt, s,
     map (fun i => PlayerEmote i (emote_id emoteDef)) (emoteTargets w players)
     ++ [MessageSend
           ("@" +:+ user_name sender +:+ " Made "
            +:+ JsText.numberToString
                  (length (List.filter (emoteAccepted w (emote_id emoteDef))
                             (emoteTargets w players)))
            +:+ " users perform '" +:+ emoteName +:+ "'.")]).
Proof.
  intros Hdef Hid Hroom. apply String.eqb_neq in Hid.
  unfold handleAllEmoteCommand. rewrite Hdef, Hid, Hroom.
  rewrite run_bind, emoteEach_run, resultOf_mk, stateOf_mk, effectsOf_mk. reflexivity.
Qed.

Ltac finish_whisper :=
  repeat split; try reflexivity;
  unfold effectsOf, reply, emit, mret, M_ret;
  cbn [snd app forallb List.filter isLedgerSave isWhisperTo orb andb length];
  rewrite ?String.eqb_refl; cbn [orb andb List.filter length forallb]; (reflexivity || lia).

(** X23.  A whisper never runs a command and never touches the roles, the
    forbidden words or the frozen positions, whoever sends it: all the bot
    does is write a ledger from which the sender's expired record has just
    been dropped, and whisper back to the sender, at most once. *)
Theorem whisper_only_whispers_back user message s :
  let r := whisperCreate cfg w user message s in
  permissions (stateOf r) = permissions s
  /\ badWords (stateOf r) = badWords s
  /\ frozenUsers (stateOf r) = frozenUsers s
  /\ forallb (fun e => isLedgerSave e || isWhisperTo (user_id user) e) (effectsOf r) = true
  /\ length (List.filter (isWhisperTo (user_id user)) (effectsOf r)) <= 1.
Proof.
  cbv zeta. unfold whisperCreate.
  destruct (String.eqb (user_id user) (botId w)); [finish_whisper|].
  rewrite run_bind.
  destruct (isMuted_outcome (now w) (user_id user) s) as [E | [[E _] | E]]; rewrite E;
    rewrite ?resultOf_mk, ?stateOf_mk, ?effectsOf_mk; [finish_whisper | |].
  all: rewrite run_bind;
    match goal with
    | |- context [isBanned ?n ?u ?s0] =>
        destruct (isBanned_outcome n u s0) as [E' | [[E' _] | E']]; rewrite E'
    end;
    rewrite ?resultOf_mk, ?stateOf_mk, ?effectsOf_mk; [finish_whisper | |].
  all: destruct (Js.startsWith message (botPrefix cfg));
    [|destruct (aiReplyInWhispers (features cfg))]; finish_whisper.
Qed.

End WhisperEmoteExtra.

Lemma allEmote_reaches_everyone_but_bot_witness :
  handleAllEmoteCommand (sampleConfig true) roomBobStiff "" carol "wave" staffed
  = (tt, staffed,
     [PlayerEmote "u2" "emote-wave"; PlayerEmote "u3" "emote-wave";
      MessageSend "@carol Made 1 users perform 'wave'."]).
Proof.
  apply (allEmote_reaches_everyone_but_bot (sampleConfig true) roomBobStiff "" carol "wave"
           wave roster staffed); [reflexivity | discriminate | reflexivity].
Defined.

(** ** The chat handlers, end to end *)

Section RouterExtra.

Variable cfg : Config.
Variable w : World.

Implicit Types (s : State) (user : User).

(** the checks on the sender touch the two ledgers only *)
Lemma gate_keeps u s :
  permissions (stateOf (senderIgnored w u s)) = permissions s
  /\ badWords (stateOf (senderIgnored w u s)) = badWords s
  /\ frozenUsers (stateOf (senderIgnored w u s)) = frozenUsers s
  /\ forallb isLedgerSave (effectsOf (senderIgnored w u s)) = true.
Proof.
  unfold senderIgnored. rewrite run_bind.
  destruct (isMuted_outcome (now w) u s) as [E | [[E _] | E]]; rewrite E;
    rewrite ?resultOf_mk, ?stateOf_mk, ?effectsOf_mk; [repeat split | |].
  all: match goal with
       | |- context [isBanned ?n ?v ?s0] =>
           destruct (isBanned_outcome n v s0) as [E' | [[E' _] | E']]; rewrite E'
       end; repeat split.
Qed.

Lemma hasPermission_ext s s' u r :
  permissions s' = permissions s -> hasPermission s' u r = hasPermission s u r.
Proof. intros H. unfold hasPermission, getRole. now rewrite H. Qed.

Lemma containsBadWord_ext s s' t :
  badWords s' = badWords s -> containsBadWord s' t = containsBadWord s t.
Proof. intros H. unfold containsBadWord. now rewrite H. Qed.

(** behind checks that stop the sender, no handler goes any further *)
Lemma stopped_at_gate (body : M unit) u s :
  resultOf (senderIgnored w u s) = true ->
  (muted ← isMuted (now w) u;
   if (muted : bool) then mret tt else
   banned ← isBanned (now w) u;
   if (banned : bool) then mret tt else body) s
  = (tt, stateOf (senderIgnored w u s), effectsOf (senderIgnored w u s)).
Proof.
  unfold senderIgnored. rewrite !run_bind.
  destruct (resultOf (isMuted (now w) u s)) eqn:Em.
  - intros _. cbn [mret M_ret]. rewrite !stateOf_mk, !effectsOf_mk. reflexivity.
  - rewrite resultOf_mk, stateOf_mk, effectsOf_mk, run_bind. intros Hb. rewrite Hb.
    cbn [mret M_ret]. rewrite !stateOf_mk, !effectsOf_mk, app_nil_r. reflexivity.
Qed.

(** X24.  A sender who is muted or command-banned at the time of the
    message gets no answer in any channel, whatever the message and
    whatever role the sender holds: public chat, direct message and
    whisper all end at the check, having at most written a ledger from
    which an expired record was dropped. *)
Theorem ignored_sender_gets_no_answer user conv message s :
  user_id user <> botId w ->
  resultOf (senderIgnored w (user_id user) s) = true ->
  let gate := senderIgnored w (user_id user) s in
  chatCreate cfg w user message s = (tt, stateOf gate, effectsOf gate)
  /\ messageCreate cfg w (user_id user) conv message s = (tt, stateOf gate, effectsOf gate)
  /\ whisperCreate cfg w user message s = (tt, stateOf gate, effectsOf gate)
  /\ forallb isLedgerSave (effectsOf gate) = true
  /\ permissions (stateOf gate) = permissions s.
Proof.
  intros Hbot Hgate. apply String.eqb_neq in Hbot. cbv zeta.
  unfold chatCreate, messageCreate, whisperCreate. rewrite Hbot.
  rewrite !(stopped_at_gate _ _ _ Hgate).
  repeat split; apply gate_keeps.
Qed.

(** X25.  Once a word is on the list of forbidden words, every public
    message that contains it, in whatever case, is answered with the
    warning and nothing else: no command in it runs, whoever sends it.
    The word and the message are texts of ASCII characters. *)
Theorem forbidden_word_stops_public_message user word message s s1 e1 :
  isAscii word = true ->
  isAscii message = true ->
  user_id user <> botId w ->
  senderIgnored w (user_id user) (stateOf (addBadWord word s)) = (false, s1, e1) ->
  containsIgnoringCase message word ->
  chatCreate cfg w user message (stateOf (addBadWord word s))
  = (tt, s1,
     e1 ++ [MessageSend ("@" +:+ user_name user +:+ " Warning: You used a forbidden word."
                         +:+ " Please refrain from using such language.")]).
Proof.
  intros _ _ Hbot Hgate Hin. apply String.eqb_neq in Hbot.
  rewrite (chatCreate_behind_gate cfg w user message _ s1 e1 Hbot Hgate).
  assert (Hbad : containsBadWord s1 message = true).
  { rewrite (containsBadWord_ext (stateOf (addBadWord word s))).
    - apply containsBadWord_of_member with word; [apply addBadWord_member | exact Hin].
    - pose proof (gate_keeps (user_id user) (stateOf (addBadWord word s))) as (_ & Hw & _).
      now rewrite Hgate, stateOf_mk in Hw. }
  unfold publicMessage. rewrite run_getState, Hbad. reflexivity.
Qed.

(** the un-prefixed [emote @user] form, when it takes the message, runs
    the emote: its test of the basic role cannot fail *)
Lemma bareEmoteAt_shape s user text (m : M unit) :
  bareEmoteAt cfg w s user text = Some m ->
  exists emoteCommand targetUsername players target,
    Js.matchEmoteRegex text = Some (emoteCommand, targetUsername)
    /\ is_Some (lookupEmote cfg emoteCommand)
    /\ playersGet w = Some players
    /\ findPlayer players targetUsername = Some target
    /\ m = emit (Call (SingleEmoteCommand (user_id target) emoteCommand)).
Proof.
  unfold bareEmoteAt.
  destruct (Js.matchEmoteRegex text) as [[emoteCommand targetUsername]|]; [|discriminate].
  destruct (lookupEmote cfg emoteCommand) as [def|] eqn:Hdef; [|discriminate].
  destruct (playersGet w) as [players|]; [|discriminate].
  destruct (findPlayer players targetUsername) as [target|] eqn:Hfind; [|discriminate].
  cbn [hasPermission]. intros [= <-].
  exists emoteCommand, targetUsername, players, target. repeat split; eauto.
Qed.

Ltac no_call H :=
  unfold say, emit, effectsOf in H; cbn [snd] in H;
  repeat (destruct H as [H | H]; [discriminate H|]); destruct H.

(** what stands between a public message and a handler *)
Lemma publicMessage_calls user message (h : HandlerCall) s :
  In (Call h) (effectsOf (publicMessage cfg w user message s)) ->
  containsBadWord s message = false
  /\ ((exists target emoteName, h = SingleEmoteCommand target emoteName)
      \/ (exists emoteName, h = EmoteLoopCommand user emoteName)
      \/ (allowedInPublic cfg (fst (parseCommand cfg message)) = true
          /\ hasPermission s (user_id user) (requiredRole cfg (fst (parseCommand cfg message)))
             = true)).
Proof.
  unfold publicMessage. rewrite run_getState.
  destruct (containsBadWord s message); [intros H; no_call H|].
  intros H. split; [reflexivity|]. revert H.
  destruct (bareEmoteAt cfg w s user (Js.toLowerCase message)) as [m|] eqn:Hat.
  { apply bareEmoteAt_shape in Hat as (e & _ & _ & target & _ & _ & _ & _ & ->).
    intros [H | []]. injection H as <-. left. eauto. }
  destruct (bareEmoteLoop cfg (Js.toLowerCase message)) as [emoteName|].
  { intros [H | []]. injection H as <-. right. left. eauto. }
  destruct (Js.startsWith (Js.toLowerCase message) (botPrefix cfg)); cbn [negb];
    [|intros []].
  unfold publicCommand. destruct (parseCommand cfg message) as [command args]. cbn [fst].
  destruct (resolveTarget w args) eqn:Hres; try (intros H; no_call H).
  all: destruct (allowedInPublic cfg command); cbn [negb]; [|intros H; no_call H].
  all: rewrite run_getState;
    destruct (hasPermission s (user_id user) (requiredRole cfg command)); cbn [negb];
    [|intros H; no_call H].
  all: intros _; right; right; repeat split.
Qed.

(** what stands between a direct message and a handler, or a change of
    the forbidden words *)
Lemma directMessage_calls u conv message (h : HandlerCall) s :
  In (Call h) (effectsOf (directMessage cfg w u conv message s))
  \/ badWords (stateOf (directMessage cfg w u conv message s)) <> badWords s ->
  allowedInDm cfg (fst (parseCommand cfg message)) = true
  /\ hasPermission s u (requiredRole cfg (fst (parseCommand cfg message))) = true.
Proof.
  unfold directMessage.
  destruct (Js.startsWith message (botPrefix cfg)); cbn [negb andb].
  2: { destruct (aiReplyInWhispers (features cfg));
       (intros [H | H]; [no_call H | now contradiction H]). }
  unfold dmCommand. destruct (parseCommand cfg message) as [command args]. cbn [fst].
  destruct (resolveTarget w args) eqn:Hres;
    try (intros [H | H]; [no_call H | now contradiction H]).
  all: destruct (allowedInDm cfg command); cbn [negb];
    [|intros [H | H]; [no_call H | now contradiction H]].
  all: rewrite run_getState; cbn [dmUser user_id];
    destruct (hasPermission s u (requiredRole cfg command)); cbn [negb];
    [|intros [H | H]; [no_call H | now contradiction H]].
  all: intros _; split; reflexivity.
Qed.

Lemma gate_quiet u s (h : HandlerCall) :
  ~ In (Call h) (effectsOf (senderIgnored w u s)).
Proof.
  intros Hin. pose proof (gate_keeps u s) as (_ & _ & _ & Hsave).
  rewrite forallb_forall in Hsave. now apply Hsave in Hin.
Qed.

(** X26.  No handler is called on a public message that contains a
    forbidden word.  On any other public message a handler is called only
    by one of the two un-prefixed emote forms, or for a command that is in
    scope for the public chat and whose sender holds the role the
    configuration requires for it.  By direct message a handler is called,
    or the list of forbidden words changed, only for a command in scope
    for direct messages whose sender holds the required role. *)
Theorem dispatch_requires_scope_and_role user conv message (h : HandlerCall) s :
  (In (Call h) (effectsOf (chatCreate cfg w user message s)) ->
   containsBadWord s message = false
   /\ ((exists target emoteName, h = SingleEmoteCommand target emoteName)
       \/ (exists emoteName, h = EmoteLoopCommand user emoteName)
       \/ (allowedInPublic cfg (fst (parseCommand cfg message)) = true
           /\ hasPermission s (user_id user)
                (requiredRole cfg (fst (parseCommand cfg message))) = true)))
  /\ (In (Call h) (effectsOf (messageCreate cfg w (user_id user) conv message s))
      \/ badWords (stateOf (messageCreate cfg w (user_id user) conv message s)) <> badWords s ->
      allowedInDm cfg (fst (parseCommand cfg message)) = true
      /\ hasPermission s (user_id user) (requiredRole cfg (fst (parseCommand cfg message)))
         = true).
Proof.
  pose proof (gate_keeps (user_id user) s) as (Hperm & Hwords & _ & _).
  pose proof (gate_quiet (user_id user) s h) as Hquiet.
  unfold chatCreate, messageCreate.
  destruct (String.eqb (user_id user) (botId w)).
  { split; [intros [] | intros [[] | H]; now contradiction H]. }
  destruct (senderIgnored w (user_id user) s) as [[b s1] e1] eqn:Hgate.
  rewrite stateOf_mk in Hperm, Hwords. rewrite effectsOf_mk in Hquiet.
  destruct b.
  - rewrite !stopped_at_gate by (now rewrite Hgate). rewrite Hgate, stateOf_mk, effectsOf_mk.
    split; [intros H; now apply Hquiet in H|].
    intros [H | H]; [now apply Hquiet in H | now contradiction H].
  - rewrite !(behind_gate w _ _ s s1 e1 Hgate), !effectsOf_mk, !stateOf_mk. split.
    + intros H. apply in_app_or in H as [H | H]; [now apply Hquiet in H|].
      apply publicMessage_calls in H as [Hb H].
      rewrite <- (containsBadWord_ext s s1) by assumption. split; [exact Hb|].
      destruct H as [H | [H | [Hs Hr]]]; [now left | now right; left|].
      right; right. rewrite <- (hasPermission_ext s s1) by assumption. now split.
    + intros H. rewrite <- (hasPermission_ext s s1) by assumption.
      apply (directMessage_calls (user_id user) conv message h s1).
      destruct H as [H | H]; [left | right; now rewrite Hwords].
      apply in_app_or in H as [H | H]; [now apply Hquiet in H | exact H].
Qed.

(** X27.  Anyone whom the bot listens to can make any player of the room
    emote by typing the emote's name and [@name] in public chat: neither
    the scope lists nor a role stand in the way, and the player's own
    role does not protect them. *)
Theorem bare_emote_reaches_any_player user message emoteCommand targetUsername
    emoteDef players target s s1 e1 :
  user_id user <> botId w ->
  senderIgnored w (user_id user) s = (false, s1, e1) ->
  containsBadWord s message = false ->
  Js.matchEmoteRegex (Js.toLowerCase message) = Some (emoteCommand, targetUsername) ->
  lookupEmote cfg emoteCommand = Some emoteDef ->
  emote_id emoteDef <> "" ->
  playersGet w = Some players ->
  findPlayer players targetUsername = Some target ->
  chatCreate cfg w user message s
  = (tt, s1, e1 ++ [Call (SingleEmoteCommand (user_id target) emoteCommand)])
  /\ handleSingleEmoteCommand cfg (user_id target) emoteCommand s1
     = (tt, s1, [PlayerEmote (user_id target) (emote_id emoteDef)]).
Proof.
  intros Hbot Hgate Hbad Hmatch Hdef Hid Hroom Hfind.
  apply String.eqb_neq in Hbot. apply String.eqb_neq in Hid.
  pose proof (gate_keeps (user_id user) s) as (_ & Hwords & _ & _).
  rewrite Hgate, stateOf_mk in Hwords.
  rewrite (chatCreate_behind_gate cfg w user message s s1 e1 Hbot Hgate). split.
  - unfold publicMessage. rewrite run_getState, (containsBadWord_ext s s1), Hbad by assumption.
    unfold bareEmoteAt. rewrite Hmatch, Hdef, Hroom, Hfind. reflexivity.
  - unfold handleSingleEmoteCommand. rewrite Hdef, Hid. reflexivity.
Qed.

End RouterExtra.

Lemma ignored_sender_gets_no_answer_witness :
  let gate := senderIgnored (roomAt issuedAt) "u3" ownerMuted in
  chatCreate (sampleConfig true) (roomAt issuedAt) carol "!k @alice" ownerMuted
  = (tt, stateOf gate, effectsOf gate)
  /\ messageCreate (sampleConfig true) (roomAt issuedAt) "u3" "c1" "!k @alice" ownerMuted
     = (tt, stateOf gate, effectsOf gate)
  /\ whisperCreate (sampleConfig true) (roomAt issuedAt) carol "!k @alice" ownerMuted
     = (tt, stateOf gate, effectsOf gate)
  /\ forallb isLedgerSave (effectsOf gate) = true
  /\ permissions (stateOf gate) = permissions ownerMuted.
Proof.
  apply (ignored_sender_gets_no_answer (sampleConfig true) (roomAt issuedAt) carol "c1"
           "!k @alice" ownerMuted).
  - discriminate.
  - reflexivity.
Defined.

Lemma forbidden_word_stops_public_message_witness :
  chatCreate (sampleConfig true) room carol "!k @alice you DARN pest"
    (stateOf (addBadWord "Darn" staffed))
  = (tt, stateOf (addBadWord "Darn" staffed),
     [MessageSend ("@carol Warning: You used a forbidden word."
                   +:+ " Please refrain from using such language.")]).
Proof.
  apply (forbidden_word_stops_public_message (sampleConfig true) room carol "Darn"
           "!k @alice you DARN pest" staffed (stateOf (addBadWord "Darn" staffed)) []).
  - reflexivity.
  - reflexivity.
  - discriminate.
  - reflexivity.
  - exists "!k @alice you ", "DARN", " pest". split; reflexivity.
Defined.

Lemma dispatch_requires_scope_and_role_witness :
  allowedInDm (sampleConfig true) (fst (parseCommand (sampleConfig true) "!addowner @bob")) = true
  /\ hasPermission staffed "u3"
       (requiredRole (sampleConfig true) (fst (parseCommand (sampleConfig true) "!addowner @bob")))
     = true.
Proof.
  apply (proj2 (dispatch_requires_scope_and_role (sampleConfig true) room carol "c1"
                  "!addowner @bob" (AddOwnerCommand (dmUser room "u3") (mkUser "u2" "bob") "c1")
                  staffed)).
  left. left. reflexivity.
Defined.

Lemma bare_emote_reaches_any_player_witness :
  chatCreate (sampleConfig true) room alice "Wave  @Carol" staffed
  = (tt, staffed, [Call (SingleEmoteCommand "u3" "wave")])
  /\ handleSingleEmoteCommand (sampleConfig true) "u3" "wave" staffed
     = (tt, staffed, [PlayerEmote "u3" "emote-wave"]).
Proof.
  apply (bare_emote_reaches_any_player (sampleConfig true) room alice "Wave  @Carol" "wave"
           "carol" wave roster carol staffed staffed []);
    try reflexivity; discriminate.
Defined.

(** ** Emote loops, stopped between two ticks *)

Section EmoteLoopExtra.

Import EmoteLoops.

Variable cfg : Config.
Variable userId : UserId.

Implicit Types (st : Sched) (c : Closure) (k : Cont).

Lemma keeps_id : keeps userId (fun st => st).
Proof. intros st H. now split. Qed.

Lemma keeps_comp (f g : Sched -> Sched) : keeps userId g -> keeps userId f -> keeps userId (fun st => f (g st)).
Proof.
  intros Hg Hf st H. destruct (Hg st H) as [H1 E1]. destruct (Hf _ H1) as [H2 E2].
  split; [exact H2 | congruence].
Qed.

Lemma emotesOf_snoc_other (es : list Effect) (e : Effect) :
  emotesOf userId [e] = [] -> emotesOf userId (es ++ [e]) = emotesOf userId es.
Proof. intros H. unfold emotesOf in *. now rewrite List.filter_app, H, app_nil_r. Qed.

Lemma keeps_send text : keeps userId (send text).
Proof.
  intros st H. split; [exact H|]. unfold send. cbn [trace]. now apply emotesOf_snoc_other.
Qed.

Lemma keeps_suspend k : ownedBy userId k = false -> keeps userId (suspend k).
Proof.
  intros Hk st (Hl & Ht & Hs). split; [|reflexivity].
  split; [exact Hl | split; [exact Ht|]]. unfold suspend. cbn [suspended].
  apply Forall_app. split; [exact Hs | now constructor].
Qed.

Lemma keeps_cancelLoop v : keeps userId (cancelLoop v).
Proof.
  intros st (Hl & Ht & Hs). unfold cancelLoop.
  destruct (emoteLoops st !! v) as [entry|]; [|now repeat split].
  split; [|reflexivity]. split; [|split; [|exact Hs]]; cbn [emoteLoops timers].
  - apply lookup_delete_None. now right.
  - intros t c H. apply lookup_delete_Some in H as [_ H]. eauto.
Qed.

Lemma keeps_startLoop (user : User) emoteName :
  String.eqb (user_id user) userId = false -> keeps userId (startLoop cfg user emoteName).
Proof.
  intros Hu. unfold startLoop.
  destruct (lookupEmote cfg emoteName) as [emoteDef|]; [|apply keeps_send].
  destruct (String.eqb (emote_id emoteDef) ""); [apply keeps_send|].
  apply (keeps_comp (send _) (performEmote _)); [|apply keeps_send].
  apply keeps_suspend. exact Hu.
Qed.

Lemma keeps_if (b : bool) (f g : Sched -> Sched) :
  keeps userId f -> keeps userId g -> keeps userId (fun st => if b then f st else g st).
Proof. destruct b; auto. Qed.

Lemma keeps_handleEmoteLoopCommand (user : User) emoteName :
  String.eqb (user_id user) userId = false -> keeps userId (handleEmoteLoopCommand cfg user emoteName).
Proof.
  intros Hu st H. unfold handleEmoteLoopCommand.
  destruct (hasLoop (user_id user) st); [|now apply keeps_startLoop].
  apply (keeps_comp (fun st => suspend _ (send _ st)) (cancelLoop _)); [apply keeps_cancelLoop| |exact H].
  apply (keeps_comp (suspend _) (send _)); [apply keeps_send | now apply keeps_suspend].
Qed.

Lemma keeps_handleStopEmoteCommand (user : User) : keeps userId (handleStopEmoteCommand user).
Proof.
  intros st H. unfold handleStopEmoteCommand.
  destruct (hasLoop (user_id user) st); [|now apply keeps_send].
  apply (keeps_comp (send _) (cancelLoop _)); [apply keeps_cancelLoop | apply keeps_send | exact H].
Qed.

Lemma keeps_rearm c :
  String.eqb (user_id (cl_user c)) userId = false -> keeps userId (rearm c).
Proof.
  intros Hc st (Hl & Ht & Hs). apply String.eqb_neq in Hc.
  split; [|reflexivity]. unfold rearm. split; [|split; [|exact Hs]]; cbn [emoteLoops timers].
  - rewrite lookup_insert_ne by exact Hc. exact Hl.
  - intros t c' H. apply lookup_insert_Some in H as [[_ <-] | [_ H]]; eauto.
Qed.

Lemma keeps_resume k r : ownedBy userId k = false -> keeps userId (resume cfg k r).
Proof.
  intros Hk. destruct k as [user emoteName | c | c], r as [players|]; cbn [resume ownedBy] in *;
    try apply keeps_id.
  - now apply keeps_startLoop.
  - intros st H. cbn [resume].
    destruct (existsb (fun p => String.eqb (user_id p) (user_id (cl_user c))) players);
      [|now apply keeps_cancelLoop].
    destruct H as (Hl & Ht & Hs).
    match goal with
    | |- context [suspend _ ?st1] =>
        destruct (keeps_suspend (AfterEmote c) Hk st1) as [Hq E]; [now repeat split|]
    end.
    split; [exact Hq|]. rewrite E. cbn [trace].
    apply emotesOf_snoc_other. unfold emotesOf. cbn [List.filter]. now rewrite Hk.
  - now apply keeps_rearm.
  - intros st H. cbn [resume].
    destruct (hasLoop (user_id (cl_user c)) st); [|now apply keeps_id].
    apply (keeps_comp (send _) (cancelLoop _)); [apply keeps_cancelLoop | apply keeps_send | exact H].
Qed.

(** no event but a start by the user brings their loop back *)
Lemma keeps_step (ev : Event) : startsFor userId ev = false -> keeps userId (fun st => step cfg st ev).
Proof.
  intros Hev st H. destruct ev as [user emoteName | user | user | t | k r]; cbn [step startsFor] in *.
  - now apply keeps_handleEmoteLoopCommand.
  - now apply keeps_handleStopEmoteCommand.
  - now apply keeps_cancelLoop.
  - destruct (timers st !! t) as [c|] eqn:Hc; [|now apply keeps_id].
    destruct H as (Hl & Ht & Hs).
    assert (Hk : ownedBy userId (AfterRoster c) = false).
    { cbn [ownedBy]. apply String.eqb_neq. eauto. }
    match goal with
    | |- context [performEmote _ ?st1] => apply (keeps_suspend _ Hk st1)
    end. split; [|split; [|exact Hs]]; cbn [emoteLoops timers]; [exact Hl|].
    intros t' c' H'. apply lookup_delete_Some in H' as [_ H']. eauto.
  - destruct (suspended st !! k) as [c|] eqn:Hc; [|now apply keeps_id].
    destruct H as (Hl & Ht & Hs).
    assert (Hk : ownedBy userId c = false).
    { rewrite Forall_lookup in Hs. eauto. }
    match goal with
    | |- context [resume _ _ _ ?st1] => apply (keeps_resume _ r Hk st1)
    end. split; [exact Hl | split; [exact Ht|]]. cbn [suspended].
    apply Forall_app. split; [now apply Forall_take | now apply Forall_drop].
Qed.

Lemma keeps_run (evs : list Event) :
  forallb (fun ev => negb (startsFor userId ev)) evs = true ->
  keeps userId (fun st => run cfg st evs).
Proof.
  induction evs as [|ev evs IH]; cbn [forallb]; [intros _; apply keeps_id|].
  intros H. apply andb_true_iff in H as [Hev Hevs]. apply negb_true_iff in Hev.
  apply (keeps_comp (fun st => run cfg st evs) (fun st => step cfg st ev));
    [now apply keeps_step | now apply IH].
Qed.

(** stopping between two ticks leaves nothing of the loop *)
Lemma stop_between_ticks (user : User) st (ev : Event) :
  user_id user = userId ->
  betweenTicks userId st ->
  ev = EvStop user \/ ev = EvLeave user ->
  quiet userId (step cfg st ev)
  /\ emotesOf userId (trace (step cfg st ev)) = emotesOf userId (trace st).
Proof.
  intros Hu (entry & Hentry & Honly & Hs) Hev.
  assert (Hcancel : quiet userId (cancelLoop userId st)
                    /\ trace (cancelLoop userId st) = trace st).
  { unfold cancelLoop. rewrite Hentry. split; [|reflexivity].
    split; [|split; [|exact Hs]]; cbn [emoteLoops timers].
    - apply lookup_delete_eq.
    - intros t c H Hc. apply lookup_delete_Some in H as [Hne H]. apply Hne. symmetry. eauto. }
  destruct Hcancel as [Hq Ht].
  destruct Hev as [-> | ->]; cbn [step].
  2: { rewrite Hu. split; [exact Hq | now rewrite Ht]. }
  - unfold handleStopEmoteCommand, hasLoop. rewrite Hu, Hentry, bool_decide_eq_true_2 by eauto.
    destruct (keeps_send ("@" +:+ user_name user +:+ " Your emote loop has been stopped.")
                _ Hq) as [Hq' E].
    split; [exact Hq' | now rewrite E, Ht].
Qed.

(** X28.  A loop that is stopped with [!stop], or whose user leaves the
    room, while it waits between two ticks is over for good: whatever
    happens afterwards, short of the user starting a loop again, no emote
    is played on the user any more, and nothing of the loop comes back. *)
Theorem stopped_loop_stays_stopped (user : User) st (ev : Event) (evs : list Event) :
  user_id user = userId ->
  betweenTicks userId st ->
  ev = EvStop user \/ ev = EvLeave user ->
  forallb (fun ev => negb (startsFor userId ev)) evs = true ->
  quiet userId (run cfg (step cfg st ev) evs)
  /\ emotesOf userId (trace (run cfg (step cfg st ev) evs)) = emotesOf userId (trace st).
Proof.
  intros Hu Hidle Hev Hevs.
  destruct (stop_between_ticks user st ev Hu Hidle Hev) as [Hq E].
  destruct (keeps_run evs Hevs _ Hq) as [Hq' E']. split; [exact Hq' | congruence].
Qed.

End EmoteLoopExtra.

Section EmoteLoopIsolation.

Import EmoteLoops.

Variable cfg : Config.

Implicit Types (st : Sched) (c : Closure) (k : Cont).

Lemma consistent_send text st : timersConsistent st -> timersConsistent (send text st).
Proof. auto. Qed.

Lemma consistent_suspend k st : timersConsistent st -> timersConsistent (suspend k st).
Proof. auto. Qed.

Lemma consistent_cancelLoop v st : timersConsistent st -> timersConsistent (cancelLoop v st).
Proof.
  intros (H1 & H2 & H3). unfold cancelLoop.
  destruct (emoteLoops st !! v) as [entry|]; [|now repeat split].
  repeat split; cbn [emoteLoops timers nextTimer].
  - intros u e H. apply lookup_delete_Some in H as [_ H]. eauto.
  - intros t c H. apply lookup_delete_Some in H as [_ H]. eauto.
  - intros u e c H H'. apply lookup_delete_Some in H as [_ H].
    apply lookup_delete_Some in H' as [_ H']. eauto.
Qed.

Lemma consistent_rearm c st : timersConsistent st -> timersConsistent (rearm c st).
Proof.
  intros (H1 & H2 & H3). unfold rearm. repeat split; cbn [emoteLoops timers nextTimer].
  - intros u e H. apply lookup_insert_Some in H as [[_ <-] | [_ H]]; cbn [timeoutId].
    + lia.
    + apply H1 in H. lia.
  - intros t c' H. apply lookup_insert_Some in H as [[<- _] | [_ H]]; [lia|].
    apply H2 in H. lia.
  - intros u e c' H H'.
    apply lookup_insert_Some in H as [[<- <-] | [Hne H]]; cbn [timeoutId] in *.
    + rewrite lookup_insert_eq in H'. now injection H' as <-.
    + pose proof (H1 _ _ H) as Hlt.
      rewrite lookup_insert_ne in H' by lia. eauto.
Qed.

Lemma consistent_startLoop (user : User) emoteName st :
  timersConsistent st -> timersConsistent (startLoop cfg user emoteName st).
Proof.
  intros H. unfold startLoop.
  destruct (lookupEmote cfg emoteName) as [emoteDef|]; [|exact H].
  destruct (String.eqb (emote_id emoteDef) ""); exact H.
Qed.

Lemma consistent_step st (ev : Event) :
  timersConsistent st -> timersConsistent (step cfg st ev).
Proof.
  intros H. destruct ev as [user emoteName | user | user | t | k r]; cbn [step].
  - unfold handleEmoteLoopCommand. destruct (hasLoop (user_id user) st).
    + apply consistent_suspend, consistent_send, consistent_cancelLoop, H.
    + apply consistent_startLoop, H.
  - unfold handleStopEmoteCommand. destruct (hasLoop (user_id user) st).
    + apply consistent_send, consistent_cancelLoop, H.
    + exact H.
  - apply consistent_cancelLoop, H.
  - destruct (timers st !! t) as [c|]; [|exact H].
    apply consistent_suspend. destruct H as (H1 & H2 & H3).
    repeat split; cbn [emoteLoops timers nextTimer]; [exact H1 | |].
    + intros t' c' H'. apply lookup_delete_Some in H' as [_ H']. eauto.
    + intros u e c' Hu H'. apply lookup_delete_Some in H' as [_ H']. eauto.
  - destruct (suspended st !! k) as [c|]; [|exact H].
    match goal with
    | |- timersConsistent (resume _ _ _ ?st1) =>
        assert (H' : timersConsistent st1) by exact H; generalize dependent st1
    end.
    intros st1 H1. destruct c as [user emoteName | c | c], r as [players|]; cbn [resume];
      try exact H1.
    + apply consistent_startLoop, H1.
    + destruct (existsb _ players); [exact H1 | apply consistent_cancelLoop, H1].
    + apply consistent_rearm, H1.
    + destruct (hasLoop (user_id (cl_user c)) st1); [|exact H1].
      apply consistent_send, consistent_cancelLoop, H1.
Qed.

Lemma consistent_run (evs : list Event) st :
  timersConsistent st -> timersConsistent (run cfg st evs).
Proof.
  revert st. induction evs as [|ev evs IH]; intros st H; [exact H|].
  cbn [run fold_left]. apply IH, consistent_step, H.
Qed.

Lemma consistent_initial : timersConsistent initial.
Proof.
  repeat split; cbn [initial emoteLoops timers]; intros *; rewrite lookup_empty; discriminate.
Qed.

(** what the cancellation of one user's loop leaves to another user *)
Lemma cancelLoop_spares u v st :
  timersConsistent st -> u <> v ->
  emoteLoops (cancelLoop u st) !! v = emoteLoops st !! v
  /\ (forall t c, timers st !! t = Some c -> user_id (cl_user c) = v ->
                  timers (cancelLoop u st) !! t = Some c).
Proof.
  intros (_ & _ & H3) Hne. unfold cancelLoop.
  destruct (emoteLoops st !! u) as [entry|] eqn:Hentry; [|now split].
  cbn [emoteLoops timers]. split; [now apply lookup_delete_ne|].
  intros t c Ht Hc. rewrite lookup_delete_ne; [exact Ht|].
  intros <-. apply Hne. rewrite <- Hc. symmetry. eauto.
Qed.

(** X29.  In every state the bot can reach, what one user does with their
    emote loop (starting one, stopping it, leaving the room) leaves the
    loop of every other user alone: the other user's registry entry, their
    armed timers and their suspended ticks are all still there. *)
Theorem loops_of_others_are_spared (history : list Event) (ev : Event) (u v : UserId) :
  actsFor u ev = true ->
  u <> v ->
  let st := run cfg initial history in
  emoteLoops (step cfg st ev) !! v = emoteLoops st !! v
  /\ (forall t c, timers st !! t = Some c -> user_id (cl_user c) = v ->
                  timers (step cfg st ev) !! t = Some c)
  /\ (forall k, In k (suspended st) -> In k (suspended (step cfg st ev))).
Proof.
  intros Hact Hne. cbv zeta.
  pose proof (consistent_run history initial consistent_initial) as Hinv.
  destruct (cancelLoop_spares u v _ Hinv Hne) as [Hl Ht].
  pose proof (cancelLoop_keeps_suspended u (run cfg initial history)) as Hs.
  destruct ev as [user emoteName | user | user | t | k r]; cbn [actsFor] in Hact;
    try discriminate Hact; apply String.eqb_eq in Hact; subst u; cbn [step].
  - unfold handleEmoteLoopCommand.
    destruct (hasLoop (user_id user) (run cfg initial history)).
    + cbn [suspend send emoteLoops timers suspended]. rewrite Hs.
      split; [exact Hl | split; [exact Ht|]]. intros k Hk. apply in_or_app. now left.
    + unfold startLoop. destruct (lookupEmote cfg emoteName) as [emoteDef|]; [|now repeat split].
      destruct (String.eqb (emote_id emoteDef) ""); [now repeat split|].
      cbn [send performEmote suspend emoteLoops timers suspended].
      split; [reflexivity | split; [auto|]]. intros k Hk. apply in_or_app. now left.
  - unfold handleStopEmoteCommand. destruct (hasLoop (user_id user) (run cfg initial history)).
    + cbn [send emoteLoops timers suspended]. rewrite Hs. now repeat split.
    + now repeat split.
  - rewrite Hs. now repeat split.
Qed.

End EmoteLoopIsolation.

Lemma aliceLooping_state :
  aliceLooping
  = EmoteLoops.mkSched
      {["u1" := EmoteLoops.mkLoopEntry 0 "emote-wave" None]}
      {[0 := EmoteLoops.mkClosure alice "wave" wave]} [] 1
      [MessageSend "@alice Performing 'wave' in a loop. Type '!stop' to halt.";
       PlayerEmote "u1" "emote-wave"].
Proof. vm_compute. reflexivity. Qed.

Lemma stopped_loop_stays_stopped_witness :
  let later := [EmoteLoops.EvStart bob "wave"; EmoteLoops.EvTimer 0;
                EmoteLoops.EvSettle 0 (EmoteLoops.Resolved [alice; bob]);
                EmoteLoops.EvSettle 0 (EmoteLoops.Resolved [])] in
  quiet "u1" (EmoteLoops.run (sampleConfig true)
                (EmoteLoops.step (sampleConfig true) aliceLooping (EmoteLoops.EvStop alice)) later)
  /\ emotesOf "u1" (EmoteLoops.trace
                      (EmoteLoops.run (sampleConfig true)
                         (EmoteLoops.step (sampleConfig true) aliceLooping
                            (EmoteLoops.EvStop alice)) later))
     = emotesOf "u1" (EmoteLoops.trace aliceLooping).
Proof.
  apply (stopped_loop_stays_stopped (sampleConfig true) "u1" alice aliceLooping
           (EmoteLoops.EvStop alice)).
  - reflexivity.
  - rewrite aliceLooping_state. exists (EmoteLoops.mkLoopEntry 0 "emote-wave" None).
    split; [reflexivity|]. split; [|constructor].
    intros t c H _. cbn [EmoteLoops.timers] in H.
    apply lookup_singleton_Some in H as [<- _]. reflexivity.
  - left. reflexivity.
  - reflexivity.
Defined.

Lemma loops_of_others_are_spared_witness :
  let st := EmoteLoops.run (sampleConfig true) EmoteLoops.initial bothLooping in
  let st' := EmoteLoops.step (sampleConfig true) st (EmoteLoops.EvStop alice) in
  EmoteLoops.emoteLoops st' !! "u2" = EmoteLoops.emoteLoops st !! "u2"
  /\ (forall t c, EmoteLoops.timers st !! t = Some c ->
                  user_id (EmoteLoops.cl_user c) = "u2" ->
                  EmoteLoops.timers st' !! t = Some c)
  /\ (forall k, In k (EmoteLoops.suspended st) -> In k (EmoteLoops.suspended st')).
Proof.
  apply (loops_of_others_are_spared (sampleConfig true) bothLooping (EmoteLoops.EvStop alice)
           "u1" "u2").
  - reflexivity.
  - discriminate.
Defined.

(** ** Kick, ban and mute through the room *)

Section RoomExtra.

Variable w : World.

(** X30.  Kick, ban and mute never change a registry.  When the room
    rejects the lookup of the target's name, which comes first, they do
    nothing at all.  Otherwise they never act on an owner, a mod or the
    bot itself: such a target gets the reply that declines, and no call
    reaches the room.  On anyone else they make exactly one call on the
    room, the ban and the mute for 3600 seconds, and then report that it
    was carried out or, when the room rejected it, that it failed and
    why; the role of the sender is not looked at. *)
Theorem room_moderation_spares_staff_and_bot (k : RoomAction) (sender : User)
    (targetUserId : UserId) (s : State) :
  stateOf (runRoomAction w k sender targetUserId s) = s
  /\ (usernameError w targetUserId <> None ->
      effectsOf (runRoomAction w k sender targetUserId s) = [])
  /\ (usernameError w targetUserId = None ->
      isProtected s targetUserId = true \/ targetUserId = botId w ->
      effectsOf (runRoomAction w k sender targetUserId s) = [MessageSend (declined k sender)])
  /\ (usernameError w targetUserId = None ->
      isProtected s targetUserId = false -> targetUserId <> botId w ->
      effectsOf (runRoomAction w k sender targetUserId s)
      = [roomCall k targetUserId;
         MessageSend
           match actionError w (roomCall k targetUserId) with
           | None => carriedOut k sender (usernameOf w targetUserId)
           | Some message => failedWith k sender (usernameOf w targetUserId) message
           end]).
Proof.
  assert (Hbot : targetUserId = botId w <-> String.eqb targetUserId (botId w) = true)
    by (symmetry; apply String.eqb_eq).
  assert (Hrun : runRoomAction w k sender targetUserId s
                 = match usernameError w targetUserId with
                   | Some _ => (tt, s, [])
                   | None =>
                       if isProtected s targetUserId || String.eqb targetUserId (botId w)
                       then (tt, s, [MessageSend (declined k sender)])
                       else (tt, s,
                             [roomCall k targetUserId;
                              MessageSend
                                match actionError w (roomCall k targetUserId) with
                                | None => carriedOut k sender (usernameOf w targetUserId)
                                | Some message =>
                                    failedWith k sender (usernameOf w targetUserId) message
                                end])
                   end).
  { destruct k; cbn [runRoomAction roomCall];
      unfold handleKickCommand, handleBanCommand, handleMuteCommand, withUsername, attempt;
      (destruct (usernameError w targetUserId); [reflexivity|]);
      rewrite run_getState;
      (destruct (isProtected s targetUserId || String.eqb targetUserId (botId w));
       [reflexivity|]);
      rewrite run_emit;
      match goal with
      | |- context [actionError w ?e] => destruct (actionError w e)
      end; reflexivity. }
  rewrite Hrun. destruct (usernameError w targetUserId) as [message|].
  - split; [reflexivity|]. split; [reflexivity|]. split; intros H; discriminate H.
  - split; [destruct (_ || _); reflexivity|]. split; [intros H; now contradiction H|].
    split.
    + intros _ [H | H]; [rewrite H | apply Hbot in H; rewrite H, orb_true_r]; reflexivity.
    + intros _ Hprot Hnot. rewrite Hprot.
      destruct (String.eqb targetUserId (botId w)) eqn:E; [|reflexivity].
      exfalso. apply Hnot, Hbot. reflexivity.
Qed.

End RoomExtra.

Lemma room_moderation_spares_staff_and_bot_witness :
  effectsOf (runRoomAction room DoBan carol "bot" staffed)
  = [MessageSend "@carol Cannot ban owner/mod/bot."]
  /\ effectsOf (runRoomAction room DoBan carol "u1" staffed)
     = [PlayerBan "u1" 3600; MessageSend "@carol Banned alice for 1 hour."]
  /\ effectsOf (runRoomAction roomWithoutNames DoBan carol "u1" staffed) = [].
Proof.
  split; [|split].
  - apply (proj1 (proj2 (proj2 (room_moderation_spares_staff_and_bot
                                  room DoBan carol "bot" staffed)))).
    + reflexivity.
    + right. reflexivity.
  - apply (proj2 (proj2 (proj2 (room_moderation_spares_staff_and_bot
                                  room DoBan carol "u1" staffed)))).
    + reflexivity.
    + reflexivity.
    + discriminate.
  - apply (proj1 (proj2 (room_moderation_spares_staff_and_bot
                           roomWithoutNames DoBan carol "u1" staffed))).
    discriminate.
Defined.
